(** * archiveItems: a shallow embedding of [archiveItems.py]

    The script sweeps the rows of an inventory sheet; every row flagged for
    archiving gets a folder [data_dmp/owner/id], the item is fetched from the
    portal and archived by a strategy chosen from its declared type, and it is
    deleted afterwards when the row asks for it.

    The script is one flat module.  The embedding cuts it into the pieces
    its comments and blank lines delimit and keeps the names of its variables.
    Python exceptions, [sys.exit], the file system, the portal and the log
    are explicit: a computation is a function from a [World] to an [Outcome]
    and a new [World]. *)

From Stdlib Require Import List String Ascii ZArith Bool Arith Lia.
From Stdlib Require Import DecimalString.
From Stdlib Require DecimalNat DecimalFacts.
Import ListNotations.
Open Scope string_scope.

Set Implicit Arguments.
Set Warnings "-register-all".

(* ================================================================== *)
(** ** Python values read from the sheet *)

(** A cell of the sheet, as [openpyxl] hands it over: empty ([None]), text,
    a number or a boolean.  Only text has the [str] methods. *)
Inductive Cell : Type :=
| CNone
| CStr (s : string)
| CInt (z : Z)
| CBool (b : bool).

(** [value == token] where [token] is a [str] literal. *)
Definition py_eq_str (c : Cell) (token : string) : bool :=
  match c with
  | CStr s => String.eqb s token
  | _ => false
  end.

(** [value in lst] where [lst] is a list of [str] literals. *)
Fixpoint mem_str (s : string) (l : list string) : bool :=
  match l with
  | [] => false
  | x :: r => if String.eqb s x then true else mem_str s r
  end.

Definition py_in (c : Cell) (l : list string) : bool :=
  match c with
  | CStr s => mem_str s l
  | _ => false
  end.

(* ------------------------------------------------------------------ *)
(** *** [str.lower]

    Strings are sequences of code points below 256.  [str.lower] maps the
    letters [A]..[Z] to [a]..[z]; on the other code points it never yields
    one of the letters [y], [e], [s], so the comparison of line 139 is
    decided by the ASCII letters alone. *)

Definition lower_ascii (c : ascii) : ascii :=
  let n := nat_of_ascii c in
  if andb (Nat.leb 65 n) (Nat.leb n 90) then ascii_of_nat (n + 32) else c.

Fixpoint lower (s : string) : string :=
  match s with
  | EmptyString => EmptyString
  | String c r => String (lower_ascii c) (lower r)
  end.

(* ------------------------------------------------------------------ *)
(** *** [os.path.join] (posixpath, two arguments) *)

Definition startswith_sep (s : string) : bool :=
  match s with
  | String "/" _ => true
  | _ => false
  end.

Fixpoint endswith_sep (s : string) : bool :=
  match s with
  | EmptyString => false
  | String c EmptyString => Ascii.eqb c "/"
  | String _ r => endswith_sep r
  end.

Definition path_join (a b : string) : string :=
  if startswith_sep b then b
  else if orb (String.eqb a EmptyString) (endswith_sep a) then a ++ b
  else a ++ "/" ++ b.

(* ------------------------------------------------------------------ *)
(** *** [str] of an integer *)

Definition str_of_Z (z : Z) : string := NilZero.string_of_int (Z.to_int z).
Definition str_of_nat (n : nat) : string := NilZero.string_of_uint (Nat.to_uint n).

(* ================================================================== *)
(** ** JSON documents and [json.dumps] *)

Inductive json : Type :=
| JNull
| JBool (b : bool)
| JInt (z : Z)
| JStr (s : string)
| JArr (l : list json)
| JObj (l : list (string * json)).

Definition dquote : string := String (ascii_of_nat 34) EmptyString.
Definition newline : string := String (ascii_of_nat 10) EmptyString.
Definition tab : string := String (ascii_of_nat 9) EmptyString.
Definition backslash : string := String (ascii_of_nat 92) EmptyString.

Definition hex_digit (n : nat) : ascii :=
  if Nat.ltb n 10 then ascii_of_nat (48 + n) else ascii_of_nat (87 + n).

(** One character under [ensure_ascii=True]: the quote, the backslash and
    everything outside [' '..'~'] are escaped. *)
Definition escape_ascii (c : ascii) : string :=
  let n := nat_of_ascii c in
  if Nat.eqb n 34 then backslash ++ dquote
  else if Nat.eqb n 92 then backslash ++ backslash
  else if Nat.eqb n 10 then backslash ++ "n"
  else if Nat.eqb n 13 then backslash ++ "r"
  else if Nat.eqb n 9 then backslash ++ "t"
  else if Nat.eqb n 8 then backslash ++ "b"
  else if Nat.eqb n 12 then backslash ++ "f"
  else if andb (Nat.leb 32 n) (Nat.leb n 126) then String c EmptyString
  else backslash ++ "u00"
       ++ String (hex_digit (n / 16)) (String (hex_digit (n mod 16)) EmptyString).

Fixpoint escape (s : string) : string :=
  match s with
  | EmptyString => EmptyString
  | String c r => escape_ascii c ++ escape r
  end.

Definition encode_str (s : string) : string := dquote ++ escape s ++ dquote.

Fixpoint spaces (n : nat) : string :=
  match n with
  | O => EmptyString
  | S k => String " " (spaces k)
  end.

Fixpoint sep_concat (sep : string) (l : list string) : string :=
  match l with
  | [] => EmptyString
  | [x] => x
  | x :: r => x ++ sep ++ sep_concat sep r
  end.

(** What opens a non-empty container, separates its items and closes it, at
    nesting level [lvl] (the level of the container itself). *)
Definition newline_indent (ind : option nat) (lvl : nat) : string :=
  match ind with
  | None => EmptyString
  | Some k => newline ++ spaces (k * lvl)
  end.

Definition item_separator (ind : option nat) : string :=
  match ind with
  | None => ", "
  | Some _ => ","
  end.

Definition key_separator : string := ": ".

Fixpoint encode (ind : option nat) (lvl : nat) (v : json) : string :=
  match v with
  | JNull => "null"
  | JBool true => "true"
  | JBool false => "false"
  | JInt z => str_of_Z z
  | JStr s => encode_str s
  | JArr [] => "[]"
  | JArr l =>
      let items := (fix go (l : list json) : list string :=
                      match l with
                      | [] => []
                      | x :: r => encode ind (S lvl) x :: go r
                      end) l in
      "[" ++ newline_indent ind (S lvl)
          ++ sep_concat (item_separator ind ++ newline_indent ind (S lvl)) items
          ++ newline_indent ind lvl ++ "]"
  | JObj [] => "{}"
  | JObj l =>
      let items := (fix go (l : list (string * json)) : list string :=
                      match l with
                      | [] => []
                      | (k, x) :: r =>
                          (encode_str k ++ key_separator ++ encode ind (S lvl) x) :: go r
                      end) l in
      "{" ++ newline_indent ind (S lvl)
          ++ sep_concat (item_separator ind ++ newline_indent ind (S lvl)) items
          ++ newline_indent ind lvl ++ "}"
  end.

(** [json.dumps(v)] and [json.dumps(v, indent=k)]. *)
Definition dumps (v : json) : string := encode None 0 v.
Definition dumps_indent (k : nat) (v : json) : string := encode (Some k) 0 v.


(* ================================================================== *)
(** ** Exceptions and outcomes *)

Inductive ExnKind : Type :=
| TypeError
| AttributeError
| KeyError
| FileExistsError
| FileNotFoundError
| NotADirectoryError
| IsADirectoryError
| PortalError.            (* any [Exception] raised by the portal client *)

(** An exception; [exn_msg] is what [str(ex)] gives. *)
Record Exn : Type := mkExn { exn_kind : ExnKind; exn_msg : string }.

(** A call into a library either returns or raises. *)
Inductive Result (A : Type) : Type :=
| Returns (a : A)
| Raises (e : Exn).
Arguments Returns {A} a.
Arguments Raises {A} e.

(** How a piece of the script ends: it falls through with a value, an
    exception is on its way up, or [sys.exit(code)] was called.  [SystemExit]
    is no [Exception], so [except Exception] lets it pass. *)
Inductive Outcome (A : Type) : Type :=
| Ret (a : A)
| Raise (e : Exn)
| Exit (code : Z).
Arguments Ret {A} a.
Arguments Raise {A} e.
Arguments Exit {A} code.

(* ================================================================== *)
(** ** The portal *)

(** A file as a download leaves it in the target folder. *)
Record File : Type := mkFile { file_name : string; file_data : string }.

(** An item related to a form: [rel_item.id], [rel_item.url] (a [str] or
    [None]) and what [rel_item.download(folder)] does. *)
Record RelItem : Type := mkRelItem {
  rel_id : string;
  rel_url : option string;
  rel_download : Result File
}.

(** An item of the portal, by what each method the script calls on it
    does.  [delete] returns [True] (the item is gone), returns [False]
    (it is still there) or raises.  An export that returns has created a
    new item in the portal: [exp_id] is the id the portal gave it
    ([exported_folder_item.id]) and [exp_item] is the item itself. *)
Inductive Item : Type := mkItem {
  title : string;
  download : Result File;
  get_data : Result json;
  export : Result Exported;
  related_data : Result (list RelItem);       (* related_items("Survey2Data", "forward") *)
  related_services : Result (list RelItem);   (* related_items("Survey2Service", "forward") *)
  resources_export : Result File;
  delete : Result bool
}
with Exported : Type := mkExported {
  exp_id : string;
  exp_item : Item
}.

(** What [exported_folder_item.download(save_path=folder)] does. *)
Definition exp_download (exported : Exported) : Result File :=
  download (exp_item exported).

(* ================================================================== *)
(** ** The world the script runs in *)

Inductive Level : Type := INFO | ERROR.

Inductive Event : Type :=
| EvMkdir (p : string)                       (* os.mkdir(p) *)
| EvWrite (p : string) (text : string)       (* open(p, "a") ... f.close() *)
| EvSave (p : string) (data : string)        (* a file left by a download *)
| EvConnect                                  (* GIS(...) *)
| EvVerify (url : string)                    (* requests.get(url) *)
| EvGet (id : string)                        (* source.content.get(id) *)
| EvDownload (id dir : string)               (* item.download(dir) *)
| EvGetData (id : string)                    (* item.get_data() *)
| EvExport (id : string)                     (* item.export(id, 'File Geodatabase', wait=True) *)
| EvExportedDownload (id dir : string)       (* exported.download(save_path=dir) *)
| EvRelated (id rel : string)                (* item.related_items(rel, "forward") *)
| EvRelDownload (id dir : string)            (* rel_item.download(dir) *)
| EvResourcesExport (id dir : string)        (* item.resources.export(dir) *)
| EvDelete (id : string).                    (* item.delete() *)

(** The calls that go to the remote service. *)
Definition is_remote (e : Event) : bool :=
  match e with
  | EvMkdir _ | EvWrite _ _ | EvSave _ _ => false
  | _ => true
  end.

Definition is_delete (e : Event) : bool :=
  match e with
  | EvDelete _ => true
  | _ => false
  end.

(** The files an event leaves on disk. *)
Definition written_path (e : Event) : list string :=
  match e with
  | EvWrite p _ | EvSave p _ => [p]
  | _ => []
  end.

(** The file system is kept as the script names it: [dirs] holds the
    paths [os.mkdir] was given and [files] the paths written, each with the
    text of the file.  What these names stand for is a tree (see "Paths and
    the file tree" below).  [portal] is what [source.content] holds, [log]
    what [logging] received; [trace] records the calls that left the
    process and [visited] the sheet rows whose loop body was entered. *)
Record World : Type := mkWorld {
  dirs : list string;
  files : list (string * string);
  portal : list (string * Item);
  log : list (Level * string);
  trace : list Event;
  visited : list nat
}.

Definition M (A : Type) : Type := World -> Outcome A * World.

Definition ret {A} (a : A) : M A := fun w => (Ret a, w).

Definition bind {A B} (m : M A) (k : A -> M B) : M B :=
  fun w =>
    match m w with
    | (Ret a, w') => k a w'
    | (Raise e, w') => (Raise e, w')
    | (Exit c, w') => (Exit c, w')
    end.

Definition raise {A} (e : Exn) : M A := fun w => (Raise e, w).

(** [sys.exit(code)] *)
Definition sys_exit {A} (code : Z) : M A := fun w => (Exit code, w).

(** [try: body  except Exception as ex: handler ex] *)
Definition try_except {A} (body : M A) (handler : Exn -> M A) : M A :=
  fun w =>
    match body w with
    | (Raise e, w') => handler e w'
    | r => r
    end.

Declare Scope monad_scope.
Delimit Scope monad_scope with monad.
Notation "x <- m ;; k" := (bind m (fun x => k))
  (at level 61, m at next level, right associativity) : monad_scope.
Notation "m ;; k" := (bind m (fun _ => k))
  (at level 61, right associativity) : monad_scope.
Open Scope monad_scope.

Fixpoint for_each {A} (l : list A) (body : A -> M unit) : M unit :=
  match l with
  | [] => ret tt
  | x :: r => body x ;; for_each r body
  end.

(** What a library call answered becomes the outcome of the call. *)
Definition answer {A} (r : Result A) : M A :=
  match r with
  | Returns a => ret a
  | Raises e => raise e
  end.

(* ------------------------------------------------------------------ *)
(** *** Primitive effects *)

Definition emit (e : Event) : M unit :=
  fun w => (Ret tt, mkWorld (dirs w) (files w) (portal w) (log w) (trace w ++ [e]) (visited w)).

Definition visit (i : nat) : M unit :=
  fun w => (Ret tt, mkWorld (dirs w) (files w) (portal w) (log w) (trace w) (visited w ++ [i])).

Definition logging (lv : Level) (msg : string) : M unit :=
  fun w => (Ret tt, mkWorld (dirs w) (files w) (portal w) (log w ++ [(lv, msg)]) (trace w) (visited w)).

Definition logging_info := logging INFO.
Definition logging_error := logging ERROR.

Fixpoint lookup {A} (k : string) (l : list (string * A)) : option A :=
  match l with
  | [] => None
  | (k', a) :: r => if String.eqb k k' then Some a else lookup k r
  end.

Fixpoint remove_key {A} (k : string) (l : list (string * A)) : list (string * A) :=
  match l with
  | [] => []
  | (k', a) :: r => if String.eqb k k' then remove_key k r else (k', a) :: remove_key k r
  end.

(* ------------------------------------------------------------------ *)
(** *** Paths and the file tree

    POSIX paths in a tree without symbolic links, seen by a process whose
    working directory is the root (a relative path and the absolute one of
    the same names meet; with absolute paths in [config.ini] the working
    directory plays no part).  A place in the tree is the list of the names
    that lead to it from the root.  Outside the model: permissions, limits
    on the length of a name, a full disk. *)

(** [p.split("/")] without the empty parts. *)
Fixpoint names_from (acc p : string) : list string :=
  match p with
  | EmptyString => if String.eqb acc EmptyString then [] else [acc]
  | String c r =>
      if Ascii.eqb c "/"
      then ((if String.eqb acc EmptyString then [] else [acc]) ++ names_from EmptyString r)%list
      else names_from (acc ++ String c EmptyString) r
  end.

Definition names (p : string) : list string := names_from EmptyString p.

(** A separator at the end asks for a folder, as a final [.] does. *)
Definition parts (p : string) : list string :=
  (names p ++ (if endswith_sep p then ["."] else []))%list.

(** One name further from the place [n]. *)
Definition step (n : list string) (c : string) : list string :=
  if String.eqb c "." then n
  else if String.eqb c ".." then removelast n
  else (n ++ [c])%list.

(** The place a path names. *)
Definition locate (p : string) : list string := fold_left step (names p) [].

(** The places passed on the way, the first and the last included. *)
Fixpoint passed_from (n : list string) (cs : list string) : list (list string) :=
  n :: match cs with
       | [] => []
       | c :: r => passed_from (step n c) r
       end.

Fixpoint place_eqb (a b : list string) : bool :=
  match a, b with
  | [], [] => true
  | x :: a', y :: b' => andb (String.eqb x y) (place_eqb a' b')
  | _, _ => false
  end.

(** The folders of the tree: the root and, for every path [os.mkdir] was
    given, the places on the way to it and the one it names (a folder is
    only ever made inside a folder that is there). *)
Definition folders (ds : list string) : list (list string) :=
  [] :: flat_map (fun p => passed_from [] (names p)) ds.

Definition is_dir_in (ds : list string) (n : list string) : bool :=
  existsb (place_eqb n) (folders ds).

Definition is_file_in (fs : list (string * string)) (n : list string) : bool :=
  existsb (fun q => place_eqb n (locate (fst q))) fs.

(** How the system follows a path: it gets to a place ([Found], whether
    or not something is there), or it has to leave a place that is no
    folder: a file ([ENOTDIR]) or nothing ([ENOENT]). *)
Inductive Resolved : Type :=
| Found (n : list string)
| NoEntry
| NotDir.

Fixpoint walk_in (ds : list string) (fs : list (string * string))
                 (n : list string) (cs : list string) : Resolved :=
  match cs with
  | [] => Found n
  | c :: r =>
      if is_dir_in ds n then walk_in ds fs (step n c) r
      else if is_file_in fs n then NotDir
      else NoEntry
  end.

Definition is_dir (w : World) (n : list string) : bool := is_dir_in (dirs w) n.
Definition is_file (w : World) (n : list string) : bool := is_file_in (files w) n.
Definition walk (w : World) (n : list string) (cs : list string) : Resolved :=
  walk_in (dirs w) (files w) n cs.

(** Something is at the place [n]. *)
Definition occupied (w : World) (n : list string) : bool :=
  orb (is_dir w n) (is_file w n).

(** [os.path.exists(p)] as a function of the world: [stat(p)] succeeds.
    A file is there under the very name it was written or downloaded by;
    any other name has to lead to it through folders. *)
Definition path_exists (w : World) (p : string) : bool :=
  if String.eqb p EmptyString then false
  else orb (match lookup p (files w) with Some _ => true | None => false end)
           (match walk w [] (parts p) with
            | Found n => occupied w n
            | _ => false
            end).

Definition os_path_exists (p : string) : M bool :=
  fun w => (Ret (path_exists w p), w).

(** The [OSError] subclasses the script can meet; [str(ex)] is given for a
    path of plain characters. *)
Definition strerror (kind : ExnKind) : string :=
  match kind with
  | FileExistsError => "[Errno 17] File exists"
  | FileNotFoundError => "[Errno 2] No such file or directory"
  | NotADirectoryError => "[Errno 20] Not a directory"
  | IsADirectoryError => "[Errno 21] Is a directory"
  | _ => EmptyString
  end.

Definition os_error (kind : ExnKind) (p : string) : Exn :=
  mkExn kind (strerror kind ++ ": '" ++ p ++ "'").

(** [os.mkdir(p)]: the folders on the way must be there, the place itself
    must be free; separators at the end do not count. *)
Definition os_mkdir (p : string) : M unit :=
  fun w =>
    if String.eqb p EmptyString then (Raise (os_error FileNotFoundError p), w)
    else
      match walk w [] (names p) with
      | Found n =>
          if occupied w n then (Raise (os_error FileExistsError p), w)
          else (Ret tt, mkWorld (dirs w ++ [p]) (files w) (portal w) (log w)
                                (trace w ++ [EvMkdir p]) (visited w))
      | NoEntry => (Raise (os_error FileNotFoundError p), w)
      | NotDir => (Raise (os_error NotADirectoryError p), w)
      end.

(** Two paths that name the same place. *)
Definition same_file (p q : string) : bool := place_eqb (locate p) (locate q).

(** The files after [text] was appended to the file at [p]: to the file
    that is at that place, or to a new one. *)
Fixpoint append_to (p text : string) (fs : list (string * string)) : list (string * string) :=
  match fs with
  | [] => [(p, text)]
  | (q, old) :: r =>
      if same_file p q then (q, old ++ text) :: r else (q, old) :: append_to p text r
  end.

(** What [open(p).read()] gives. *)
Fixpoint read_file (fs : list (string * string)) (p : string) : option string :=
  match fs with
  | [] => None
  | (q, text) :: r => if same_file p q then Some text else read_file r p
  end.

(** [f = open(p, "a"); f.write(text); f.close()]: the folders on the way
    must be there and [p] must not name a folder. *)
Definition append_file (p text : string) : M unit :=
  fun w =>
    if String.eqb p EmptyString then (Raise (os_error FileNotFoundError p), w)
    else
      match walk w [] (names p) with
      | Found n =>
          if orb (endswith_sep p) (is_dir w n)
          then (Raise (os_error IsADirectoryError p), w)
          else (Ret tt, mkWorld (dirs w) (append_to p text (files w)) (portal w) (log w)
                                (trace w ++ [EvWrite p text]) (visited w))
      | NoEntry => (Raise (os_error FileNotFoundError p), w)
      | NotDir => (Raise (os_error NotADirectoryError p), w)
      end.

(** A download that returned has left [f] in [dir]; it returns the path of
    the file. *)
Definition save_file (dir : string) (f : File) : M string :=
  fun w =>
    let p := path_join dir (file_name f) in
    (Ret p, mkWorld (dirs w) ((p, file_data f) :: remove_key p (files w)) (portal w) (log w)
                    (trace w ++ [EvSave p (file_data f)]) (visited w)).

(** [os.path.join(a, c)] for a cell [c]: anything but text is refused. *)
Definition os_path_join (a : string) (c : Cell) : M string :=
  match c with
  | CStr b => ret (path_join a b)
  | _ => raise (mkExn TypeError "expected str, bytes or os.PathLike object")
  end.

(** [c + suffix] for a cell [c] and a [str] literal. *)
Definition cell_add (c : Cell) (suffix : string) : M string :=
  match c with
  | CStr s => ret (s ++ suffix)
  | _ => raise (mkExn TypeError "unsupported operand type(s) for +")
  end.

(** [c.lower()] *)
Definition cell_lower (c : Cell) : M string :=
  match c with
  | CStr s => ret (lower s)
  | _ => raise (mkExn AttributeError "object has no attribute 'lower'")
  end.

(* ------------------------------------------------------------------ *)
(** *** Calls to the portal *)

(** [source.content.get(id)]: the item, or [None]. *)
Definition content_get (id : string) : M (option Item) :=
  emit (EvGet id) ;;
  fun w => (Ret (lookup id (portal w)), w).

Definition item_download (id : string) (it : Item) (dir : string) : M string :=
  emit (EvDownload id dir) ;;
  f <- answer (download it) ;;
  save_file dir f.

Definition item_get_data (id : string) (it : Item) : M json :=
  emit (EvGetData id) ;;
  answer (get_data it).

(** The portal takes in an item it has just created.  It gives ids that
    are not in use; should [id] be in use here, the older item keeps it. *)
Definition add_item (id : string) (it : Item) : M unit :=
  fun w => (Ret tt, mkWorld (dirs w) (files w) (portal w ++ [(id, it)]) (log w)
                            (trace w) (visited w)).

(** [Source_item.export(SourceItem_Id, 'File Geodatabase', wait=True)]: when
    it returns, the exported item is in the portal. *)
Definition item_export (id : string) (it : Item) : M Exported :=
  emit (EvExport id) ;;
  exported <- answer (export it) ;;
  add_item (exp_id exported) (exp_item exported) ;;
  ret exported.

Definition exported_download (ex : Exported) (dir : string) : M string :=
  emit (EvExportedDownload (exp_id ex) dir) ;;
  f <- answer (exp_download ex) ;;
  save_file dir f.

Definition item_related_items (id : string) (it : Item) (rel : string) : M (list RelItem) :=
  emit (EvRelated id rel) ;;
  answer (if String.eqb rel "Survey2Data" then related_data it else related_services it).

Definition rel_item_download (r : RelItem) (dir : string) : M string :=
  emit (EvRelDownload (rel_id r) dir) ;;
  f <- answer (rel_download r) ;;
  save_file dir f.

Definition item_resources_export (id : string) (it : Item) (dir : string) : M string :=
  emit (EvResourcesExport id dir) ;;
  f <- answer (resources_export it) ;;
  save_file dir f.

Definition drop_item (id : string) : M unit :=
  fun w => (Ret tt, mkWorld (dirs w) (files w) (remove_key id (portal w)) (log w)
                            (trace w) (visited w)).

(** [Source_item.delete()] *)
Definition item_delete (id : string) (it : Item) : M bool :=
  emit (EvDelete id) ;;
  gone <- answer (delete it) ;;
  (if gone then drop_item id else ret tt) ;;
  ret gone.

(* ================================================================== *)
(** ** The script: variables and constants (lines 35-58) *)

Definition archiveFlag : string := "yes".
Definition deleteFlag : string := "yes".

Definition idColumnNumber : nat := 1.
Definition ownerColumnNumber : nat := 2.
Definition typeColumnNumber : nat := 8.
Definition archiveFlagColumnNumber : nat := 11.
Definition deleteFlagColumnNumber : nat := 12.

Definition lst_file_types : list string :=
  ["File Geodatabase"; "Service Definition"; "Shapefile"; "CSV"; "Mobile Map Package";
   "Microsoft Word"; "Project Package"; "Notebook"; "PDF"; "CSV Collection"; "Tile Package"].
Definition lst_export_services : list string := ["Feature Service"].
Definition lst_other_services : list string := ["Image Service"; "Scene Service"].
Definition lst_data_apps : list string :=
  ["Web Map"; "Web Scene"; "Web Mapping Application"; "Dashboard"; "Feature Collection"].
Definition lst_other_apps : list string := ["Form"; "Web Experience"; "StoryMap"].

(** What [config.ini] holds (lines 76-81). *)
Record Config : Type := mkConfig {
  sourcePortal : string;
  sourceUserName : string;
  sourcePassword : string;
  sourceUserId : string;
  inputExcelFile : string;
  data_dmp : string
}.

(** The values of interest of one sheet row (lines 130-134). *)
Record Row : Type := mkRow {
  SourceItem_Id : Cell;
  SourceItem_Owner : Cell;
  SourceItem_ArchiveFlag_Value : Cell;
  SourceItem_DeleteFlag_Value : Cell;
  SourceItem_Type : Cell
}.

(** The sheet: [Inventory.max_row] and [Inventory.cell(row, column).value]. *)
Record Sheet : Type := mkSheet {
  max_row : nat;
  cell_value : nat -> nat -> Cell
}.

Definition read_row (Inventory : Sheet) (i : nat) : Row :=
  {| SourceItem_Id := cell_value Inventory i idColumnNumber;
     SourceItem_Owner := cell_value Inventory i ownerColumnNumber;
     SourceItem_ArchiveFlag_Value := cell_value Inventory i archiveFlagColumnNumber;
     SourceItem_DeleteFlag_Value := cell_value Inventory i deleteFlagColumnNumber;
     SourceItem_Type := cell_value Inventory i typeColumnNumber |}.

(* ================================================================== *)
(** ** The archival strategies (lines 146-274)

    Each takes the row, the id of the item as text ([os.path.join] has
    accepted it on line 143) and the folder of the item. *)

(** "delete, if indicated": lines 152-156, 170-174, 191-195, 256-260. *)
Definition delete_if_indicated (row : Row) (id : string) (Source_item : Item) : M unit :=
  try_except
    (if py_eq_str (SourceItem_DeleteFlag_Value row) deleteFlag
     then (_ <- item_delete id Source_item ;; ret tt)
     else ret tt)
    (fun del_ex => logging_error (tab ++ "Error deleting id: " ++ id)).

(** The error document of lines 200-204, 214-218, 266-270. *)
Definition error_data (Source_item : Item) (id reason : string) : json :=
  JObj [("itemname", JStr (title Source_item));
        ("itemid", JStr id);
        ("download_error", JStr reason)].

Definition write_error_json (row : Row) (id item_folder : string)
                            (Source_item : Item) (reason : string) : M unit :=
  name <- cell_add (SourceItem_Type row) "_error.json" ;;
  let TargetJSONFile := path_join item_folder name in
  append_file TargetJSONFile (dumps_indent 4 (error_data Source_item id reason)).

(** Lines 162-168 and 228-234: [json.dumps] of the data, then [json.dump]
    of the resulting text into [<type>.json]. *)
Definition archive_data (row : Row) (id item_folder : string) (Source_item : Item) : M unit :=
  text <- item_get_data id Source_item ;;
  let text_str := dumps text in
  name <- cell_add (SourceItem_Type row) ".json" ;;
  let TargetJSONFile := path_join item_folder name in
  append_file TargetJSONFile (dumps (JStr text_str)).

(** Lines 146-156. *)
Definition strategy_file (row : Row) (id item_folder : string) : M unit :=
  Source_item <- content_get id ;;
  match Source_item with
  | None => ret tt
  | Some Source_item =>
      _ <- item_download id Source_item item_folder ;;
      delete_if_indicated row id Source_item
  end.

(** Lines 158-174. *)
Definition strategy_data_app (row : Row) (id item_folder : string) : M unit :=
  Source_item <- content_get id ;;
  match Source_item with
  | None => ret tt
  | Some Source_item =>
      archive_data row id item_folder Source_item ;;
      delete_if_indicated row id Source_item
  end.

(** Lines 176-208. *)
Definition strategy_export_service (row : Row) (id item_folder : string) : M unit :=
  Source_item <- content_get id ;;
  match Source_item with
  | None => ret tt
  | Some Source_item =>
      try_except
        (exported_folder_item <- item_export id Source_item ;;
         logging_info ("The id of extracted folder --> " ++ exp_id exported_folder_item ++ ".") ;;
         logging_info "The data is downloading" ;;
         _ <- exported_download exported_folder_item item_folder ;;
         logging_info "The data is downloaded." ;;
         delete_if_indicated row id Source_item)
        (fun copy_ex =>
           logging_error (tab ++ "Error exporting " ++ title Source_item) ;;
           logging_error (tab ++ exn_msg copy_ex) ;;
           write_error_json row id item_folder Source_item (exn_msg copy_ex))
  end.

(** Lines 210-222. *)
Definition strategy_other_service (row : Row) (id item_folder : string) : M unit :=
  Source_item <- content_get id ;;
  match Source_item with
  | None => ret tt
  | Some Source_item =>
      write_error_json row id item_folder Source_item
        "Unable to export this format. Please find source files for this service"
  end.

(** Lines 236-247: the manifest of the related services, in loop order. *)
Fixpoint relations_from (ind : nat) (l : list RelItem) : list (string * json) :=
  match l with
  | [] => []
  | rel_item :: r =>
      let ind := S ind in
      (str_of_nat ind ++ " relation ITEM ID for this form is ", JStr (rel_id rel_item))
      :: (str_of_nat ind ++ " relation ITEM URL for this form is ",
          match rel_url rel_item with Some u => JStr u | None => JNull end)
      :: relations_from ind r
  end.

(** Lines 224-260. *)
Definition strategy_other_app (row : Row) (id item_folder : string) : M unit :=
  Source_item <- content_get id ;;
  match Source_item with
  | None => ret tt
  | Some Source_item =>
      archive_data row id item_folder Source_item ;;
      (if py_eq_str (SourceItem_Type row) "Form" then
         rel_items_data <- item_related_items id Source_item "Survey2Data" ;;
         for_each rel_items_data
           (fun rel_item => _ <- rel_item_download rel_item item_folder ;; ret tt) ;;
         rel_items_services <- item_related_items id Source_item "Survey2Service" ;;
         let dict_relations := relations_from 0 rel_items_services in
         name <- cell_add (SourceItem_Type row) "_rel_services.json" ;;
         let TargetJSONFile := path_join item_folder name in
         append_file TargetJSONFile (dumps_indent 4 (JObj dict_relations))
       else
         _ <- item_resources_export id Source_item item_folder ;; ret tt) ;;
      delete_if_indicated row id Source_item
  end.

(** Lines 262-274. *)
Definition strategy_unsupported (row : Row) (id item_folder : string) : M unit :=
  Source_item <- content_get id ;;
  match Source_item with
  | None => ret tt
  | Some Source_item =>
      write_error_json row id item_folder Source_item
        "Export operation not supported for this data type"
  end.

(** The [if]/[elif] chain of lines 146, 158, 176, 210, 224, 262. *)
Definition dispatch (row : Row) (id item_folder : string) : M unit :=
  let ty := SourceItem_Type row in
  if py_in ty lst_file_types then strategy_file row id item_folder
  else if py_in ty lst_data_apps then strategy_data_app row id item_folder
  else if py_in ty lst_export_services then strategy_export_service row id item_folder
  else if py_in ty lst_other_services then strategy_other_service row id item_folder
  else if py_in ty lst_other_apps then strategy_other_app row id item_folder
  else strategy_unsupported row id item_folder.

(* ================================================================== *)
(** ** One row (lines 136-145) and the loop (lines 127-134) *)

(** [os.path.join(a, c)] together with the text of [c], which the later
    lines use. *)
Definition join_cell (a : string) (c : Cell) : M (string * string) :=
  p <- os_path_join a c ;;
  match c with
  | CStr s => ret (p, s)
  | _ => raise (mkExn TypeError "expected str, bytes or os.PathLike object")
  end.

(** Lines 137-145, up to the [os.mkdir] of the item folder: the flag test
    and the two folders.  The result is the folder just made and the id,
    or [None] when the row is left alone. *)
Definition enter_folder (cfg : Config) (row : Row) : M (option (string * string)) :=
  let archiveFlagValue := SourceItem_ArchiveFlag_Value row in
  match archiveFlagValue with
  | CNone => ret None
  | _ =>
      lowered <- cell_lower archiveFlagValue ;;
      if String.eqb lowered archiveFlag then
        user_folder <- os_path_join (data_dmp cfg) (SourceItem_Owner row) ;;
        there <- os_path_exists user_folder ;;
        (if there then ret tt else os_mkdir user_folder) ;;
        joined <- join_cell user_folder (SourceItem_Id row) ;;
        let (item_folder, id) := joined in
        there <- os_path_exists item_folder ;;
        if there then ret None
        else (os_mkdir item_folder ;; ret (Some (item_folder, id)))
      else ret None
  end.

(** The body of the loop after the cells were read. *)
Definition process_row (cfg : Config) (row : Row) : M unit :=
  entered <- enter_folder cfg row ;;
  match entered with
  | None => ret tt
  | Some (item_folder, id) => dispatch row id item_folder
  end.

(** [for i in range(2, inventory_row + 1)] *)
Definition row_numbers (Inventory : Sheet) : list nat := seq 2 (max_row Inventory - 1).

Definition sweep (cfg : Config) (Inventory : Sheet) : M unit :=
  for_each (row_numbers Inventory)
    (fun i => visit i ;; process_row cfg (read_row Inventory i)).

(* ================================================================== *)
(** ** Before the loop (lines 83-126) *)

(** What the world outside answers before the loop: the token of the
    session [GIS(...)] opens, the body of the reply to the verify request
    after [json.loads], and the [Inventory] sheet of the workbook. *)
Record Env : Type := mkEnv {
  gis_connect : Result string;
  verify_reply : Result json;
  load_inventory : Result Sheet
}.

Fixpoint has_key (k : string) (l : list (string * json)) : bool :=
  match l with
  | [] => false
  | (k', _) :: r => if String.eqb k k' then true else has_key k r
  end.

Fixpoint is_substring (needle s : string) : bool :=
  if String.prefix needle s then true
  else match s with
       | EmptyString => false
       | String _ r => is_substring needle r
       end.

Definition is_json_str (s : string) (v : json) : bool :=
  match v with
  | JStr t => String.eqb t s
  | _ => false
  end.

(** ["error" in json_source_response] *)
Definition contains_error (v : json) : M bool :=
  match v with
  | JObj l => ret (has_key "error" l)
  | JArr l => ret (existsb (is_json_str "error") l)
  | JStr s => ret (is_substring "error" s)
  | _ => raise (mkExn TypeError "argument is not iterable")
  end.

(** [json_source_response["id"]] *)
Definition subscript_id (v : json) : M json :=
  match v with
  | JObj l =>
      match lookup "id" l with
      | Some x => ret x
      | None => raise (mkExn KeyError "'id'")
      end
  | _ => raise (mkExn TypeError "indices must be integers")
  end.

(** [prefix + v + suffix] for [str] literals around a JSON value. *)
Definition str_add_json (prefix : string) (v : json) (suffix : string) : M string :=
  match v with
  | JStr s => ret (prefix ++ s ++ suffix)
  | _ => raise (mkExn TypeError "can only concatenate str to str")
  end.

(** Lines 83-93. *)
Definition check_inventory_file (cfg : Config) : M unit :=
  logging_info ("source Portal: " ++ sourcePortal cfg) ;;
  logging_info ("source UserName: " ++ sourceUserName cfg) ;;
  logging_info ("source UserId: " ++ sourceUserId cfg) ;;
  logging_info ("Data backup location: " ++ data_dmp cfg) ;;
  logging_info ("Input Reference Excel File Name: " ++ inputExcelFile cfg) ;;
  there <- os_path_exists (inputExcelFile cfg) ;;
  if there then
    logging_info "Input Reference Excel File exists. Continuing ..."
  else
    logging_error "Input Reference Excel File does not exist. Exiting." ;;
    sys_exit 0.

(** Lines 97-100. *)
Definition connect (cfg : Config) (env : Env) : M string :=
  emit EvConnect ;;
  SourceToken <- answer (gis_connect env) ;;
  logging_info ("Connected to Source AGOL " ++ sourcePortal cfg ++ " as " ++ sourceUserName cfg) ;;
  logging_info ("The Source Generated Token is " ++ SourceToken) ;;
  ret SourceToken.

(** Lines 103-116. *)
Definition verify_user (cfg : Config) (env : Env) (SourceToken : string) : M unit :=
  let SourceTokenVerifyUrl :=
    sourcePortal cfg ++ "sharing/rest/community/users/" ++ sourceUserName cfg
                     ++ "?f=json&token=" ++ SourceToken in
  logging_info ("Source User Verify URL --> " ++ SourceTokenVerifyUrl) ;;
  emit (EvVerify SourceTokenVerifyUrl) ;;
  json_source_response <- answer (verify_reply env) ;;
  has_error <- contains_error json_source_response ;;
  if negb has_error then
    Obtained_Source_ID <- subscript_id json_source_response ;;
    if is_json_str (sourceUserId cfg) Obtained_Source_ID then
      logging_info "The user ID in the portal matches the configured user id. Continuing ..."
    else
      msg <- str_add_json "The user id in the portal " Obtained_Source_ID
               (" is not the same as in Configured file " ++ sourceUserId cfg ++ " . Exiting.") ;;
      logging_error msg ;;
      sys_exit 0
  else
    msg <- str_add_json "Error in Source ID Verification. " json_source_response ". Exiting." ;;
    logging_error msg ;;
    sys_exit 0.

(** Lines 121-126. *)
Definition load_sheet (env : Env) : M Sheet :=
  logging_info "Loading Excel and sheet ..." ;;
  Inventory <- answer (load_inventory env) ;;
  logging_info "Processing rows in sheet ... " ;;
  ret Inventory.

(** The whole script. *)
Definition main (cfg : Config) (env : Env) : M unit :=
  check_inventory_file cfg ;;
  SourceToken <- connect cfg env ;;
  verify_user cfg env SourceToken ;;
  Inventory <- load_sheet env ;;
  sweep cfg Inventory.

(** The exit status of the process: [sys.exit(code)] gives [code], an
    uncaught exception gives 1, running off the end gives 0. *)
Definition exit_status {A} (o : Outcome A) : Z :=
  match o with
  | Ret _ => 0
  | Raise _ => 1
  | Exit c => c
  end.

Definition empty_world : World := mkWorld [] [] [] [] [] [].

(* ================================================================== *)
(** ** The classifier as the specification words it

    Six classes; a declared type is looked up in the five sets in the order
    the specification lists them (file types, export-capable services,
    non-export-capable services, data applications, other applications) and
    everything else is [Unclassified].  The script has no such function: its
    chain of [elif] tests the sets in another order. *)

Inductive TypeClass : Type :=
| FileAsset
| ExportableService
| NonExportableService
| DataApplication
| OtherApplication
| Unclassified.

Definition classify (declaredType : string) : TypeClass :=
  if mem_str declaredType lst_file_types then FileAsset
  else if mem_str declaredType lst_export_services then ExportableService
  else if mem_str declaredType lst_other_services then NonExportableService
  else if mem_str declaredType lst_data_apps then DataApplication
  else if mem_str declaredType lst_other_apps then OtherApplication
  else Unclassified.

(** A cell that holds no text is in none of the sets. *)
Definition classify_cell (c : Cell) : TypeClass :=
  match c with
  | CStr s => classify s
  | _ => Unclassified
  end.

(** The strategy of each class. *)
Definition strategy (c : TypeClass) : Row -> string -> string -> M unit :=
  match c with
  | FileAsset => strategy_file
  | ExportableService => strategy_export_service
  | NonExportableService => strategy_other_service
  | DataApplication => strategy_data_app
  | OtherApplication => strategy_other_app
  | Unclassified => strategy_unsupported
  end.

Definition all_known_types : list string :=
  lst_file_types ++ lst_export_services ++ lst_other_services
                 ++ lst_data_apps ++ lst_other_apps.

(** "Equal without regard to case", as the specification says it. *)
Definition ci_equal (a b : string) : Prop := lower a = lower b.

(** The archive flag of the row is text that equals the token without
    regard to case. *)
Definition archive_flag_matches (row : Row) : Prop :=
  exists s, SourceItem_ArchiveFlag_Value row = CStr s /\ ci_equal s archiveFlag.

(** Text and emptiness of a cell. *)
Definition is_text (c : Cell) : bool :=
  match c with CStr _ => true | _ => false end.
Definition is_absent (c : Cell) : bool :=
  match c with CNone => true | _ => false end.

(** Everything that exists in [w] exists in [w']. *)
Definition fs_le (w w' : World) : Prop :=
  forall p, path_exists w p = true -> path_exists w' p = true.

(** A computation that never removes a path. *)
Definition monotone {A} (m : M A) : Prop := forall w, fs_le w (snd (m w)).

(** The archive root is the same in both worlds. *)
Definition same_archive (w w' : World) : Prop :=
  dirs w = dirs w' /\ files w = files w'.

(** The row is one the loop body passes over in [w]: the flag is absent or
    another word, or both folders exist. *)
Definition row_skipped (cfg : Config) (row : Row) (w : World) : bool :=
  match SourceItem_ArchiveFlag_Value row with
  | CNone => true
  | CStr s =>
      if String.eqb (lower s) archiveFlag then
        match SourceItem_Owner row, SourceItem_Id row with
        | CStr o, CStr i =>
            andb (path_exists w (path_join (data_dmp cfg) o))
                 (path_exists w (path_join (path_join (data_dmp cfg) o) i))
        | _, _ => false
        end
      else true
  | _ => false
  end.

(** The world after [os.mkdir(p)] went through. *)
Definition made (p : string) (w : World) : World :=
  mkWorld (dirs w ++ [p]) (files w) (portal w) (log w) (trace w ++ [EvMkdir p]) (visited w).

(** The world after [events] were recorded. *)
Definition traced (events : list Event) (w : World) : World :=
  mkWorld (dirs w) (files w) (portal w) (log w) (trace w ++ events) (visited w).

Definition returns {A} (r : Result A) : bool :=
  match r with Returns _ => true | Raises _ => false end.

(** The archival step of the row's class goes through: every call it makes
    on the item returns. *)
Definition archival_succeeds (declaredType : string) (it : Item) : bool :=
  match classify declaredType with
  | FileAsset => returns (download it)
  | DataApplication => returns (get_data it)
  | ExportableService =>
      match export it with
      | Returns exported => returns (exp_download exported)
      | Raises _ => false
      end
  | OtherApplication =>
      andb (returns (get_data it))
           (if String.eqb declaredType "Form" then
              andb (match related_data it with
                    | Returns l => forallb (fun r => returns (rel_download r)) l
                    | Raises _ => false
                    end)
                   (returns (related_services it))
            else returns (resources_export it))
  | NonExportableService | Unclassified => false
  end.

(** The export of the item, or the download of what it exported, raises
    [e]. *)
Definition export_fails (it : Item) (e : Exn) : Prop :=
  export it = Raises e
  \/ exists exported, export it = Returns exported /\ exp_download exported = Raises e.

(** From [w] to [w'] nothing was deleted and no delete was tried: the portal
    is the same, the log and the trace only grew, and the new events hold
    no delete. *)
Definition no_delete_step (w w' : World) : Prop :=
  portal w' = portal w
  /\ (exists l, log w' = (log w ++ l)%list)
  /\ exists evs, trace w' = (trace w ++ evs)%list /\ filter is_delete evs = [].

(** The delete flag of the row says yes. *)
Definition delete_indicated (row : Row) : bool :=
  py_eq_str (SourceItem_DeleteFlag_Value row) deleteFlag.

(** [m] started in [w] returns, and deletes nothing on the way. *)
Definition quietly {A} (m : M A) (w : World) : Prop :=
  exists a w', m w = (Ret a, w') /\ no_delete_step w w'.


(* ------------------------------------------------------------------ *)
(** *** The process-level contract, as the specification words it *)

(** The reply to the verify request carries an account id, a text that
    is not the configured one. *)
Definition account_id_differs (cfg : Config) (env : Env) : Prop :=
  exists tok l obtained,
    gis_connect env = Returns tok
    /\ verify_reply env = Returns (JObj l)
    /\ has_key "error" l = false
    /\ lookup "id" l = Some (JStr obtained)
    /\ obtained <> sourceUserId cfg.

(** One of the two conditions under which the script is to stop before the
    loop. *)
Definition must_stop_early (cfg : Config) (env : Env) (w : World) : Prop :=
  path_exists w (inputExcelFile cfg) = false
  \/ (path_exists w (inputExcelFile cfg) = true /\ account_id_differs cfg env).

(** "Exits early through a non-zero path, before processing any row". *)
Definition exits_nonzero_before_rows (cfg : Config) (env : Env) (w : World) : Prop :=
  must_stop_early cfg env w ->
  exit_status (fst (main cfg env w)) <> 0%Z
  /\ visited (snd (main cfg env w)) = visited w.

(* ------------------------------------------------------------------ *)
(** *** Concrete inputs *)

Definition cfg0 : Config :=
  mkConfig "https://portal.example/" "admin" "secret" "u-1"
           "/in/inventory.xlsx" "/archive".

Definition portal_down : Exn := mkExn PortalError "connection reset".

(** The file geodatabase an export creates: it can be downloaded and
    deleted, and has nothing else to give. *)
Definition package_item : Item :=
  mkItem "exported"
    (Returns (mkFile "export.zip" "zip"))
    (Returns JNull)
    (Raises (mkExn PortalError "not exportable"))
    (Returns [])
    (Returns [])
    (Raises (mkExn PortalError "no resources"))
    (Returns true).

(** An item every call on which returns. *)
Definition plain_item (t : string) : Item :=
  mkItem t
    (Returns (mkFile (t ++ ".bin") "payload"))
    (Returns (JObj [("a", JInt 1)]))
    (Returns (mkExported "exp-1" package_item))
    (Returns [])
    (Returns [])
    (Returns (mkFile "resources.zip" "zip"))
    (Returns true).

(** An item whose [download] raises. *)
Definition item_download_raises (t : string) : Item :=
  mkItem t (Raises portal_down) (get_data (plain_item t)) (export (plain_item t))
    (Returns []) (Returns []) (resources_export (plain_item t)) (Returns true).

(** An item whose [export] raises. *)
Definition item_export_raises (t : string) : Item :=
  mkItem t (download (plain_item t)) (get_data (plain_item t)) (Raises portal_down)
    (Returns []) (Returns []) (resources_export (plain_item t)) (Returns true).

(** An item whose [delete] raises. *)
Definition item_delete_raises (t : string) : Item :=
  mkItem t (download (plain_item t)) (get_data (plain_item t)) (export (plain_item t))
    (Returns []) (Returns []) (resources_export (plain_item t)) (Raises portal_down).

(** A sheet with a header row and the given data rows. *)
Definition sheet_of (rows : list Row) : Sheet :=
  mkSheet (1 + List.length rows)
    (fun r c =>
       if Nat.ltb r 2 then CStr "header"
       else match nth_error rows (r - 2) with
            | None => CNone
            | Some row =>
                if Nat.eqb c idColumnNumber then SourceItem_Id row
                else if Nat.eqb c ownerColumnNumber then SourceItem_Owner row
                else if Nat.eqb c typeColumnNumber then SourceItem_Type row
                else if Nat.eqb c archiveFlagColumnNumber then SourceItem_ArchiveFlag_Value row
                else if Nat.eqb c deleteFlagColumnNumber then SourceItem_DeleteFlag_Value row
                else CNone
            end).

(** A world with the archive root, the inventory file and a portal. *)
Definition world_with (items : list (string * Item)) : World :=
  mkWorld ["/archive"; "/in"] [("/in/inventory.xlsx", "xlsx")] items [] [] [].

(** The same without the inventory file. *)
Definition world_without_inventory : World :=
  mkWorld ["/archive"; "/in"] [] [] [] [] [].

Definition env_of (Inventory : Sheet) : Env :=
  mkEnv (Returns "token-1") (Returns (JObj [("id", JStr "u-1")])) (Returns Inventory).

(** Two rows of file type; the download of the first item raises. *)
Definition row_pdf_a1 : Row :=
  mkRow (CStr "a1") (CStr "alice") (CStr "yes") (CStr "yes") (CStr "PDF").
Definition row_pdf_b2 : Row :=
  mkRow (CStr "b2") (CStr "bob") (CStr "Yes") (CStr "no") (CStr "PDF").
Definition inventory_two_pdf : Sheet := sheet_of [row_pdf_a1; row_pdf_b2].
Definition world_first_download_raises : World :=
  world_with [("a1", item_download_raises "A"); ("b2", plain_item "B")].

(** A web map whose data document is [{"a": 1}]. *)
Definition row_web_map : Row :=
  mkRow (CStr "m1") (CStr "alice") (CStr "yes") (CStr "no") (CStr "Web Map").
Definition world_web_map : World := world_with [("m1", plain_item "Map")].

(** A feature service whose export raises, flagged for deletion. *)
Definition row_feature_service : Row :=
  mkRow (CStr "f1") (CStr "alice") (CStr "YES") (CStr "yes") (CStr "Feature Service").
Definition world_export_raises : World := world_with [("f1", item_export_raises "Roads")].

(** A shapefile flagged for deletion whose [delete] raises. *)
Definition row_shapefile : Row :=
  mkRow (CStr "s1") (CStr "carol") (CStr "yes") (CStr "yes") (CStr "Shapefile").
Definition world_delete_raises : World := world_with [("s1", item_delete_raises "Parcels")].

(** Rows that are not flagged: another word, and a number. *)
Definition row_not_flagged : Row :=
  mkRow (CStr "n1") (CStr "dave") (CStr "no") (CStr "yes") (CStr "PDF").
Definition row_number_flag : Row :=
  mkRow (CStr "n2") (CStr "dave") (CInt 1) (CStr "yes") (CStr "PDF").

(** A flagged row whose item the portal does not have. *)
Definition row_gone : Row :=
  mkRow (CStr "g1") (CStr "erin") (CStr "yes") (CStr "yes") (CStr "PDF").

(** A reply whose account id is another one. *)
Definition env_other_account : Env :=
  mkEnv (Returns "token-1") (Returns (JObj [("id", JStr "u-2")]))
        (Returns inventory_two_pdf).

(** Both items of the two rows answer every call. *)
Definition world_two_plain : World :=
  world_with [("a1", plain_item "A"); ("b2", plain_item "B")].

(* ================================================================== *)
(** ** Frames: what a computation leaves as it was *)

(** [m] takes every world to one that is [R]-related to it, however it
    ends. *)
Definition keeps (R : World -> World -> Prop) {A : Type} (m : M A) : Prop :=
  forall w, R w (snd (m w)).

(** The rows entered so far are the same. *)
Definition same_visited (w w' : World) : Prop := visited w' = visited w.

(** Nothing but the log and the trace differs. *)
Definition same_state (w w' : World) : Prop :=
  dirs w' = dirs w /\ files w' = files w /\ portal w' = portal w
  /\ visited w' = visited w.

(** The events recorded between [w] and a later [w']. *)
Definition events_since (w w' : World) : list Event :=
  skipn (List.length (trace w)) (trace w').

(** The spellings of the archive token that differ in case only. *)
Definition yes_variants : list string :=
  ["yes"; "yeS"; "yEs"; "yES"; "Yes"; "YeS"; "YEs"; "YES"].

(** The cells lines 139-143 need as text are text: the flag is absent or
    text, and when it says yes the owner and the id are text. *)
Definition gate_ok (row : Row) : bool :=
  match SourceItem_ArchiveFlag_Value row with
  | CNone => true
  | CStr s =>
      if String.eqb (lower s) archiveFlag
      then andb (is_text (SourceItem_Owner row)) (is_text (SourceItem_Id row))
      else true
  | _ => false
  end.

(* ------------------------------------------------------------------ *)
(** *** Archival that fails *)

(** The exception of a call that raises. *)
Definition failure {A : Type} (r : Result A) : option Exn :=
  match r with
  | Returns _ => None
  | Raises e => Some e
  end.

(** The exception of the first related item whose download raises. *)
Fixpoint first_failure (l : list RelItem) : option Exn :=
  match l with
  | [] => None
  | r :: rest =>
      match rel_download r with
      | Raises e => Some e
      | Returns _ => first_failure rest
      end
  end.

(** The exception of the first call of the archival step that raises, in
    the order the strategy of the class makes its calls. *)
Definition archival_failure (declaredType : string) (it : Item) : option Exn :=
  match classify declaredType with
  | FileAsset => failure (download it)
  | DataApplication => failure (get_data it)
  | ExportableService =>
      match export it with
      | Returns exported => failure (exp_download exported)
      | Raises e => Some e
      end
  | OtherApplication =>
      match get_data it with
      | Raises e => Some e
      | Returns _ =>
          if String.eqb declaredType "Form" then
            match related_data it with
            | Raises e => Some e
            | Returns l =>
                match first_failure l with
                | Some e => Some e
                | None => failure (related_services it)
                end
            end
          else failure (resources_export it)
      end
  | NonExportableService | Unclassified => None
  end.

(** The classes whose archival calls stand outside every [try]. *)
Definition unguarded (declaredType : string) : bool :=
  match classify declaredType with
  | FileAsset | DataApplication | OtherApplication => true
  | _ => false
  end.

(** [m] started in [w] raises [e], and deletes nothing on the way. *)
Definition fails_quietly {A : Type} (m : M A) (e : Exn) (w : World) : Prop :=
  exists w', m w = (Raise e, w') /\ no_delete_step w w'.

(** The classes the script has no way to archive, and what the error
    record says for each (lines 217 and 269). *)
Definition has_archival (c : TypeClass) : bool :=
  match c with
  | NonExportableService | Unclassified => false
  | _ => true
  end.

Definition refusal (c : TypeClass) : string :=
  match c with
  | NonExportableService =>
      "Unable to export this format. Please find source files for this service"
  | _ => "Export operation not supported for this data type"
  end.



(* ------------------------------------------------------------------ *)
(** *** The relation manifest of a form *)

(** The two keys lines 246-247 set for the [ind]-th related service. *)
Definition relation_id_key (ind : nat) : string :=
  str_of_nat ind ++ " relation ITEM ID for this form is ".
Definition relation_url_key (ind : nat) : string :=
  str_of_nat ind ++ " relation ITEM URL for this form is ".

(** [rel_item.url] as a JSON value. *)
Definition url_json (r : RelItem) : json :=
  match rel_url r with
  | Some u => JStr u
  | None => JNull
  end.

Fixpoint has_space (s : string) : bool :=
  match s with
  | EmptyString => false
  | String c r => if Ascii.eqb c " " then true else has_space r
  end.


(** [m] started in [w] returns [a] in [w'], having recorded [evs], with
    everything that was on disk still there. *)
Definition runs {A : Type} (m : M A) (w : World) (a : A) (evs : list Event) (w' : World) : Prop :=
  m w = (Ret a, w') /\ trace w' = (trace w ++ evs)%list /\ fs_le w w'.

(* ------------------------------------------------------------------ *)
(** *** Before the loop *)

(** The reply to the verify request is an object without [error] whose
    [id] is the configured user id (lines 107-110). *)
Definition id_verified (cfg : Config) (env : Env) : bool :=
  match verify_reply env with
  | Returns (JObj l) =>
      andb (negb (has_key "error" l))
           (match lookup "id" l with
            | Some obtained => is_json_str (sourceUserId cfg) obtained
            | None => false
            end)
  | _ => false
  end.

(** The address of the verify request (line 103). *)
Definition verify_url (cfg : Config) (SourceToken : string) : string :=
  sourcePortal cfg ++ "sharing/rest/community/users/" ++ sourceUserName cfg
                   ++ "?f=json&token=" ++ SourceToken.

(** What lines 83-90, 98-100 and 104 write to the log. *)
Definition config_log (cfg : Config) : list (Level * string) :=
  [(INFO, "source Portal: " ++ sourcePortal cfg);
   (INFO, "source UserName: " ++ sourceUserName cfg);
   (INFO, "source UserId: " ++ sourceUserId cfg);
   (INFO, "Data backup location: " ++ data_dmp cfg);
   (INFO, "Input Reference Excel File Name: " ++ inputExcelFile cfg);
   (INFO, "Input Reference Excel File exists. Continuing ...")].

Definition connect_log (cfg : Config) (SourceToken : string) : list (Level * string) :=
  [(INFO, "Connected to Source AGOL " ++ sourcePortal cfg ++ " as " ++ sourceUserName cfg);
   (INFO, "The Source Generated Token is " ++ SourceToken)].

Definition verify_log (cfg : Config) (SourceToken : string) : list (Level * string) :=
  [(INFO, "Source User Verify URL --> " ++ verify_url cfg SourceToken)].

(** The world after [entries] were logged. *)
Definition logged (entries : list (Level * string)) (w : World) : World :=
  mkWorld (dirs w) (files w) (portal w) (log w ++ entries) (trace w) (visited w).

(** The log of [w] is the beginning of the log of [w']. *)
Definition log_kept (w w' : World) : Prop := exists l, log w' = (log w ++ l)%list.

(** The world in which the verify request was answered: the checks of
    lines 83-104 passed and logged, the two calls recorded. *)
Definition at_verification (cfg : Config) (SourceToken : string) (w : World) : World :=
  mkWorld (dirs w) (files w) (portal w)
    (log w ++ config_log cfg ++ connect_log cfg SourceToken ++ verify_log cfg SourceToken)
    (trace w ++ [EvConnect; EvVerify (verify_url cfg SourceToken)])
    (visited w).

(* ------------------------------------------------------------------ *)
(** *** More concrete inputs *)

(** The world the sweep over the two rows leaves when the first download
    raises. *)
Definition world_after_failed_sweep : World :=
  snd (sweep cfg0 inventory_two_pdf world_first_download_raises).


(** An image service, a story map and a row without a type. *)
Definition row_image_service : Row :=
  mkRow (CStr "i1") (CStr "alice") (CStr "yes") (CStr "yes") (CStr "Image Service").
Definition world_image_service : World := world_with [("i1", plain_item "Imagery")].


Definition row_no_type : Row :=
  mkRow (CStr "x1") (CStr "alice") (CStr "yes") (CStr "no") CNone.
Definition world_no_type : World := world_with [("x1", plain_item "Untyped")].


(** A row whose declared type holds a separator, a row whose owner holds
    one, and a world without the archive root. *)
Definition row_slash_type : Row :=
  mkRow (CStr "z1") (CStr "alice") (CStr "yes") (CStr "no") (CStr "A/B").
Definition world_slash_type : World := world_with [("z1", plain_item "Odd")].

Definition row_slash_owner : Row :=
  mkRow (CStr "o1") (CStr "al/ice") (CStr "yes") (CStr "no") (CStr "PDF").
Definition world_without_root : World :=
  mkWorld ["/in"] [("/in/inventory.xlsx", "xlsx")] [("a1", plain_item "A")] [] [] [].

(** Replies to the verify request: an error, and an object without an
    [id]. *)
Definition env_error_reply : Env :=
  mkEnv (Returns "token-1")
        (Returns (JObj [("error", JObj [("code", JInt 498)])]))
        (Returns inventory_two_pdf).
Definition env_reply_without_id : Env :=
  mkEnv (Returns "token-1")
        (Returns (JObj [("username", JStr "admin")]))
        (Returns inventory_two_pdf).

(* ------------------------------------------------------------------ *)
(** *** More about the file tree *)

(** From [w] to [w'] the tree only grew: every folder and every file is
    still there. *)
Definition grows (w w' : World) : Prop :=
  (forall n, is_dir w n = true -> is_dir w' n = true)
  /\ (forall n, is_file w n = true -> is_file w' n = true)
  /\ (forall p, lookup p (files w) <> None -> lookup p (files w') <> None).

(** The folders are the same. *)
Definition same_dirs (w w' : World) : Prop := dirs w' = dirs w.

(** The world after [text] was appended to the file at [p]. *)
Definition wrote (p text : string) (w : World) : World :=
  mkWorld (dirs w) (append_to p text (files w)) (portal w) (log w)
          (trace w ++ [EvWrite p text]) (visited w).

(** [p] names a folder that is there ([os.path.isdir]). *)
Definition is_folder (w : World) (p : string) : bool :=
  if String.eqb p EmptyString then false
  else match walk w [] (names p) with
       | Found n => is_dir w n
       | _ => false
       end.

(** Every file lies in a folder that is there. *)
Definition files_in_folders (w : World) : Prop :=
  forall q, In q (files w) -> is_dir w (removelast (locate (fst q))) = true.

(** [p] names a folder that is there and has no folder inside. *)
Definition new_folder (w : World) (p : string) : Prop :=
  is_folder w p = true /\ forall c, is_dir w (locate p ++ [c]) = false.

Fixpoint has_sep (s : string) : bool :=
  match s with
  | EmptyString => false
  | String c r => if Ascii.eqb c "/" then true else has_sep r
  end.

(** A name of one part: not empty, without a separator, and neither [.]
    nor [..]. *)
Definition plain_name (s : string) : bool :=
  negb (orb (String.eqb s EmptyString)
            (orb (has_sep s) (orb (String.eqb s ".") (String.eqb s "..")))).

(** The errors [os.mkdir] can end with. *)
Definition mkdir_error (k : ExnKind) : bool :=
  match k with
  | FileExistsError | FileNotFoundError | NotADirectoryError => true
  | _ => false
  end.

(** The flag is absent or another word, or owner and id are names of one
    part. *)
Definition plain_cells (row : Row) : bool :=
  match SourceItem_ArchiveFlag_Value row with
  | CNone => true
  | CStr s =>
      if String.eqb (lower s) archiveFlag then
        match SourceItem_Owner row, SourceItem_Id row with
        | CStr o, CStr i => andb (plain_name o) (plain_name i)
        | _, _ => false
        end
      else true
  | _ => false
  end.

(** Line 142: the folder of the owner is made unless it is there. *)
Definition ensure_folder (p : string) : M unit :=
  fun w => (if path_exists w p then ret tt else os_mkdir p) w.

(* ------------------------------------------------------------------ *)
(** *** What an export leaves in the portal *)

(** The item [Source_item.export] creates, when it returns. *)
Definition created_by_export (it : Item) : list (string * Item) :=
  match export it with
  | Returns exported => [(exp_id exported, exp_item exported)]
  | Raises _ => []
  end.

(** The items the archival step of the class creates in the portal. *)
Definition created (declaredType : string) (it : Item) : list (string * Item) :=
  match classify declaredType with
  | ExportableService => created_by_export it
  | _ => []
  end.

(** From [w] to [w'] no delete was tried and nothing left the portal: the
    portal took in the items [added], the log and the trace only grew, and
    the new events hold no delete. *)
Definition step_adding (added : list (string * Item)) (w w' : World) : Prop :=
  portal w' = (portal w ++ added)%list
  /\ (exists l, log w' = (log w ++ l)%list)
  /\ exists evs, trace w' = (trace w ++ evs)%list /\ filter is_delete evs = [].

Definition no_removal_step (w w' : World) : Prop :=
  exists added, step_adding added w w'.


(** From [w] the row went on without a delete up to some world, the
    portal taking in [added], and from there the delete step led to [w2]. *)
Definition archived_then_delete_step (added : list (string * Item))
                                     (row : Row) (id : string) (it : Item)
                                     (w w2 : World) : Prop :=
  exists wm, step_adding added w wm /\ delete_if_indicated row id it wm = (Ret tt, w2).

(** [m] started in [w] falls through, having archived without a delete and
    then gone through the delete step. *)
Definition ends_with_delete (added : list (string * Item))
                            (row : Row) (id : string) (it : Item)
                            (m : M unit) (w : World) : Prop :=
  exists w2, m w = (Ret tt, w2) /\ archived_then_delete_step added row id it w w2.

(* ================================================================== *)
(** ** Basic facts *)

Example dumps_demo :
  dumps (JObj [("a", JArr [JInt 1; JNull]); ("b", JStr "x")])
  = "{" ++ dquote ++ "a" ++ dquote ++ ": [1, null], "
        ++ dquote ++ "b" ++ dquote ++ ": " ++ dquote ++ "x" ++ dquote ++ "}".
Proof. reflexivity. Qed.

Lemma mem_str_In (s : string) (l : list string) :
  mem_str s l = true <-> In s l.
Proof.
  induction l as [|x r IH]; simpl.
  - split; [discriminate | contradiction].
  - destruct (String.eqb s x) eqn:E.
    + apply String.eqb_eq in E. subst. split; auto.
    + apply String.eqb_neq in E. rewrite IH. split; auto.
      intros [H|H]; [congruence | exact H].
Qed.

Lemma mem_str_false (s : string) (l : list string) :
  mem_str s l = false <-> ~ In s l.
Proof.
  rewrite <- mem_str_In. destruct (mem_str s l); split; congruence.
Qed.

Lemma lower_archiveFlag : lower archiveFlag = archiveFlag.
Proof. reflexivity. Qed.

(** ** The classifier *)

Lemma known_types_NoDup : NoDup all_known_types.
Proof.
  unfold all_known_types, lst_file_types, lst_export_services, lst_other_services,
    lst_data_apps, lst_other_apps; simpl.
  repeat (constructor; [simpl; intuition discriminate|]).
  constructor.
Qed.

Ltac in_cases H :=
  simpl in H; repeat (destruct H as [H|H]; [subst; try reflexivity; try discriminate|]);
  try contradiction.

Lemma classify_file s : In s lst_file_types <-> classify s = FileAsset.
Proof.
  unfold classify. split.
  - intro H. apply mem_str_In in H. now rewrite H.
  - destruct (mem_str s lst_file_types) eqn:E; [intros _; now apply mem_str_In|].
    repeat match goal with |- context [if ?b then _ else _] => destruct b end;
      discriminate.
Qed.

Lemma classify_export s : In s lst_export_services <-> classify s = ExportableService.
Proof.
  split.
  - intro H. in_cases H.
  - unfold classify.
    destruct (mem_str s lst_file_types); [discriminate|].
    destruct (mem_str s lst_export_services) eqn:E; [intros _; now apply mem_str_In|].
    repeat match goal with |- context [if ?b then _ else _] => destruct b end;
      discriminate.
Qed.

Lemma classify_other_service s :
  In s lst_other_services <-> classify s = NonExportableService.
Proof.
  split.
  - intro H. in_cases H.
  - unfold classify.
    destruct (mem_str s lst_file_types); [discriminate|].
    destruct (mem_str s lst_export_services); [discriminate|].
    destruct (mem_str s lst_other_services) eqn:E; [intros _; now apply mem_str_In|].
    repeat match goal with |- context [if ?b then _ else _] => destruct b end;
      discriminate.
Qed.

Lemma classify_data_app s : In s lst_data_apps <-> classify s = DataApplication.
Proof.
  split.
  - intro H. in_cases H.
  - unfold classify.
    destruct (mem_str s lst_file_types); [discriminate|].
    destruct (mem_str s lst_export_services); [discriminate|].
    destruct (mem_str s lst_other_services); [discriminate|].
    destruct (mem_str s lst_data_apps) eqn:E; [intros _; now apply mem_str_In|].
    repeat match goal with |- context [if ?b then _ else _] => destruct b end;
      discriminate.
Qed.

Lemma classify_other_app s : In s lst_other_apps <-> classify s = OtherApplication.
Proof.
  split.
  - intro H. in_cases H.
  - unfold classify.
    destruct (mem_str s lst_file_types); [discriminate|].
    destruct (mem_str s lst_export_services); [discriminate|].
    destruct (mem_str s lst_other_services); [discriminate|].
    destruct (mem_str s lst_data_apps); [discriminate|].
    destruct (mem_str s lst_other_apps) eqn:E; [intros _; now apply mem_str_In|].
    discriminate.
Qed.

Lemma classify_unclassified s : ~ In s all_known_types <-> classify s = Unclassified.
Proof.
  unfold all_known_types. rewrite !in_app_iff.
  rewrite classify_file, classify_export, classify_other_service,
    classify_data_app, classify_other_app.
  destruct (classify s); split; intros H; try discriminate; try reflexivity;
    try (exfalso; apply H; tauto);
    intros [K|[K|[K|[K|K]]]]; discriminate.
Qed.

(** The chain of the script picks the strategy of the class. *)
Lemma dispatch_classify (row : Row) :
  dispatch row = strategy (classify_cell (SourceItem_Type row)) row.
Proof.
  unfold dispatch, classify_cell.
  destruct (SourceItem_Type row) as [|s| |]; try reflexivity.
  unfold py_in.
  destruct (classify s) eqn:C.
  - apply classify_file, mem_str_In in C. now rewrite C.
  - pose proof C as C'. apply classify_export in C. in_cases C.
  - pose proof C as C'. apply classify_other_service in C. in_cases C.
  - pose proof C as C'. apply classify_data_app in C. in_cases C.
  - pose proof C as C'. apply classify_other_app in C. in_cases C.
  - apply classify_unclassified in C. unfold all_known_types in C.
    rewrite !in_app_iff in C.
    assert (F : forall l, ~ In s l -> mem_str s l = false) by (intros; now apply mem_str_false).
    rewrite !F by tauto. reflexivity.
Qed.

(** C7.  Classification is a function of the declared type alone: the five
    static sets are pairwise disjoint (their concatenation has no duplicate),
    a string is assigned a set's class exactly when it is an element of that
    set (exact, case-sensitive equality of strings: ["pdf"] is not ["PDF"]),
    every other string is [Unclassified], and the chain of the script runs
    exactly the strategy of the class of the row's declared type. *)
Theorem C7_classify_total_and_dispatch :
  NoDup all_known_types
  /\ (forall s,
        (In s lst_file_types <-> classify s = FileAsset)
        /\ (In s lst_export_services <-> classify s = ExportableService)
        /\ (In s lst_other_services <-> classify s = NonExportableService)
        /\ (In s lst_data_apps <-> classify s = DataApplication)
        /\ (In s lst_other_apps <-> classify s = OtherApplication)
        /\ (~ In s all_known_types <-> classify s = Unclassified))
  /\ (classify "PDF" = FileAsset /\ classify "pdf" = Unclassified)
  /\ (forall row, dispatch row = strategy (classify_cell (SourceItem_Type row)) row).
Proof.
  split; [exact known_types_NoDup|].
  split.
  { intro s.
    repeat split;
      first [ apply classify_file | apply classify_export | apply classify_other_service
            | apply classify_data_app | apply classify_other_app
            | apply classify_unclassified ]. }
  split; [split; reflexivity|].
  exact dispatch_classify.
Qed.

(* ================================================================== *)
(** ** The archive flag gate *)

Lemma enter_folder_no_match (cfg : Config) (row : Row) (w : World) :
  ~ archive_flag_matches row ->
  snd (enter_folder cfg row w) = w
  /\ forall x, fst (enter_folder cfg row w) <> Ret (Some x).
Proof.
  intro H. unfold enter_folder.
  destruct (SourceItem_ArchiveFlag_Value row) as [|s|z|b] eqn:E;
    try (split; [reflexivity | intros x; discriminate]).
  unfold bind, cell_lower, ret.
  destruct (String.eqb (lower s) archiveFlag) eqn:L.
  - exfalso. apply H. exists s. split; [exact E|].
    apply String.eqb_eq in L. unfold ci_equal. now rewrite lower_archiveFlag.
  - split; [reflexivity | intros x; discriminate].
Qed.

(** C4.  A row whose archive flag is absent, or is not text equal to the
    token without regard to case, leaves the world as it was: no folder is
    made, no call goes to the portal, nothing is written or logged. *)
Theorem C4_unflagged_row_untouched (cfg : Config) (row : Row) (w : World) :
  ~ archive_flag_matches row ->
  snd (process_row cfg row w) = w.
Proof.
  intro H. destruct (enter_folder_no_match cfg w H) as [Hw Hr].
  unfold process_row, bind.
  destruct (enter_folder cfg row w) as [[[[f i]|]|e|c] w'] eqn:E; simpl in *;
    try assumption.
  exfalso. apply (Hr (f, i)). reflexivity.
Qed.

(** C10.  When the archive flag cell holds a value that is neither absent
    nor text, [.lower()] raises [AttributeError]: the row is not skipped, the
    exception leaves the loop body with the world untouched.  (With an absent
    flag the row is skipped and with a text flag the test returns:
    [absent_flag_skips], [text_flag_passes_test].) *)
Theorem C10_non_text_flag_raises (cfg : Config) (row : Row) (w : World) :
  is_text (SourceItem_ArchiveFlag_Value row) = false ->
  is_absent (SourceItem_ArchiveFlag_Value row) = false ->
  exists e, process_row cfg row w = (Raise e, w) /\ exn_kind e = AttributeError.
Proof.
  intros T A. unfold process_row, enter_folder, bind.
  destruct (SourceItem_ArchiveFlag_Value row) as [|s|z|b]; try discriminate;
    simpl; eexists; split; reflexivity.
Qed.

Lemma absent_flag_skips (cfg : Config) (row : Row) (w : World) :
  is_absent (SourceItem_ArchiveFlag_Value row) = true ->
  process_row cfg row w = (Ret tt, w).
Proof.
  unfold process_row, enter_folder, bind.
  destruct (SourceItem_ArchiveFlag_Value row); try discriminate. reflexivity.
Qed.

Lemma text_flag_passes_test (c : Cell) (w : World) :
  is_text c = true ->
  exists s, cell_lower c w = (Ret s, w).
Proof.
  destruct c; try discriminate. intros _. eexists. reflexivity.
Qed.

(* ================================================================== *)
(** ** The file tree *)

Lemma place_eqb_eq (a b : list string) : place_eqb a b = true <-> a = b.
Proof.
  revert b. induction a as [|x a IH]; intros [|y b]; simpl;
    try (split; [discriminate | intro H; discriminate H]); [tauto|].
  rewrite andb_true_iff, String.eqb_eq, IH. split.
  - intros [-> ->]. reflexivity.
  - intros [= -> ->]. split; reflexivity.
Qed.

Lemma place_eqb_refl (a : list string) : place_eqb a a = true.
Proof. now apply place_eqb_eq. Qed.

Lemma is_dir_in_spec (ds : list string) (n : list string) :
  is_dir_in ds n = true <-> In n (folders ds).
Proof.
  unfold is_dir_in. rewrite existsb_exists. split.
  - intros (m & I & E). apply place_eqb_eq in E. now subst.
  - intro I. exists n. split; [exact I | apply place_eqb_refl].
Qed.

Lemma is_file_in_spec (fs : list (string * string)) (n : list string) :
  is_file_in fs n = true <-> exists q, In q fs /\ n = locate (fst q).
Proof.
  unfold is_file_in. rewrite existsb_exists. split.
  - intros (q & I & E). apply place_eqb_eq in E. now exists q.
  - intros (q & I & ->). exists q. split; [exact I | apply place_eqb_refl].
Qed.

Lemma is_dir_root (ds : list string) : is_dir_in ds [] = true.
Proof. reflexivity. Qed.

Lemma folders_app (ds ds' : list string) (n : list string) :
  In n (folders (ds ++ ds')) <-> In n (folders ds) \/ In n (folders ds').
Proof.
  unfold folders. rewrite flat_map_app. simpl. rewrite in_app_iff. tauto.
Qed.

(* ------------------------------------------------------------------ *)
(** *** A folder lies in a folder *)

Lemma passed_from_head (n : list string) (cs : list string) : In n (passed_from n cs).
Proof. destruct cs; left; reflexivity. Qed.

Lemma passed_from_last (n : list string) (cs : list string) :
  In (fold_left step cs n) (passed_from n cs).
Proof.
  revert n. induction cs as [|c r IH]; intro n; simpl; [now left|].
  right. apply IH.
Qed.

Lemma firstn_step (k : nat) (n : list string) (c : string) :
  (exists j, firstn k (step n c) = firstn j n) \/ firstn k (step n c) = step n c.
Proof.
  unfold step.
  destruct (String.eqb c "."); [left; now exists k|].
  destruct (String.eqb c "..").
  - left. rewrite removelast_firstn_len, firstn_firstn. eexists. reflexivity.
  - destruct (Nat.le_gt_cases k (List.length n)) as [L|L].
    + left. exists k. rewrite firstn_app.
      replace (k - List.length n) with 0 by lia. simpl. now rewrite app_nil_r.
    + right. apply firstn_all2. rewrite length_app. simpl. lia.
Qed.

(** The places passed from [n] are closed under going up, as far as they
    are not above [n]. *)
Lemma passed_from_up (n : list string) (cs : list string) (m : list string) :
  In m (passed_from n cs) ->
  In (removelast m) (passed_from n cs) \/ exists k, removelast m = firstn k n.
Proof.
  revert n. induction cs as [|c r IH]; intros n I.
  - destruct I as [<-|[]]. right. eexists. apply removelast_firstn_len.
  - destruct I as [<-|I]; [right; eexists; apply removelast_firstn_len|].
    destruct (IH _ I) as [H|[k H]]; [left; now right|].
    destruct (firstn_step k n c) as [[j E]|E]; rewrite E in H.
    + right. now exists j.
    + left. right. rewrite H. apply passed_from_head.
Qed.

Lemma folders_up (ds : list string) (m : list string) :
  In m (folders ds) -> In (removelast m) (folders ds).
Proof.
  unfold folders. intros [<-|I]; [now left|].
  apply in_flat_map in I as (p & Ip & I).
  destruct (passed_from_up _ _ _ I) as [H|[k H]].
  - right. apply in_flat_map. now exists p.
  - left. rewrite H. now destruct k.
Qed.

Lemma is_dir_in_up (ds : list string) (n : list string) (c : string) :
  is_dir_in ds (n ++ [c]) = true -> is_dir_in ds n = true.
Proof.
  rewrite !is_dir_in_spec. intro H. apply folders_up in H.
  now rewrite removelast_last in H.
Qed.

(* ------------------------------------------------------------------ *)
(** *** Following a path *)

Lemma walk_in_app ds fs n cs cs' :
  walk_in ds fs n (cs ++ cs')
  = match walk_in ds fs n cs with
    | Found m => walk_in ds fs m cs'
    | r => r
    end.
Proof.
  revert n. induction cs as [|c r IH]; intro n; simpl; [reflexivity|].
  destruct (is_dir_in ds n); [apply IH|]. destruct (is_file_in fs n); reflexivity.
Qed.

Lemma walk_in_found ds fs n cs m :
  walk_in ds fs n cs = Found m ->
  m = fold_left step cs n
  /\ forall x, In x (passed_from n cs) -> x = m \/ is_dir_in ds x = true.
Proof.
  revert n. induction cs as [|c r IH]; intros n H; simpl in *.
  - injection H as <-. split; [reflexivity|]. intros x [<-|[]]. now left.
  - destruct (is_dir_in ds n) eqn:D.
    + destruct (IH _ H) as [E P]. split; [exact E|].
      intros x [<-|I]; [now right | now apply P].
    + destruct (is_file_in fs n); discriminate.
Qed.

(** Getting to a place depends on the folders alone, and goes on getting
    there when folders are added. *)
Lemma walk_in_more ds ds' fs fs' n cs m :
  (forall x, is_dir_in ds x = true -> is_dir_in ds' x = true) ->
  walk_in ds fs n cs = Found m -> walk_in ds' fs' n cs = Found m.
Proof.
  intro L. revert n. induction cs as [|c r IH]; intros n H; simpl in *; [exact H|].
  destruct (is_dir_in ds n) eqn:D.
  - rewrite (L _ D). now apply IH.
  - destruct (is_file_in fs n); discriminate.
Qed.

Lemma walk_in_passed ds fs n cs :
  (forall x, In x (passed_from n cs) -> is_dir_in ds x = true) ->
  walk_in ds fs n cs = Found (fold_left step cs n).
Proof.
  revert n. induction cs as [|c r IH]; intros n H; simpl; [reflexivity|].
  rewrite (H n) by (now left). apply IH. intros x I. apply H. now right.
Qed.

(* ------------------------------------------------------------------ *)
(** *** Growing *)

Lemma grows_refl w : grows w w.
Proof. repeat split; auto. Qed.

Lemma grows_trans w1 w2 w3 : grows w1 w2 -> grows w2 w3 -> grows w1 w3.
Proof.
  intros (A1 & B1 & C1) (A2 & B2 & C2). repeat split; auto.
Qed.

Lemma grows_fs_le w w' : grows w w' -> fs_le w w'.
Proof.
  intros (A & B & C) p. unfold path_exists.
  destruct (String.eqb p EmptyString); [exact (fun H => H)|].
  intro H. apply orb_true_iff in H as [H|H]; apply orb_true_iff.
  - left. specialize (C p). destruct (lookup p (files w)); [|discriminate].
    destruct (lookup p (files w')); [reflexivity | exfalso; apply C; congruence].
  - right. unfold walk in *.
    destruct (walk_in (dirs w) (files w) [] (parts p)) as [n| |] eqn:W; try discriminate.
    rewrite (@walk_in_more _ (dirs w') _ (files w') _ _ _ A W).
    unfold occupied in *. apply orb_true_iff in H as [H|H]; apply orb_true_iff;
      [left; now apply A | right; now apply B].
Qed.

Lemma grows_same w w' : dirs w' = dirs w -> files w' = files w -> grows w w'.
Proof.
  intros D F. unfold grows, is_dir, is_file. rewrite D, F. repeat split; auto.
Qed.

Lemma grows_made p w : grows w (made p w).
Proof.
  unfold grows, is_dir, is_file, made. simpl. repeat split; auto.
  intros n. rewrite !is_dir_in_spec, folders_app. tauto.
Qed.

Lemma lookup_append_to (p q text : string) (fs : list (string * string)) :
  lookup p fs <> None -> lookup p (append_to q text fs) <> None.
Proof.
  induction fs as [|[k v] fs IH]; simpl; [congruence|].
  destruct (same_file q k); simpl.
  - destruct (String.eqb p k); [congruence | auto].
  - destruct (String.eqb p k); [congruence | auto].
Qed.

Lemma is_file_append_to (p text : string) (fs : list (string * string)) (n : list string) :
  is_file_in (append_to p text fs) n = orb (is_file_in fs n) (place_eqb n (locate p)).
Proof.
  induction fs as [|[k v] fs IH]; simpl; [now rewrite orb_false_r|].
  destruct (same_file p k) eqn:S; simpl.
  - unfold same_file in S. apply place_eqb_eq in S. rewrite S.
    destruct (place_eqb n (locate k)), (is_file_in fs n); reflexivity.
  - rewrite IH. now rewrite orb_assoc.
Qed.

Lemma grows_wrote p text w : grows w (wrote p text w).
Proof.
  unfold grows, is_dir, is_file, wrote. simpl. repeat split; auto.
  - intros n H. rewrite is_file_append_to, H. reflexivity.
  - intros q. apply lookup_append_to.
Qed.

Lemma in_remove_key {A} (p k : string) (v : A) (l : list (string * A)) :
  In (k, v) l -> String.eqb p k = false -> In (k, v) (remove_key p l).
Proof.
  intros I N. induction l as [|[k' v'] l IH]; simpl; [contradiction|].
  destruct I as [[= -> ->]|I].
  - rewrite N. now left.
  - destruct (String.eqb p k'); [now apply IH | right; now apply IH].
Qed.

Lemma lookup_remove_key {A} (p q : string) (l : list (string * A)) :
  String.eqb p q = false -> lookup p (remove_key q l) = lookup p l.
Proof.
  intro N. induction l as [|[k v] l IH]; simpl; [reflexivity|].
  destruct (String.eqb q k) eqn:Q.
  - apply String.eqb_eq in Q. subst k. now rewrite N.
  - simpl. destruct (String.eqb p k); [reflexivity | exact IH].
Qed.

Lemma lookup_remove_key_same {A} (q : string) (l : list (string * A)) :
  lookup q (remove_key q l) = None.
Proof.
  induction l as [|[k v] l IH]; simpl; [reflexivity|].
  destruct (String.eqb q k) eqn:Q; [exact IH|]. simpl. now rewrite Q.
Qed.

Lemma grows_save_file dir f w : grows w (snd (save_file dir f w)).
Proof.
  unfold grows, is_dir, is_file, save_file. simpl. repeat split; auto.
  - intros n H. apply is_file_in_spec in H as ([k v] & I & ->).
    apply orb_true_iff.
    destruct (String.eqb (path_join dir (file_name f)) k) eqn:E.
    + left. apply String.eqb_eq in E. subst k. apply place_eqb_refl.
    + right. apply is_file_in_spec. exists (k, v). split; [|reflexivity].
      now apply in_remove_key.
  - intros q H. destruct (String.eqb q (path_join dir (file_name f))) eqn:Q;
      [discriminate|]. now rewrite lookup_remove_key.
Qed.

(* ------------------------------------------------------------------ *)
(** *** [os.mkdir] *)

Lemma os_mkdir_inv p w w' :
  os_mkdir p w = (Ret tt, w') ->
  w' = made p w /\ p <> EmptyString
  /\ walk w [] (names p) = Found (locate p) /\ occupied w (locate p) = false.
Proof.
  unfold os_mkdir. destruct (String.eqb p EmptyString) eqn:E; [discriminate|].
  apply String.eqb_neq in E.
  destruct (walk w [] (names p)) as [n| |] eqn:W; try discriminate.
  destruct (occupied w n) eqn:O; [discriminate|]. intros [= <-].
  destruct (walk_in_found _ _ _ _ W) as [-> _].
  repeat split; assumption.
Qed.

Lemma os_mkdir_run p w :
  p <> EmptyString -> walk w [] (names p) = Found (locate p) -> occupied w (locate p) = false ->
  os_mkdir p w = (Ret tt, made p w).
Proof.
  intros E W O. unfold os_mkdir. apply String.eqb_neq in E. now rewrite E, W, O.
Qed.

(** Whatever [os.mkdir] answers, it has made the folder or left the world
    as it was. *)
Lemma os_mkdir_world p w :
  os_mkdir p w = (Ret tt, made p w) \/ exists e, os_mkdir p w = (Raise e, w).
Proof.
  unfold os_mkdir.
  destruct (String.eqb p EmptyString); [right; eexists; reflexivity|].
  destruct (walk w [] (names p)) as [n| |]; try (right; eexists; reflexivity).
  destruct (occupied w n); [right; eexists; reflexivity | now left].
Qed.

Lemma is_dir_made p w m :
  walk w [] (names p) = Found (locate p) ->
  is_dir (made p w) m = orb (is_dir w m) (place_eqb m (locate p)).
Proof.
  intro W. destruct (walk_in_found _ _ _ _ W) as [_ P].
  apply eq_true_iff_eq. unfold is_dir, made. simpl.
  rewrite orb_true_iff, !is_dir_in_spec, folders_app, place_eqb_eq. split.
  - intros [H|H]; [now left|]. unfold folders in H. simpl in H.
    rewrite app_nil_r in H. destruct H as [<-|H]; [left; now left|].
    destruct (P _ H) as [->|D]; [now right | left; now apply is_dir_in_spec].
  - intros [H| ->]; [now left|]. right. unfold folders. simpl. rewrite app_nil_r.
    right. apply passed_from_last.
Qed.

Lemma walk_made p w n cs m :
  walk w n cs = Found m -> walk (made p w) n cs = Found m.
Proof.
  apply walk_in_more. intros x. apply (grows_made p w).
Qed.

Lemma is_folder_made_same p w :
  p <> EmptyString -> walk w [] (names p) = Found (locate p) -> is_folder (made p w) p = true.
Proof.
  intros E W. unfold is_folder. apply String.eqb_neq in E. rewrite E.
  rewrite (@walk_made p _ _ _ _ W), (@is_dir_made _ _ _ W), place_eqb_refl.
  apply orb_true_r.
Qed.

Lemma is_folder_exists w p : is_folder w p = true -> path_exists w p = true.
Proof.
  unfold is_folder, path_exists. destruct (String.eqb p EmptyString); [discriminate|].
  destruct (walk w [] (names p)) as [n| |] eqn:W; try discriminate. intro D.
  apply orb_true_iff. right. unfold parts, walk in *. rewrite walk_in_app, W.
  destruct (endswith_sep p); simpl.
  - unfold is_dir in D. rewrite D. unfold step. simpl. unfold occupied, is_dir.
    now rewrite D.
  - unfold occupied. now rewrite D.
Qed.

Lemma path_exists_made_same p w :
  p <> EmptyString -> walk w [] (names p) = Found (locate p) -> path_exists (made p w) p = true.
Proof. intros E W. apply is_folder_exists. now apply is_folder_made_same. Qed.

Lemma path_exists_made p q w : path_exists w q = true -> path_exists (made p w) q = true.
Proof. apply grows_fs_le, grows_made. Qed.

Lemma is_folder_locate w p :
  is_folder w p = true ->
  p <> EmptyString /\ walk w [] (names p) = Found (locate p) /\ is_dir w (locate p) = true.
Proof.
  unfold is_folder. destruct (String.eqb p EmptyString) eqn:E; [discriminate|].
  apply String.eqb_neq in E.
  destruct (walk w [] (names p)) as [n| |] eqn:W; try discriminate. intro D.
  destruct (walk_in_found _ _ _ _ W) as [-> _]. repeat split; assumption.
Qed.

Lemma is_folder_same w w' p :
  dirs w' = dirs w -> is_folder w p = true -> is_folder w' p = true.
Proof.
  intros D H. destruct (is_folder_locate _ _ H) as (E & W & I).
  unfold is_folder. apply String.eqb_neq in E. rewrite E.
  unfold walk, is_dir in *. rewrite D.
  rewrite (@walk_in_more _ (dirs w) _ (files w') _ _ _ (fun x H => H) W). exact I.
Qed.

(** A folder that was just made is there and empty of folders. *)
Lemma new_folder_made p w w' : os_mkdir p w = (Ret tt, w') -> new_folder w' p.
Proof.
  intro H. apply os_mkdir_inv in H as (-> & E & W & O). split.
  - now apply is_folder_made_same.
  - intro c. rewrite (@is_dir_made _ _ _ W).
    apply orb_false_iff. split.
    + destruct (is_dir w (locate p ++ [c])) eqn:D; [|reflexivity].
      apply is_dir_in_up in D. unfold occupied, is_dir in O. now rewrite D in O.
    + destruct (place_eqb (locate p ++ [c]) (locate p)) eqn:Q; [|reflexivity].
      apply place_eqb_eq in Q. apply (f_equal (@List.length string)) in Q.
      rewrite length_app in Q. simpl in Q. lia.
Qed.

Lemma new_folder_same w w' p : dirs w' = dirs w -> new_folder w p -> new_folder w' p.
Proof.
  intros D [F N]. split; [now apply (@is_folder_same w w' p D)|].
  intro c. unfold is_dir. rewrite D. apply N.
Qed.

(* ------------------------------------------------------------------ *)
(** *** A plain name inside a folder *)

Lemma append_empty (s : string) : s ++ EmptyString = s.
Proof. induction s as [|c s IH]; simpl; [reflexivity | now rewrite IH]. Qed.

Lemma append_assoc' (a b c : string) : (a ++ b) ++ c = a ++ (b ++ c).
Proof. induction a as [|x a IH]; simpl; [reflexivity | now rewrite IH]. Qed.

Lemma names_from_sep (acc a b : string) :
  names_from acc (a ++ String "/" b) = (names_from acc a ++ names_from EmptyString b)%list.
Proof.
  revert acc. induction a as [|c a IH]; intro acc; simpl; [reflexivity|].
  destruct (Ascii.eqb c "/"); [|apply IH].
  rewrite IH. now rewrite app_assoc.
Qed.

Lemma names_from_plain (acc b : string) :
  has_sep b = false ->
  names_from acc b = if String.eqb (acc ++ b) EmptyString then [] else [acc ++ b].
Proof.
  revert acc. induction b as [|c b IH]; intros acc H; simpl in *.
  - now rewrite append_empty.
  - destruct (Ascii.eqb c "/"); [discriminate|].
    rewrite IH by exact H. now rewrite append_assoc'.
Qed.

Lemma plain_name_inv (s : string) :
  plain_name s = true -> s <> EmptyString /\ has_sep s = false /\ s <> "." /\ s <> "..".
Proof.
  unfold plain_name. rewrite negb_true_iff, !orb_false_iff, !String.eqb_neq. tauto.
Qed.

Lemma names_plain (s : string) : plain_name s = true -> names s = [s].
Proof.
  intro H. apply plain_name_inv in H as (E & S & _).
  unfold names. rewrite names_from_plain by exact S. simpl.
  apply String.eqb_neq in E. now rewrite E.
Qed.

Lemma endswith_sep_app (a b : string) : b <> EmptyString -> endswith_sep (a ++ b) = endswith_sep b.
Proof.
  intro N. induction a as [|c a IH]; simpl; [reflexivity|].
  destruct (a ++ b) eqn:E; [|exact IH].
  destruct a; simpl in E; [contradiction | discriminate].
Qed.

Lemma endswith_sep_no_sep (b : string) : has_sep b = false -> endswith_sep b = false.
Proof.
  induction b as [|c b IH]; simpl; [reflexivity|].
  destruct (Ascii.eqb c "/") eqn:C; [discriminate|]. intro H.
  destruct b; [reflexivity | now apply IH].
Qed.

Lemma endswith_sep_inv (a : string) : endswith_sep a = true -> exists a', a = a' ++ "/".
Proof.
  induction a as [|c a IH]; simpl; [discriminate|].
  destruct a as [|d a].
  - intro H. apply Ascii.eqb_eq in H. subst. now exists EmptyString.
  - intro H. destruct (IH H) as (a' & E). exists (String c a'). simpl. now rewrite E.
Qed.

Lemma startswith_sep_no_sep (b : string) : has_sep b = false -> startswith_sep b = false.
Proof.
  destruct b as [|c b]; [reflexivity|]. simpl.
  destruct (Ascii.eqb c "/") eqn:C; [discriminate|]. intros _.
  destruct c as [[] [] [] [] [] [] [] []]; try reflexivity. discriminate C.
Qed.

(** The parts of [os.path.join(folder, name)] for a plain name. *)
Lemma path_join_plain (folder name : string) :
  folder <> EmptyString -> plain_name name = true ->
  names (path_join folder name) = (names folder ++ [name])%list
  /\ endswith_sep (path_join folder name) = false
  /\ path_join folder name <> EmptyString.
Proof.
  intros F P. pose proof (names_plain _ P) as NP.
  apply plain_name_inv in P as (E & S & _).
  unfold path_join. rewrite (startswith_sep_no_sep _ S).
  apply String.eqb_neq in F. rewrite F. simpl.
  destruct (endswith_sep folder) eqn:T.
  - destruct (endswith_sep_inv _ T) as (a & ->). rewrite append_assoc'. simpl.
    unfold names in *. rewrite !names_from_sep. simpl. rewrite app_nil_r, NP.
    split; [reflexivity|]. split.
    + replace (a ++ String "/" name) with ((a ++ "/") ++ name)
        by (now rewrite append_assoc').
      rewrite endswith_sep_app by exact E. now apply endswith_sep_no_sep.
    + destruct a; discriminate.
  - unfold names in *. rewrite names_from_sep, NP.
    split; [reflexivity|]. split.
    + replace (folder ++ String "/" name) with ((folder ++ "/") ++ name)
        by (now rewrite append_assoc').
      rewrite endswith_sep_app by exact E. now apply endswith_sep_no_sep.
    + destruct folder; discriminate.
Qed.

Lemma step_plain (n : list string) (name : string) :
  plain_name name = true -> step n name = (n ++ [name])%list.
Proof.
  intro P. apply plain_name_inv in P as (_ & _ & D1 & D2).
  unfold step. apply String.eqb_neq in D1, D2. now rewrite D1, D2.
Qed.

Lemma locate_path_join (folder name : string) :
  folder <> EmptyString -> plain_name name = true ->
  locate (path_join folder name) = (locate folder ++ [name])%list.
Proof.
  intros F P. unfold locate.
  rewrite (proj1 (@path_join_plain folder name F P)), fold_left_app. simpl.
  now apply step_plain.
Qed.

(** Inside a folder that is there, a plain name that is no folder can be
    written. *)
Lemma append_file_in_folder (folder name text : string) (w : World) :
  is_folder w folder = true ->
  is_dir w (locate folder ++ [name]) = false ->
  plain_name name = true ->
  append_file (path_join folder name) text w
  = (Ret tt, wrote (path_join folder name) text w).
Proof.
  intros F N P. destruct (is_folder_locate _ _ F) as (E & W & D).
  destruct (@path_join_plain folder name E P) as (Nm & T & Ne).
  unfold append_file. apply String.eqb_neq in Ne. rewrite Ne, Nm, T.
  unfold walk, is_dir in *. rewrite walk_in_app, W. simpl.
  rewrite D, (@step_plain _ name P), N. reflexivity.
Qed.

Lemma append_file_new_folder (folder name text : string) (w : World) :
  new_folder w folder -> plain_name name = true ->
  append_file (path_join folder name) text w
  = (Ret tt, wrote (path_join folder name) text w).
Proof. intros [F N] P. now apply append_file_in_folder. Qed.

(** What [os.path.exists] says of a file that was just written. *)
Lemma path_exists_wrote (folder name text : string) (w : World) :
  is_folder w folder = true -> plain_name name = true ->
  path_exists (wrote (path_join folder name) text w) (path_join folder name) = true.
Proof.
  intros F P. destruct (is_folder_locate _ _ F) as (E & W & D).
  destruct (@path_join_plain folder name E P) as (Nm & T & Ne).
  unfold path_exists. apply String.eqb_neq in Ne. rewrite Ne.
  apply orb_true_iff. right.
  unfold parts. rewrite Nm, T, app_nil_r.
  unfold walk, wrote in *. simpl. rewrite walk_in_app.
  rewrite (@walk_in_more _ (dirs w) _ (append_to (path_join folder name) text (files w))
             _ _ _ (fun x H => H) W).
  simpl. unfold is_dir in D. rewrite D, (@step_plain _ name P).
  unfold occupied, is_file. simpl. rewrite is_file_append_to.
  rewrite (@locate_path_join folder name E P), place_eqb_refl.
  rewrite orb_true_r. apply orb_true_r.
Qed.

Lemma read_file_append_to (p text : string) (fs : list (string * string)) :
  read_file (append_to p text fs) p
  = Some (match read_file fs p with Some old => old ++ text | None => text end).
Proof.
  induction fs as [|[k v] fs IH]; simpl.
  - unfold same_file. now rewrite place_eqb_refl.
  - destruct (same_file p k) eqn:S; simpl; rewrite S; [reflexivity | exact IH].
Qed.


Lemma path_join_nonempty (a b : string) : a <> EmptyString -> path_join a b <> EmptyString.
Proof.
  intro A. unfold path_join. destruct (startswith_sep b) eqn:S.
  - destruct b; [discriminate S | discriminate].
  - destruct (orb (String.eqb a EmptyString) (endswith_sep a)); destruct a; try contradiction;
      discriminate.
Qed.

(* ================================================================== *)
(** ** Nothing the script does removes a path *)

Lemma fs_le_refl w : fs_le w w.
Proof. intros p H. exact H. Qed.

Lemma fs_le_trans w1 w2 w3 : fs_le w1 w2 -> fs_le w2 w3 -> fs_le w1 w3.
Proof. intros A B p H. apply B, A, H. Qed.

Lemma monotone_ret {A} (a : A) : monotone (ret a).
Proof. intros w. apply fs_le_refl. Qed.

Lemma monotone_raise {A} (e : Exn) : monotone (@raise A e).
Proof. intros w. apply fs_le_refl. Qed.

Lemma monotone_bind {A B} (m : M A) (k : A -> M B) :
  monotone m -> (forall a, monotone (k a)) -> monotone (bind m k).
Proof.
  intros Hm Hk w. unfold bind. specialize (Hm w).
  destruct (m w) as [[a|e|c] w'] eqn:E; simpl in *; try exact Hm.
  eapply fs_le_trans; [exact Hm | apply Hk].
Qed.

Lemma monotone_try {A} (m : M A) (h : Exn -> M A) :
  monotone m -> (forall e, monotone (h e)) -> monotone (try_except m h).
Proof.
  intros Hm Hh w. unfold try_except. specialize (Hm w).
  destruct (m w) as [[a|e|c] w'] eqn:E; simpl in *; try exact Hm.
  eapply fs_le_trans; [exact Hm | apply Hh].
Qed.

Lemma monotone_for_each {A} (l : list A) (body : A -> M unit) :
  (forall a, monotone (body a)) -> monotone (for_each l body).
Proof.
  intro Hb. induction l as [|x l IH]; simpl.
  - apply monotone_ret.
  - apply monotone_bind; [apply Hb | intros _; exact IH].
Qed.

Lemma monotone_answer {A} (r : Result A) : monotone (answer r).
Proof. destruct r; [apply monotone_ret | apply monotone_raise]. Qed.

Lemma monotone_emit e : monotone (emit e).
Proof. intros w p H. exact H. Qed.

Lemma monotone_visit i : monotone (visit i).
Proof. intros w p H. exact H. Qed.

Lemma monotone_logging lv msg : monotone (logging lv msg).
Proof. intros w p H. exact H. Qed.

Lemma monotone_drop_item id : monotone (drop_item id).
Proof. intros w p H. exact H. Qed.

Lemma monotone_os_path_exists p : monotone (os_path_exists p).
Proof. intros w. apply fs_le_refl. Qed.

Lemma monotone_os_mkdir p : monotone (os_mkdir p).
Proof.
  intros w. destruct (os_mkdir_world p w) as [E | [e E]]; rewrite E; simpl.
  - apply grows_fs_le, grows_made.
  - apply fs_le_refl.
Qed.

(** [open(p, "a")] has written the file or left the world as it was. *)
Lemma append_file_world p text w :
  append_file p text w = (Ret tt, wrote p text w)
  \/ exists e, append_file p text w = (Raise e, w).
Proof.
  unfold append_file.
  destruct (String.eqb p EmptyString); [right; eexists; reflexivity|].
  destruct (walk w [] (names p)) as [n| |]; try (right; eexists; reflexivity).
  destruct (orb (endswith_sep p) (is_dir w n)); [right; eexists; reflexivity | now left].
Qed.

Lemma monotone_append_file p text : monotone (append_file p text).
Proof.
  intros w. destruct (append_file_world p text w) as [E | [e E]]; rewrite E; simpl.
  - apply grows_fs_le, grows_wrote.
  - apply fs_le_refl.
Qed.

Lemma monotone_save_file dir f : monotone (save_file dir f).
Proof. intros w. apply grows_fs_le, grows_save_file. Qed.

Lemma monotone_add_item id it : monotone (add_item id it).
Proof. intros w p H. exact H. Qed.

Lemma monotone_content_get id : monotone (content_get id).
Proof.
  apply monotone_bind; [apply monotone_emit|]. intros _ w. apply fs_le_refl.
Qed.

Lemma monotone_cell_add c s : monotone (cell_add c s).
Proof. destruct c; first [apply monotone_ret | apply monotone_raise]. Qed.

Lemma monotone_cell_lower c : monotone (cell_lower c).
Proof. destruct c; first [apply monotone_ret | apply monotone_raise]. Qed.

Lemma monotone_os_path_join a c : monotone (os_path_join a c).
Proof. destruct c; first [apply monotone_ret | apply monotone_raise]. Qed.

Create HintDb mono discriminated.
#[local] Hint Resolve monotone_ret monotone_raise monotone_answer monotone_emit
  monotone_visit monotone_logging monotone_drop_item monotone_os_path_exists
  monotone_os_mkdir monotone_append_file monotone_save_file monotone_content_get
  monotone_cell_add monotone_cell_lower monotone_os_path_join monotone_add_item : mono.

(** Splits a computation along its binds, handlers, loops and branches. *)
Ltac mono :=
  repeat first
    [ progress intros
    | solve [auto with mono]
    | apply monotone_bind
    | apply monotone_try
    | apply monotone_for_each
    | match goal with
      | |- monotone (if ?b then _ else _) => destruct b
      | |- monotone (match ?x with _ => _ end) => destruct x
      | |- monotone (logging_info _) => apply monotone_logging
      | |- monotone (logging_error _) => apply monotone_logging
      end ].

Lemma monotone_delete_if_indicated row id it : monotone (delete_if_indicated row id it).
Proof. unfold delete_if_indicated, item_delete. mono. Qed.

Lemma monotone_write_error_json row id folder it reason :
  monotone (write_error_json row id folder it reason).
Proof. unfold write_error_json. mono. Qed.

Lemma monotone_archive_data row id folder it : monotone (archive_data row id folder it).
Proof. unfold archive_data, item_get_data. mono. Qed.

#[local] Hint Resolve monotone_delete_if_indicated monotone_write_error_json
  monotone_archive_data : mono.

Lemma monotone_dispatch row id folder : monotone (dispatch row id folder).
Proof.
  unfold dispatch, strategy_file, strategy_data_app, strategy_export_service,
    strategy_other_service, strategy_other_app, strategy_unsupported,
    item_download, item_export, exported_download, item_related_items,
    rel_item_download, item_resources_export.
  mono.
Qed.

Lemma monotone_enter_folder cfg row : monotone (enter_folder cfg row).
Proof. unfold enter_folder, join_cell. mono. Qed.

Lemma monotone_process_row cfg row : monotone (process_row cfg row).
Proof.
  unfold process_row. apply monotone_bind; [apply monotone_enter_folder|].
  intros [[f i]|]; [apply monotone_dispatch | apply monotone_ret].
Qed.

(* ================================================================== *)
(** ** Running binds forwards and backwards *)

Lemma bind_ret_inv {A B} (m : M A) (k : A -> M B) (w w' : World) (b : B) :
  bind m k w = (Ret b, w') ->
  exists a w1, m w = (Ret a, w1) /\ k a w1 = (Ret b, w').
Proof.
  unfold bind. destruct (m w) as [[a|e|c] w1]; intro H; try discriminate.
  exists a, w1. split; [reflexivity | exact H].
Qed.

Lemma for_each_cons_raise {A} (x : A) (l : list A) (body : A -> M unit) w w1 e :
  body x w = (Raise e, w1) -> for_each (x :: l) body w = (Raise e, w1).
Proof. intro H. simpl. unfold bind. now rewrite H. Qed.

Lemma for_each_cons_run {A} (x : A) (l : list A) (body : A -> M unit) w w1 :
  body x w = (Ret tt, w1) -> for_each (x :: l) body w = for_each l body w1.
Proof. intro H. simpl. unfold bind. now rewrite H. Qed.

(* ================================================================== *)
(** ** The folder gate *)

Lemma path_exists_same w w' p :
  dirs w = dirs w' -> files w = files w' -> path_exists w p = path_exists w' p.
Proof.
  intros D F. unfold path_exists, walk, occupied, is_dir, is_file. now rewrite D, F.
Qed.

Lemma path_exists_after_mkdir (p : string) (w w' : World) :
  os_mkdir p w = (Ret tt, w') -> path_exists w' p = true /\ w' = made p w.
Proof.
  intro H. apply os_mkdir_inv in H as (-> & E & W & _).
  split; [now apply path_exists_made_same | reflexivity].
Qed.

(** Lines 141-142 and 144-145: when the test and the [mkdir] go through,
    the folder is there. *)
Lemma ensure_dir (p : string) (w w' : World) :
  (if path_exists w p then ret tt else os_mkdir p) w = (Ret tt, w') ->
  path_exists w' p = true /\ fs_le w w'.
Proof.
  destruct (path_exists w p) eqn:E; intro H.
  - inversion H; subst. split; [exact E | apply fs_le_refl].
  - destruct (path_exists_after_mkdir _ _ H) as [P ->].
    split; [exact P | apply grows_fs_le, grows_made].
Qed.

Lemma row_skipped_mono cfg row w w' :
  fs_le w w' -> row_skipped cfg row w = true -> row_skipped cfg row w' = true.
Proof.
  intros L. unfold row_skipped.
  destruct (SourceItem_ArchiveFlag_Value row); try exact (fun H => H).
  destruct (String.eqb (lower s) archiveFlag); try exact (fun H => H).
  destruct (SourceItem_Owner row); try exact (fun H => H).
  destruct (SourceItem_Id row); try exact (fun H => H).
  rewrite !andb_true_iff. intros [A B]. split; apply L; assumption.
Qed.

(** When the gate returns, the row is one later sweeps pass over. *)
Lemma enter_folder_settles cfg row w w1 r :
  enter_folder cfg row w = (Ret r, w1) -> row_skipped cfg row w1 = true.
Proof.
  unfold enter_folder, row_skipped.
  destruct (SourceItem_ArchiveFlag_Value row) as [|s|z|b]; try discriminate;
    [intros _; reflexivity|].
  intro H. apply bind_ret_inv in H as (lowered & wa & H1 & H).
  inversion H1; subst; clear H1.
  destruct (String.eqb (lower s) archiveFlag); [|reflexivity].
  apply bind_ret_inv in H as (uf & wb & H1 & H).
  destruct (SourceItem_Owner row) as [|o| |]; try discriminate.
  inversion H1; subst; clear H1.
  apply bind_ret_inv in H as (there & wc & H1 & H).
  inversion H1; subst; clear H1.
  apply bind_ret_inv in H as ([] & wd & H1 & H).
  apply ensure_dir in H1 as (U & L1).
  apply bind_ret_inv in H as ([itf i] & we & H1 & H).
  destruct (SourceItem_Id row) as [|i'| |]; try discriminate.
  inversion H1; subst; clear H1.
  apply bind_ret_inv in H as (there & wf & H1 & H).
  inversion H1; subst; clear H1.
  assert (X : path_exists w1 (path_join (path_join (data_dmp cfg) o) i) = true
              /\ fs_le wf w1).
  { destruct (path_exists wf (path_join (path_join (data_dmp cfg) o) i)) eqn:E.
    - inversion H; subst. split; [exact E | apply fs_le_refl].
    - apply bind_ret_inv in H as ([] & wg & H1 & H). inversion H; subst; clear H.
      destruct (path_exists_after_mkdir _ _ H1) as [P ->]. split; [exact P|].
      apply grows_fs_le, grows_made. }
  destruct X as [X L2]. rewrite X, (L2 _ U). reflexivity.
Qed.

Lemma process_row_settles cfg row w w' :
  process_row cfg row w = (Ret tt, w') -> row_skipped cfg row w' = true.
Proof.
  unfold process_row. intro H. apply bind_ret_inv in H as (r & w1 & H1 & H).
  apply enter_folder_settles in H1.
  apply row_skipped_mono with (w := w1); [|exact H1].
  destruct r as [[f i]|].
  - replace w' with (snd (dispatch row i f w1)) by now rewrite H.
    apply monotone_dispatch.
  - inversion H; subst. apply fs_le_refl.
Qed.

(** A row that is passed over costs nothing. *)
Lemma row_skipped_runs cfg row w :
  row_skipped cfg row w = true -> process_row cfg row w = (Ret tt, w).
Proof.
  unfold row_skipped, process_row, enter_folder.
  destruct (SourceItem_ArchiveFlag_Value row) as [|s|z|b]; try discriminate;
    [intros _; reflexivity|].
  unfold bind at 2. simpl.
  destruct (String.eqb (lower s) archiveFlag); [|intros _; reflexivity].
  destruct (SourceItem_Owner row) as [|o| |]; try discriminate.
  destruct (SourceItem_Id row) as [|i| |]; try discriminate.
  rewrite andb_true_iff. intros [U I].
  unfold bind, os_path_join, os_path_exists, join_cell, ret; simpl.
  rewrite U. simpl. rewrite I. reflexivity.
Qed.

Lemma row_skipped_same cfg row w w' :
  dirs w = dirs w' -> files w = files w' ->
  row_skipped cfg row w = row_skipped cfg row w'.
Proof.
  intros D F. unfold row_skipped.
  destruct (SourceItem_ArchiveFlag_Value row); try reflexivity.
  destruct (String.eqb (lower s) archiveFlag); try reflexivity.
  destruct (SourceItem_Owner row); try reflexivity.
  destruct (SourceItem_Id row); try reflexivity.
  now rewrite !(@path_exists_same w w' _ D F).
Qed.

(* ================================================================== *)
(** ** Two sweeps over the same inventory *)

Lemma sweep_settles_rows cfg Inventory (l : list nat) (w w' : World) :
  for_each l (fun i => visit i ;; process_row cfg (read_row Inventory i)) w = (Ret tt, w') ->
  Forall (fun i => row_skipped cfg (read_row Inventory i) w' = true) l /\ fs_le w w'.
Proof.
  revert w. induction l as [|i l IH]; intros w H; simpl in H.
  - inversion H; subst. split; [constructor | apply fs_le_refl].
  - apply bind_ret_inv in H as ([] & w1 & H1 & H).
    apply bind_ret_inv in H1 as ([] & wv & Hv & H1).
    inversion Hv; subst; clear Hv.
    destruct (IH _ H) as [F L].
    pose proof (process_row_settles _ _ _ H1) as S.
    split.
    + constructor; [exact (row_skipped_mono _ _ L S) | exact F].
    + eapply fs_le_trans; [|exact L].
      replace w1 with (snd (process_row cfg (read_row Inventory i)
                              (mkWorld (dirs w) (files w) (portal w) (log w) (trace w)
                                       (visited w ++ [i])))) by now rewrite H1.
      intros p P. apply monotone_process_row. exact P.
Qed.

Lemma sweep_over_settled_rows cfg Inventory (l : list nat) (w : World) :
  Forall (fun i => row_skipped cfg (read_row Inventory i) w = true) l ->
  for_each l (fun i => visit i ;; process_row cfg (read_row Inventory i)) w
  = (Ret tt, mkWorld (dirs w) (files w) (portal w) (log w) (trace w) (visited w ++ l)).
Proof.
  revert w. induction l as [|i l IH]; intros w F; simpl.
  - rewrite app_nil_r. destruct w; reflexivity.
  - inversion F as [|? ? S F']; subst.
    unfold bind at 1. unfold bind at 1. simpl.
    rewrite row_skipped_runs.
    + rewrite IH; simpl.
      * rewrite <- app_assoc. reflexivity.
      * eapply Forall_impl; [|exact F']. intros j Hj.
        rewrite <- Hj. apply row_skipped_same; reflexivity.
    + rewrite <- S. apply row_skipped_same; reflexivity.
Qed.

(** When a sweep has run to its end, a second sweep over the same
    inventory and the same archive root (whatever the portal holds by then)
    runs to its end as well and makes no call: its trace of folder, file and
    portal events is the one it started with, and the archive root, the
    portal and the log are unchanged.  The reason is the state the first
    sweep leaves: every row it went through is one the loop body passes
    over, its flag being absent or another word, or both of its folders
    being there. *)
Lemma sweep_after_a_full_sweep_makes_no_call
  (cfg : Config) (Inventory : Sheet) (w1 w2 w3 : World) :
  sweep cfg Inventory w1 = (Ret tt, w2) ->
  same_archive w2 w3 ->
  Forall (fun i => row_skipped cfg (read_row Inventory i) w2 = true) (row_numbers Inventory)
  /\ exists w4,
       sweep cfg Inventory w3 = (Ret tt, w4)
       /\ trace w4 = trace w3
       /\ filter is_remote (trace w4) = filter is_remote (trace w3)
       /\ portal w4 = portal w3
       /\ same_archive w3 w4
       /\ log w4 = log w3.
Proof.
  unfold sweep. intros H [D F].
  destruct (sweep_settles_rows _ _ _ _ H) as [S _].
  split; [exact S|].
  eexists. split.
  - apply sweep_over_settled_rows.
    eapply Forall_impl; [|exact S]. intros i Hi. rewrite <- Hi.
    apply row_skipped_same; congruence.
  - simpl. repeat split; reflexivity.
Qed.

(* ================================================================== *)
(** ** A row whose item the portal does not have *)

Lemma content_get_run id w :
  content_get id w
  = (Ret (lookup id (portal w)), traced [EvGet id] w).
Proof. reflexivity. Qed.

(** Every strategy starts with [source.content.get] and does nothing more
    when that gives [None]. *)
Lemma dispatch_item_missing row id folder w :
  lookup id (portal w) = None ->
  dispatch row id folder w
  = (Ret tt, traced [EvGet id] w).
Proof.
  intro N. rewrite dispatch_classify.
  destruct (classify_cell (SourceItem_Type row)); simpl;
    unfold strategy_file, strategy_export_service, strategy_other_service,
      strategy_data_app, strategy_other_app, strategy_unsupported;
    unfold bind at 1; rewrite content_get_run, N; reflexivity.
Qed.


Lemma path_exists_traced evs w q : path_exists (traced evs w) q = path_exists w q.
Proof. reflexivity. Qed.

(** Lines 137-145 for a row whose flag matches and whose owner and id are
    text: the two folders, each tested and made. *)
Lemma enter_folder_flagged (cfg : Config) (row : Row) (w : World) (s o i : string) :
  SourceItem_ArchiveFlag_Value row = CStr s ->
  ci_equal s archiveFlag ->
  SourceItem_Owner row = CStr o ->
  SourceItem_Id row = CStr i ->
  let user_folder := path_join (data_dmp cfg) o in
  let item_folder := path_join user_folder i in
  enter_folder cfg row w
  = match (if path_exists w user_folder then ret tt else os_mkdir user_folder) w with
    | (Ret _, wf) =>
        if path_exists wf item_folder then (Ret None, wf)
        else match os_mkdir item_folder wf with
             | (Ret _, w1) => (Ret (Some (item_folder, i)), w1)
             | (Raise e, w1) => (Raise e, w1)
             | (Exit c, w1) => (Exit c, w1)
             end
    | (Raise e, wf) => (Raise e, wf)
    | (Exit c, wf) => (Exit c, wf)
    end.
Proof.
  intros Hf Hci Ho Hi uf itf.
  assert (Hl : String.eqb (lower s) archiveFlag = true).
  { apply String.eqb_eq. unfold ci_equal in Hci. now rewrite Hci. }
  unfold enter_folder. rewrite Hf, Ho, Hi.
  unfold bind at 1. simpl. rewrite Hl.
  unfold bind at 1. simpl. unfold bind at 1. simpl. fold uf.
  unfold bind at 1.
  destruct ((if path_exists w uf then ret tt else os_mkdir uf) w) as [[[]|e|c] wf];
    try reflexivity.
  unfold bind at 1. simpl. fold itf. unfold bind at 1. simpl.
  destruct (path_exists wf itf); [reflexivity|].
  unfold bind. destruct (os_mkdir itf wf) as [[[]|e|c] w1]; reflexivity.
Qed.

(** The steps of lines 137-145 for a row that was let in. *)
Lemma enter_folder_some_steps cfg row w w1 folder id :
  enter_folder cfg row w = (Ret (Some (folder, id)), w1) ->
  exists s o wf,
    SourceItem_ArchiveFlag_Value row = CStr s
    /\ String.eqb (lower s) archiveFlag = true
    /\ SourceItem_Owner row = CStr o
    /\ SourceItem_Id row = CStr id
    /\ folder = path_join (path_join (data_dmp cfg) o) id
    /\ (if path_exists w (path_join (data_dmp cfg) o) then ret tt
        else os_mkdir (path_join (data_dmp cfg) o)) w = (Ret tt, wf)
    /\ path_exists wf folder = false
    /\ os_mkdir folder wf = (Ret tt, w1).
Proof.
  intro H. unfold enter_folder in H.
  destruct (SourceItem_ArchiveFlag_Value row) as [|s|z|b] eqn:Ef; try discriminate.
  apply bind_ret_inv in H as (lowered & wa & H1 & H).
  inversion H1; subst; clear H1.
  destruct (String.eqb (lower s) archiveFlag) eqn:El; [|discriminate].
  apply bind_ret_inv in H as (uf & wb & H1 & H).
  destruct (SourceItem_Owner row) as [|o| |] eqn:Eo; try discriminate.
  inversion H1; subst; clear H1.
  apply bind_ret_inv in H as (there & wc & H1 & H).
  inversion H1; subst; clear H1.
  apply bind_ret_inv in H as ([] & wd & H1 & H).
  apply bind_ret_inv in H as ([itf i] & we & H2 & H).
  destruct (SourceItem_Id row) as [|i'| |] eqn:Eid; try discriminate.
  inversion H2; subst; clear H2.
  apply bind_ret_inv in H as (there & wf & H2 & H).
  inversion H2; subst; clear H2.
  destruct (path_exists wf (path_join (path_join (data_dmp cfg) o) i)) eqn:Ei;
    [discriminate|].
  apply bind_ret_inv in H as ([] & wg & H2 & H).
  inversion H; subst; clear H.
  exists s, o, wf. repeat split; try reflexivity; assumption.
Qed.

(** What the gate tells about a row it let in. *)
Lemma enter_folder_some_inv cfg row w w1 folder id :
  enter_folder cfg row w = (Ret (Some (folder, id)), w1) ->
  archive_flag_matches row
  /\ SourceItem_Id row = CStr id
  /\ (exists o, SourceItem_Owner row = CStr o
                /\ folder = path_join (path_join (data_dmp cfg) o) id)
  /\ path_exists w folder = false
  /\ path_exists w1 folder = true
  /\ portal w1 = portal w /\ files w1 = files w /\ log w1 = log w.
Proof.
  intro H.
  destruct (enter_folder_some_steps _ _ _ H) as (s & o & wf & Ef & El & Eo & Ei & -> & U & N & M).
  destruct (path_exists_after_mkdir _ _ M) as [P ->].
  assert (W : wf = w \/ wf = made (path_join (data_dmp cfg) o) w).
  { destruct (path_exists w (path_join (data_dmp cfg) o)).
    - left. now inversion U.
    - right. now destruct (path_exists_after_mkdir _ _ U). }
  split.
  { exists s. split; [exact Ef|]. apply String.eqb_eq in El.
    unfold ci_equal. now rewrite lower_archiveFlag. }
  split; [exact Ei|].
  split; [exists o; split; [exact Eo | reflexivity]|].
  split.
  { destruct W as [-> | ->]; [exact N|].
    destruct (path_exists w (path_join (path_join (data_dmp cfg) o) id)) eqn:X;
      [|reflexivity].
    rewrite (path_exists_made _ _ _ X) in N. discriminate. }
  split; [exact P|].
  destruct W as [-> | ->]; repeat split; reflexivity.
Qed.

(** The folder of a row that was let in is there, and nothing is in it
    that would be a folder. *)
Lemma enter_folder_new_folder cfg row w w1 folder id :
  enter_folder cfg row w = (Ret (Some (folder, id)), w1) -> new_folder w1 folder.
Proof.
  intro H.
  destruct (enter_folder_some_steps _ _ _ H) as (s & o & wf & _ & _ & _ & _ & _ & _ & _ & M).
  eapply new_folder_made. exact M.
Qed.

(** The gate never ends the process. *)
Lemma enter_folder_no_exit cfg row w c w1 : enter_folder cfg row w <> (Exit c, w1).
Proof.
  unfold enter_folder, bind, cell_lower, os_path_join, join_cell, os_path_exists, ret, raise.
  destruct (SourceItem_ArchiveFlag_Value row) as [|s|z|b]; try discriminate.
  destruct (String.eqb (lower s) archiveFlag); [|discriminate].
  destruct (SourceItem_Owner row) as [|o| |]; try discriminate.
  set (uf := path_join (data_dmp cfg) o).
  destruct (path_exists w uf).
  - destruct (SourceItem_Id row) as [|i| |]; try discriminate.
    simpl. destruct (path_exists w (path_join uf i)); [discriminate|].
    destruct (os_mkdir_world (path_join uf i) w) as [E | [e E]]; rewrite E; discriminate.
  - destruct (os_mkdir_world uf w) as [E | [e E]]; rewrite E; [|discriminate].
    destruct (SourceItem_Id row) as [|i| |]; try discriminate.
    simpl. destruct (path_exists (made uf w) (path_join uf i)); [discriminate|].
    destruct (os_mkdir_world (path_join uf i) (made uf w)) as [E' | [e E']];
      rewrite E'; discriminate.
Qed.

(** C9.  A row flagged for archiving whose folder is not there yet, whose
    folders [os.mkdir] does not refuse (the gate returns) and whose id the
    portal does not know: the row completes, the folder [data_dmp/owner/id]
    exists afterwards, nothing was written (no file event, the files of the
    world are the ones it had), and in every later world that still has
    what this one has the row is passed over without any effect. *)
Theorem C9_missing_item_leaves_marker_folder
  (cfg : Config) (row : Row) (w w1 : World) (s o i : string)
  (r : option (string * string)) :
  SourceItem_ArchiveFlag_Value row = CStr s ->
  ci_equal s archiveFlag ->
  SourceItem_Owner row = CStr o ->
  SourceItem_Id row = CStr i ->
  path_exists w (path_join (path_join (data_dmp cfg) o) i) = false ->
  enter_folder cfg row w = (Ret r, w1) ->
  lookup i (portal w) = None ->
  exists w' evs,
    process_row cfg row w = (Ret tt, w')
    /\ path_exists w' (path_join (path_join (data_dmp cfg) o) i) = true
    /\ trace w' = (trace w ++ evs)%list
    /\ flat_map written_path evs = []
    /\ filter is_remote evs = match r with Some _ => [EvGet i] | None => [] end
    /\ files w' = files w
    /\ forall w2, fs_le w' w2 -> process_row cfg row w2 = (Ret tt, w2).
Proof.
  intros Hf Hci Ho Hi Hne G Hnone.
  set (uf := path_join (data_dmp cfg) o) in *.
  set (itf := path_join uf i) in *.
  assert (Later : forall w', process_row cfg row w = (Ret tt, w') ->
                  forall w2, fs_le w' w2 -> process_row cfg row w2 = (Ret tt, w2)).
  { intros w' R w2 L. apply row_skipped_runs.
    eapply row_skipped_mono; [exact L|]. eapply process_row_settles; exact R. }
  assert (Run : exists w' evs, process_row cfg row w = (Ret tt, w')
                  /\ path_exists w' itf = true
                  /\ trace w' = (trace w ++ evs)%list
                  /\ flat_map written_path evs = []
                  /\ filter is_remote evs = match r with Some _ => [EvGet i] | None => [] end
                  /\ files w' = files w).
  { pose proof (enter_folder_settles _ _ _ G) as S.
    unfold row_skipped in S. rewrite Hf, Ho, Hi in S.
    replace (String.eqb (lower s) archiveFlag) with true in S
      by (symmetry; apply String.eqb_eq; unfold ci_equal in Hci; now rewrite Hci).
    apply andb_true_iff in S as [_ S]. fold uf itf in S.
    unfold process_row, bind. rewrite G.
    destruct r as [[folder id]|].
    - destruct (enter_folder_some_steps _ _ _ G)
        as (s' & o' & wf & _ & _ & Eo & Ei & -> & U & N & M).
      rewrite Ho in Eo. injection Eo as <-. rewrite Hi in Ei. injection Ei as <-.
      fold uf itf in U, N, M |- *.
      destruct (path_exists_after_mkdir _ _ M) as [_ ->].
      assert (P : portal (made itf wf) = portal w)
        by (destruct (enter_folder_some_inv _ _ _ G) as (_ & _ & _ & _ & _ & P & _);
            exact P).
      rewrite dispatch_item_missing by (rewrite P; exact Hnone).
      assert (W : wf = w \/ wf = made uf w).
      { destruct (path_exists w uf).
        - left. now inversion U.
        - right. now destruct (path_exists_after_mkdir _ _ U). }
      destruct W as [-> | ->].
      + exists (traced [EvGet i] (made itf w)), [EvMkdir itf; EvGet i].
        split; [reflexivity|]. rewrite path_exists_traced.
        split; [exact S|]. simpl. rewrite <- app_assoc. repeat split; reflexivity.
      + exists (traced [EvGet i] (made itf (made uf w))), [EvMkdir uf; EvMkdir itf; EvGet i].
        split; [reflexivity|]. rewrite path_exists_traced.
        split; [exact S|]. simpl. rewrite <- !app_assoc. repeat split; reflexivity.
    - (* the folder came into being with the folder of the owner *)
      rewrite (@enter_folder_flagged cfg row w s o i Hf Hci Ho Hi) in G.
      fold uf itf in G.
      destruct (path_exists w uf) eqn:Eu.
      + simpl in G. rewrite Hne in G.
        destruct (os_mkdir itf w) as [[[]|e|c] wx]; discriminate.
      + destruct (os_mkdir_world uf w) as [E | [e E]]; rewrite E in G; [|discriminate].
        destruct (path_exists (made uf w) itf) eqn:Ei.
        * injection G as <-.
          exists (made uf w), [EvMkdir uf]. repeat split; try reflexivity. exact Ei.
        * destruct (os_mkdir itf (made uf w)) as [[[]|e|c] wx]; discriminate. }
  destruct Run as (w' & evs & R & P & T & W & Q & F).
  exists w', evs. repeat split; try assumption. apply Later. exact R.
Qed.

(* ================================================================== *)
(** ** Frames *)

Section Frame.

Variable R : World -> World -> Prop.
Hypothesis R_refl : forall w, R w w.
Hypothesis R_trans : forall a b c, R a b -> R b c -> R a c.

Lemma keeps_ret {A} (a : A) : keeps R (ret a).
Proof. intro w. apply R_refl. Qed.

Lemma keeps_raise {A} (e : Exn) : keeps R (@raise A e).
Proof. intro w. apply R_refl. Qed.

Lemma keeps_sys_exit {A} (c : Z) : keeps R (@sys_exit A c).
Proof. intro w. apply R_refl. Qed.

Lemma keeps_answer {A} (r : Result A) : keeps R (answer r).
Proof. destruct r; [apply keeps_ret | apply keeps_raise]. Qed.

Lemma keeps_os_path_exists p : keeps R (os_path_exists p).
Proof. intro w. apply R_refl. Qed.

Lemma keeps_bind {A B} (m : M A) (k : A -> M B) :
  keeps R m -> (forall a, keeps R (k a)) -> keeps R (bind m k).
Proof.
  intros Hm Hk w. unfold bind. specialize (Hm w).
  destruct (m w) as [[a|e|c] w'] eqn:E; simpl in *; try exact Hm.
  eapply R_trans; [exact Hm | apply Hk].
Qed.

Lemma keeps_try {A} (m : M A) (h : Exn -> M A) :
  keeps R m -> (forall e, keeps R (h e)) -> keeps R (try_except m h).
Proof.
  intros Hm Hh w. unfold try_except. specialize (Hm w).
  destruct (m w) as [[a|e|c] w'] eqn:E; simpl in *; try exact Hm.
  eapply R_trans; [exact Hm | apply Hh].
Qed.

Lemma keeps_for_each {A} (l : list A) (body : A -> M unit) :
  (forall a, keeps R (body a)) -> keeps R (for_each l body).
Proof.
  intro Hb. induction l as [|x l IH]; simpl.
  - apply keeps_ret.
  - apply keeps_bind; [apply Hb | intros _; exact IH].
Qed.


End Frame.

(** Splits a computation along its binds, handlers, loops and branches;
    [refl] and [trans] are the two facts about the relation, the leaves are
    closed from the hint database [frame]. *)
Create HintDb frame discriminated.

Ltac frame refl trans :=
  repeat first
    [ progress intros
    | solve [auto with frame]
    | apply (@keeps_ret _ refl)
    | apply (@keeps_raise _ refl)
    | apply (@keeps_sys_exit _ refl)
    | apply (@keeps_answer _ refl)
    | apply (@keeps_os_path_exists _ refl)
    | apply (@keeps_bind _ trans)
    | apply (@keeps_try _ trans)
    | apply (@keeps_for_each _ refl trans)
    | match goal with
      | |- keeps _ (if ?b then _ else _) => destruct b
      | |- keeps _ (match ?x with _ => _ end) => destruct x
      | |- keeps _ (let (_, _) := ?x in _) => destruct x
      end ].

(** Unfolds a row down to the primitive effects, the delete step apart. *)
Ltac unfold_row :=
  unfold process_row, enter_folder, join_cell, dispatch,
    strategy_file, strategy_data_app, strategy_export_service,
    strategy_other_service, strategy_other_app, strategy_unsupported,
    write_error_json, archive_data,
    content_get, item_download, item_get_data, item_export, exported_download,
    item_related_items, rel_item_download, item_resources_export,
    os_path_join, cell_add, cell_lower, logging_info, logging_error.

(* ================================================================== *)
(** ** The delete step *)

Lemma no_delete_step_refl w : no_delete_step w w.
Proof.
  split; [reflexivity|]. split; [exists []; now rewrite app_nil_r|].
  exists []. split; [now rewrite app_nil_r | reflexivity].
Qed.

Lemma no_delete_step_trans w1 w2 w3 :
  no_delete_step w1 w2 -> no_delete_step w2 w3 -> no_delete_step w1 w3.
Proof.
  intros (P1 & (l1 & L1) & (e1 & T1 & D1)) (P2 & (l2 & L2) & (e2 & T2 & D2)).
  split; [congruence|]. split.
  - exists (l1 ++ l2)%list. rewrite L2, L1. now rewrite app_assoc.
  - exists (e1 ++ e2)%list. split.
    + rewrite T2, T1. now rewrite app_assoc.
    + rewrite filter_app, D1, D2. reflexivity.
Qed.

Lemma step_adding_nil w w' : step_adding [] w w' <-> no_delete_step w w'.
Proof.
  unfold step_adding, no_delete_step. rewrite app_nil_r. tauto.
Qed.

Lemma step_adding_trans a b w1 w2 w3 :
  step_adding a w1 w2 -> step_adding b w2 w3 -> step_adding (a ++ b) w1 w3.
Proof.
  intros (P1 & (l1 & L1) & (e1 & T1 & D1)) (P2 & (l2 & L2) & (e2 & T2 & D2)).
  split; [rewrite P2, P1; now rewrite app_assoc|]. split.
  - exists (l1 ++ l2)%list. rewrite L2, L1. now rewrite app_assoc.
  - exists (e1 ++ e2)%list. split.
    + rewrite T2, T1. now rewrite app_assoc.
    + rewrite filter_app, D1, D2. reflexivity.
Qed.

Lemma step_adding_after a w1 w2 w3 :
  step_adding a w1 w2 -> no_delete_step w2 w3 -> step_adding a w1 w3.
Proof.
  intros A B. apply step_adding_nil in B.
  rewrite <- (app_nil_r a). eapply step_adding_trans; eassumption.
Qed.

Lemma step_adding_before a w1 w2 w3 :
  no_delete_step w1 w2 -> step_adding a w2 w3 -> step_adding a w1 w3.
Proof.
  intros A B. apply step_adding_nil in A.
  change a with ([] ++ a)%list. eapply step_adding_trans; eassumption.
Qed.

Lemma lookup_app {A} (k : string) (l l' : list (string * A)) :
  lookup k (l ++ l') = match lookup k l with
                       | Some x => Some x
                       | None => lookup k l'
                       end.
Proof.
  induction l as [|[k' v] l IH]; simpl; [reflexivity|].
  destruct (String.eqb k k'); [reflexivity | exact IH].
Qed.

Lemma lookup_app_some {A} (k : string) (l l' : list (string * A)) (x : A) :
  lookup k l = Some x -> lookup k (l ++ l') = Some x.
Proof. intro H. now rewrite lookup_app, H. Qed.

Lemma no_delete_emit e w w' :
  is_delete e = false -> emit e w = (Ret tt, w') -> no_delete_step w w'.
Proof.
  intros N H. inversion H; subst; clear H.
  split; [reflexivity|]. split; [exists []; simpl; now rewrite app_nil_r|].
  exists [e]. split; [reflexivity|]. simpl. now rewrite N.
Qed.

Lemma no_delete_logging lv msg w : no_delete_step w (snd (logging lv msg w)).
Proof.
  split; [reflexivity|]. split; [exists [(lv, msg)]; reflexivity|].
  exists []. split; [simpl; now rewrite app_nil_r | reflexivity].
Qed.

Lemma no_delete_wrote p text w : no_delete_step w (wrote p text w).
Proof.
  split; [reflexivity|]. split; [exists []; simpl; now rewrite app_nil_r|].
  exists [EvWrite p text]. split; reflexivity.
Qed.

Lemma no_delete_append_file p text w : no_delete_step w (snd (append_file p text w)).
Proof.
  destruct (append_file_world p text w) as [E | [e E]]; rewrite E; simpl.
  - apply no_delete_wrote.
  - apply no_delete_step_refl.
Qed.

Lemma no_delete_save_file dir f w : no_delete_step w (snd (save_file dir f w)).
Proof.
  split; [reflexivity|]. split; [exists []; simpl; now rewrite app_nil_r|].
  eexists [_]. split; reflexivity.
Qed.

(** "delete, if indicated": what it does, case by case.  It always falls
    through; it calls [delete] once when the flag says so and not at all
    otherwise. *)
Lemma delete_if_indicated_spec (row : Row) (id : string) (it : Item) (w : World) :
  exists w',
    delete_if_indicated row id it w = (Ret tt, w')
    /\ trace w' = (trace w ++ (if delete_indicated row then [EvDelete id] else []))%list
    /\ portal w' = (if delete_indicated row
                    then match delete it with
                         | Returns true => remove_key id (portal w)
                         | _ => portal w
                         end
                    else portal w)
    /\ log w' = (log w ++ (if delete_indicated row
                           then match delete it with
                                | Raises _ => [(ERROR, (tab ++ "Error deleting id: " ++ id)%string)]
                                | _ => []
                                end
                           else []))%list
    /\ dirs w' = dirs w /\ files w' = files w.
Proof.
  unfold delete_if_indicated, delete_indicated.
  destruct (py_eq_str (SourceItem_DeleteFlag_Value row) deleteFlag).
  - unfold try_except, item_delete, bind, emit. simpl.
    destruct (delete it) as [[|]|e]; simpl; eexists;
      (split; [reflexivity|]); simpl; rewrite ?app_nil_r; repeat split; reflexivity.
  - eexists. split; [reflexivity|]. simpl. rewrite !app_nil_r. repeat split; reflexivity.
Qed.

Lemma quietly_ret {A} (a : A) w : quietly (ret a) w.
Proof. exists a, w. split; [reflexivity | apply no_delete_step_refl]. Qed.

Lemma quietly_bind {A B} (m : M A) (k : A -> M B) w :
  quietly m w ->
  (forall a w', m w = (Ret a, w') -> quietly (k a) w') ->
  quietly (bind m k) w.
Proof.
  intros (a & w1 & E & N) K. destruct (K a w1 E) as (b & w2 & E2 & N2).
  exists b, w2. split.
  - unfold bind. now rewrite E.
  - eapply no_delete_step_trans; eassumption.
Qed.

Lemma quietly_emit e w : is_delete e = false -> quietly (emit e) w.
Proof.
  intro N. eexists. eexists. split; [reflexivity|].
  eapply no_delete_emit; [exact N | reflexivity].
Qed.

Lemma quietly_logging lv msg w : quietly (logging lv msg) w.
Proof. eexists. eexists. split; [reflexivity | apply no_delete_logging]. Qed.

(** A write that goes through. *)
Lemma quietly_append_file p text w :
  append_file p text w = (Ret tt, wrote p text w) -> quietly (append_file p text) w.
Proof. intro E. eexists. eexists. split; [exact E | apply no_delete_wrote]. Qed.

Lemma quietly_save_file dir f w : quietly (save_file dir f) w.
Proof. eexists. eexists. split; [reflexivity | apply no_delete_save_file]. Qed.

Lemma quietly_answer {A} (r : Result A) w : returns r = true -> quietly (answer r) w.
Proof.
  destruct r as [a|e]; [|discriminate]. intros _. apply quietly_ret.
Qed.

Lemma quietly_fetch (ev : Event) (r : Result File) (dir : string) (w : World) :
  is_delete ev = false -> returns r = true ->
  quietly (emit ev ;; f <- answer r ;; save_file dir f) w.
Proof.
  intros N R. apply quietly_bind; [now apply quietly_emit|]. intros _ w1 _.
  apply quietly_bind; [now apply quietly_answer|]. intros f w2 _.
  apply quietly_save_file.
Qed.

Lemma quietly_content_get id w : quietly (content_get id) w.
Proof.
  unfold content_get. apply quietly_bind; [now apply quietly_emit|].
  intros _ w1 _. eexists. eexists. split; [reflexivity | apply no_delete_step_refl].
Qed.

Lemma quietly_for_each {A} (l : list A) (body : A -> M unit) w :
  (forall a w', In a l -> quietly (body a) w') -> quietly (for_each l body) w.
Proof.
  revert w. induction l as [|x l IH]; intros w H; simpl.
  - apply quietly_ret.
  - apply quietly_bind; [apply H; now left|]. intros _ w1 _.
    apply IH. intros a w' I. apply H. now right.
Qed.

(* ------------------------------------------------------------------ *)
(** *** The folders stay as the gate left them *)

Lemma same_dirs_refl w : same_dirs w w.
Proof. reflexivity. Qed.

Lemma same_dirs_trans a b c : same_dirs a b -> same_dirs b c -> same_dirs a c.
Proof. unfold same_dirs. congruence. Qed.

Lemma same_dirs_emit e : keeps same_dirs (emit e).
Proof. intro w. reflexivity. Qed.

Lemma same_dirs_logging lv msg : keeps same_dirs (logging lv msg).
Proof. intro w. reflexivity. Qed.

Lemma same_dirs_append_file p text : keeps same_dirs (append_file p text).
Proof.
  intro w. destruct (append_file_world p text w) as [E | [e E]]; rewrite E; reflexivity.
Qed.

Lemma same_dirs_save_file dir f : keeps same_dirs (save_file dir f).
Proof. intro w. reflexivity. Qed.

Lemma same_dirs_drop_item id : keeps same_dirs (drop_item id).
Proof. intro w. reflexivity. Qed.

Lemma same_dirs_add_item id it : keeps same_dirs (add_item id it).
Proof. intro w. reflexivity. Qed.

Lemma same_dirs_lookup_item id :
  keeps same_dirs (fun w => (Ret (lookup id (portal w)), w)).
Proof. intro w. reflexivity. Qed.

#[local] Hint Resolve same_dirs_emit same_dirs_logging same_dirs_append_file
  same_dirs_save_file same_dirs_drop_item same_dirs_add_item same_dirs_lookup_item : frame.

Lemma same_dirs_delete_if_indicated row id it :
  keeps same_dirs (delete_if_indicated row id it).
Proof.
  unfold delete_if_indicated, item_delete, logging_error.
  frame same_dirs_refl same_dirs_trans.
Qed.

#[local] Hint Resolve same_dirs_delete_if_indicated : frame.

(** Nothing after the gate makes a folder. *)
Lemma same_dirs_dispatch row id folder : keeps same_dirs (dispatch row id folder).
Proof. unfold_row. frame same_dirs_refl same_dirs_trans. Qed.

(** What was true of the new folder stays true while a computation that
    makes no folder runs. *)
Lemma new_folder_kept {A} (m : M A) (w w' : World) (a : Outcome A) (p : string) :
  keeps same_dirs m -> m w = (a, w') -> new_folder w p -> new_folder w' p.
Proof.
  intros K E N. apply (@new_folder_same w w' p); [|exact N].
  specialize (K w). rewrite E in K. exact K.
Qed.

Lemma known_type_names_plain (ty : string) :
  In ty all_known_types ->
  plain_name (ty ++ ".json") = true
  /\ plain_name (ty ++ "_error.json") = true
  /\ plain_name (ty ++ "_rel_services.json") = true.
Proof.
  intro H. unfold all_known_types in H.
  simpl in H.
  repeat (destruct H as [<-|H]; [repeat split; reflexivity|]). contradiction.
Qed.

Lemma classified_is_known (ty : string) :
  classify ty <> Unclassified -> In ty all_known_types.
Proof.
  intro H. destruct (in_dec string_dec ty all_known_types) as [I|N]; [exact I|].
  apply classify_unclassified in N. contradiction.
Qed.

(** Lines 162-168 and 228-234 when [get_data] returns, in the folder the
    gate made. *)
Lemma quietly_archive_data row id folder it ty w :
  SourceItem_Type row = CStr ty -> returns (get_data it) = true ->
  new_folder w folder -> plain_name (ty ++ ".json") = true ->
  quietly (archive_data row id folder it) w.
Proof.
  intros T R N P. unfold archive_data, item_get_data. rewrite T.
  apply quietly_bind.
  { apply quietly_bind; [now apply quietly_emit|]. intros _ w1 _.
    now apply quietly_answer. }
  intros text w1 E. apply quietly_bind; [apply quietly_ret|]. intros name w2 E2.
  injection E2 as <- <-.
  apply quietly_append_file. apply append_file_new_folder; [|exact P].
  eapply new_folder_kept; [|exact E|exact N].
  frame same_dirs_refl same_dirs_trans.
Qed.

Lemma archived_then_delete_step_pre added row id it w w1 w2 :
  no_delete_step w w1 -> archived_then_delete_step added row id it w1 w2 ->
  archived_then_delete_step added row id it w w2.
Proof.
  intros N (wm & N' & D). exists wm. split; [|exact D].
  eapply step_adding_before; eassumption.
Qed.

Section EndsWithDelete.

Variables (row : Row) (id : string) (it : Item).

Lemma ends_with_delete_here w :
  ends_with_delete [] row id it (delete_if_indicated row id it) w.
Proof.
  destruct (delete_if_indicated_spec row id it w) as (w2 & D & _).
  exists w2. split; [exact D|]. exists w.
  split; [apply step_adding_nil, no_delete_step_refl | exact D].
Qed.

Lemma ends_with_delete_bind {A} added (m : M A) (k : A -> M unit) w :
  quietly m w ->
  (forall a w', m w = (Ret a, w') -> ends_with_delete added row id it (k a) w') ->
  ends_with_delete added row id it (bind m k) w.
Proof.
  intros (a & w1 & E & N) K. destruct (K a w1 E) as (w2 & E2 & S).
  exists w2. split.
  - unfold bind. now rewrite E.
  - eapply archived_then_delete_step_pre; eassumption.
Qed.

(** A step that adds to the portal, and then the rest. *)
Lemma ends_with_delete_adding {A} added (m : M A) (k : A -> M unit) w a w1 :
  m w = (Ret a, w1) -> step_adding added w w1 ->
  ends_with_delete [] row id it (k a) w1 ->
  ends_with_delete added row id it (bind m k) w.
Proof.
  intros E N (w2 & E2 & wm & S & D).
  exists w2. split; [unfold bind; now rewrite E|].
  exists wm. split; [|exact D].
  eapply step_adding_after; [exact N | now apply step_adding_nil].
Qed.

Lemma ends_with_delete_try added (m : M unit) (h : Exn -> M unit) w :
  ends_with_delete added row id it m w ->
  ends_with_delete added row id it (try_except m h) w.
Proof.
  intros (w2 & E & S). exists w2. split; [|exact S].
  unfold try_except. now rewrite E.
Qed.

End EndsWithDelete.

(** What the delete step amounts to, seen from the world before the
    archival. *)
Lemma archived_then_delete_step_post added row id it w w2 :
  archived_then_delete_step added row id it w w2 ->
  lookup id (portal w) = Some it ->
  exists evs,
    trace w2 = (trace w ++ evs)%list
    /\ filter is_delete evs = (if delete_indicated row then [EvDelete id] else [])
    /\ (delete it = Returns true ->
        (lookup id (portal w2) = None <-> delete_indicated row = true))
    /\ (delete_indicated row = false ->
        portal w2 = (portal w ++ added)%list /\ lookup id (portal w2) = Some it)
    /\ (forall e, delete it = Raises e -> delete_indicated row = true ->
          portal w2 = (portal w ++ added)%list /\ lookup id (portal w2) = Some it
          /\ In (ERROR, tab ++ "Error deleting id: " ++ id) (log w2))
    /\ (delete it = Returns true -> delete_indicated row = true ->
        portal w2 = remove_key id (portal w ++ added)).
Proof.
  intros (wm & (P & (l & L) & (evs & T & F)) & D) Hit.
  destruct (delete_if_indicated_spec row id it wm) as (w2' & D' & T2 & P2 & L2 & _).
  rewrite D in D'. inversion D'; subst w2'; clear D'.
  assert (Hm : lookup id (portal wm) = Some it) by (rewrite P; now apply lookup_app_some).
  exists (evs ++ (if delete_indicated row then [EvDelete id] else []))%list.
  split; [rewrite T2, T; now rewrite app_assoc|].
  split.
  { rewrite filter_app, F. simpl. destruct (delete_indicated row); reflexivity. }
  split.
  { intro R. rewrite P2, R. destruct (delete_indicated row).
    - rewrite lookup_remove_key_same. split; reflexivity.
    - rewrite Hm. split; discriminate. }
  split.
  { intro N. rewrite P2, N. split; [exact P | exact Hm]. }
  split.
  { intros e R Y. rewrite P2, L2, Y, R. split; [exact P|]. split; [exact Hm|].
    apply in_or_app. right. now left. }
  intros R Y. rewrite P2, Y, R, P. reflexivity.
Qed.

(** An export that returns: the portal has taken in the exported item. *)
Lemma item_export_run id it exported w :
  export it = Returns exported ->
  exists w1,
    item_export id it w = (Ret exported, w1)
    /\ step_adding [(exp_id exported, exp_item exported)] w w1
    /\ dirs w1 = dirs w /\ files w1 = files w.
Proof.
  intro X. unfold item_export, bind, emit, add_item. simpl. rewrite X. simpl.
  eexists. split; [reflexivity|]. simpl. repeat split.
  - exists []. now rewrite app_nil_r.
  - exists [EvExport id]. split; reflexivity.
Qed.

(** Each of the four strategies that has a delete step, for an item that
    is found and whose archival goes through, in the folder the gate
    made. *)
Lemma strategy_ends_with_delete (row : Row) (id folder ty : string) (it : Item) (w : World) :
  SourceItem_Type row = CStr ty ->
  lookup id (portal w) = Some it ->
  archival_succeeds ty it = true ->
  new_folder w folder ->
  ends_with_delete (created ty it) row id it (dispatch row id folder) w.
Proof.
  intros T L A NF. rewrite dispatch_classify, T. simpl.
  unfold archival_succeeds in A. unfold created.
  assert (PN : classify ty <> Unclassified -> plain_name (ty ++ ".json") = true
                 /\ plain_name (ty ++ "_rel_services.json") = true).
  { intro H. apply classified_is_known, known_type_names_plain in H. tauto. }
  destruct (classify ty) eqn:C; try discriminate; simpl.
  - (* FileAsset *)
    unfold strategy_file.
    apply ends_with_delete_bind; [apply quietly_content_get|].
    intros si ? G. rewrite content_get_run in G. inversion G; subst; clear G.
    rewrite L. apply ends_with_delete_bind; [|intros; apply ends_with_delete_here].
    unfold item_download. now apply quietly_fetch.
  - (* ExportableService *)
    unfold strategy_export_service.
    apply ends_with_delete_bind; [apply quietly_content_get|].
    intros si ? G. rewrite content_get_run in G. inversion G; subst; clear G.
    rewrite L. apply ends_with_delete_try.
    unfold created_by_export.
    destruct (export it) as [ex|e] eqn:X; [|discriminate].
    match goal with |- ends_with_delete _ _ _ _ _ ?w0 =>
      destruct (@item_export_run id it ex w0 X) as (wx & Ex & Sx & _) end.
    eapply ends_with_delete_adding; [exact Ex | exact Sx|].
    apply ends_with_delete_bind; [apply quietly_logging|]. intros _ ? _.
    apply ends_with_delete_bind; [apply quietly_logging|]. intros _ ? _.
    apply ends_with_delete_bind; [unfold exported_download; now apply quietly_fetch|].
    intros _ ? _.
    apply ends_with_delete_bind; [apply quietly_logging|]. intros _ ? _.
    apply ends_with_delete_here.
  - (* DataApplication *)
    unfold strategy_data_app.
    apply ends_with_delete_bind; [apply quietly_content_get|].
    intros si ? G. rewrite content_get_run in G. inversion G; subst; clear G.
    rewrite L. apply ends_with_delete_bind; [|intros; apply ends_with_delete_here].
    assert (NF1 : new_folder (traced [EvGet id] w) folder)
      by (apply (@new_folder_same w _ folder); [reflexivity | exact NF]).
    apply (@quietly_archive_data row id folder it ty _ T A NF1). apply PN. discriminate.
  - (* OtherApplication *)
    apply andb_true_iff in A as [A1 A2].
    destruct PN as [PN1 PN2]; [discriminate|].
    unfold strategy_other_app.
    apply ends_with_delete_bind; [apply quietly_content_get|].
    intros si ? G. rewrite content_get_run in G. inversion G; subst; clear G.
    rewrite L.
    assert (NF1 : new_folder (traced [EvGet id] w) folder)
      by (apply (@new_folder_same w _ folder); [reflexivity | exact NF]).
    apply ends_with_delete_bind;
      [exact (@quietly_archive_data row id folder it ty _ T A1 NF1 PN1)|].
    intros [] wa Ea.
    assert (NFa : new_folder wa folder).
    { eapply new_folder_kept; [|exact Ea|exact NF1].
      unfold archive_data, item_get_data, cell_add.
      frame same_dirs_refl same_dirs_trans. }
    apply ends_with_delete_bind; [|intros; apply ends_with_delete_here].
    rewrite T. unfold py_eq_str.
    destruct (String.eqb ty "Form").
    + apply andb_true_iff in A2 as [A2 A3].
      destruct (related_data it) as [l|e] eqn:RD; [|discriminate].
      apply quietly_bind.
      { unfold item_related_items. simpl.
        apply quietly_bind; [now apply quietly_emit|]. intros _ ? _.
        apply quietly_answer. now rewrite RD. }
      intros l' wb G. pose proof G as Eb. unfold item_related_items in G. simpl in G.
      apply bind_ret_inv in G as ([] & wa' & _ & G). rewrite RD in G.
      inversion G; subst; clear G.
      apply quietly_bind.
      { apply quietly_for_each. intros r ? I.
        apply quietly_bind; [|intros; apply quietly_ret].
        unfold rel_item_download. apply quietly_fetch; [reflexivity|].
        rewrite forallb_forall in A2. now apply A2. }
      intros [] wc Ec.
      apply quietly_bind.
      { unfold item_related_items. simpl.
        apply quietly_bind; [now apply quietly_emit|]. intros _ ? _.
        now apply quietly_answer. }
      intros svc wd Ed.
      apply quietly_bind; [apply quietly_ret|]. intros name ? En.
      injection En as <- <-.
      apply quietly_append_file. apply append_file_new_folder; [|exact PN2].
      eapply new_folder_kept; [|exact Ed|].
      { unfold item_related_items. frame same_dirs_refl same_dirs_trans. }
      eapply new_folder_kept; [|exact Ec|].
      { unfold rel_item_download. frame same_dirs_refl same_dirs_trans. }
      eapply new_folder_kept; [|exact Eb|exact NFa].
      unfold item_related_items. frame same_dirs_refl same_dirs_trans.
    + apply quietly_bind; [|intros; apply quietly_ret].
      unfold item_resources_export. now apply quietly_fetch.
Qed.

Lemma delete_indicated_exact (row : Row) :
  delete_indicated row = true <-> SourceItem_DeleteFlag_Value row = CStr deleteFlag.
Proof.
  unfold delete_indicated, py_eq_str.
  destruct (SourceItem_DeleteFlag_Value row) as [|s| |]; try (split; discriminate).
  rewrite String.eqb_eq. split; [now intros -> | now intros [= ->]].
Qed.

Lemma process_row_entered cfg row w w1 folder id :
  enter_folder cfg row w = (Ret (Some (folder, id)), w1) ->
  process_row cfg row w = dispatch row id folder w1.
Proof. intro H. unfold process_row, bind. now rewrite H. Qed.

(** C6.  A row that entered its folder, whose item is found and whose
    archival step (of class FileAsset, ExportableService, DataApplication or
    OtherApplication) goes through: the row falls through; [delete] is
    called on the item exactly once when the delete flag cell is exactly the
    text of the token and not at all otherwise; when the call returns
    [True], the item is gone from the portal exactly when the flag matches,
    and nothing else is; when the call raises, the exception is caught, the
    item is still in the portal, the error is logged and no second call is
    made.  Apart from the deleted item the portal is the one the row found,
    with the item the export created at its end. *)
Theorem C6_delete_exactly_when_flagged
  (cfg : Config) (row : Row) (w w1 : World) (folder id ty : string) (it : Item) :
  enter_folder cfg row w = (Ret (Some (folder, id)), w1) ->
  SourceItem_Type row = CStr ty ->
  lookup id (portal w1) = Some it ->
  archival_succeeds ty it = true ->
  exists w2 evs,
    process_row cfg row w = (Ret tt, w2)
    /\ trace w2 = (trace w1 ++ evs)%list
    /\ filter is_delete evs = (if delete_indicated row then [EvDelete id] else [])
    /\ (delete_indicated row = true <-> SourceItem_DeleteFlag_Value row = CStr deleteFlag)
    /\ (delete it = Returns true ->
        (lookup id (portal w2) = None <-> SourceItem_DeleteFlag_Value row = CStr deleteFlag))
    /\ (delete_indicated row = false ->
        portal w2 = (portal w1 ++ created ty it)%list /\ lookup id (portal w2) = Some it)
    /\ (forall e, delete it = Raises e -> delete_indicated row = true ->
          portal w2 = (portal w1 ++ created ty it)%list
          /\ lookup id (portal w2) = Some it
          /\ In (ERROR, tab ++ "Error deleting id: " ++ id) (log w2))
    /\ (delete it = Returns true -> delete_indicated row = true ->
        portal w2 = remove_key id (portal w1 ++ created ty it)).
Proof.
  intros E T L A.
  pose proof (enter_folder_new_folder _ _ _ E) as NF.
  destruct (@strategy_ends_with_delete row id folder ty it w1 T L A NF) as (w2 & R & S).
  destruct (archived_then_delete_step_post S L) as (evs & Tr & F & P1 & P2 & P3 & P4).
  exists w2, evs.
  split; [rewrite (process_row_entered _ _ _ E); exact R|].
  split; [exact Tr|]. split; [exact F|].
  split; [apply delete_indicated_exact|].
  split; [intro D; rewrite <- delete_indicated_exact; now apply P1|].
  repeat split; try assumption; try (now apply P2); try (now apply (P3 e)).
Qed.

(* ================================================================== *)
(** ** A failed export *)

Lemma prefix_append (a b : string) : String.prefix a (a ++ b) = true.
Proof.
  induction a as [|c a IH]; simpl; [destruct b; reflexivity|].
  destruct (ascii_dec c c); [exact IH | congruence].
Qed.

(** A file named by a relative name lands under the folder. *)
Lemma path_join_under (folder name : string) :
  startswith_sep name = false -> String.prefix folder (path_join folder name) = true.
Proof.
  intro N. unfold path_join. rewrite N.
  destruct (orb (String.eqb folder EmptyString) (endswith_sep folder));
    apply prefix_append.
Qed.

(** The error record, written into the folder the gate made. *)
Lemma write_error_json_run row id folder it reason ty w :
  SourceItem_Type row = CStr ty ->
  new_folder w folder ->
  plain_name (ty ++ "_error.json") = true ->
  write_error_json row id folder it reason w
  = (Ret tt, wrote (path_join folder (ty ++ "_error.json"))
                   (dumps_indent 4 (error_data it id reason)) w).
Proof.
  intros T N P. unfold write_error_json, cell_add. rewrite T.
  unfold bind, ret. now apply append_file_new_folder.
Qed.

Lemma try_except_raise {A} (body : M A) (handler : Exn -> M A) w e w' :
  body w = (Raise e, w') -> try_except body handler w = handler e w'.
Proof. intro H. unfold try_except. now rewrite H. Qed.

Lemma try_except_ret {A} (body : M A) (handler : Exn -> M A) w a w' :
  body w = (Ret a, w') -> try_except body handler w = (Ret a, w').
Proof. intro H. unfold try_except. now rewrite H. Qed.

(** The export branch for an item whose export, or the download of what
    it exported, raises: the handler writes the error record. *)
Lemma strategy_export_service_fails row id folder ty it e w :
  SourceItem_Type row = CStr ty ->
  plain_name (ty ++ "_error.json") = true ->
  lookup id (portal w) = Some it ->
  export_fails it e ->
  new_folder w folder ->
  exists wm evs,
    strategy_export_service row id folder w
    = (Ret tt, wrote (path_join folder (ty ++ "_error.json"))
                     (dumps_indent 4 (error_data it id (exn_msg e))) wm)
    /\ dirs wm = dirs w /\ files wm = files w
    /\ portal wm = (portal w ++ created_by_export it)%list
    /\ trace wm = (trace w ++ evs)%list
    /\ flat_map written_path evs = []
    /\ filter is_delete evs = []
    /\ (exists l, log wm = (log w ++ l)%list).
Proof.
  intros T P L X NF.
  unfold strategy_export_service. unfold bind at 1. rewrite content_get_run, L.
  match goal with |- context [try_except ?b ?h] =>
    assert (B : exists wb evs,
              b (traced [EvGet id] w) = (Raise e, wb)
              /\ dirs wb = dirs w /\ files wb = files w
              /\ portal wb = (portal w ++ created_by_export it)%list
              /\ trace wb = (trace w ++ evs)%list
              /\ flat_map written_path evs = []
              /\ filter is_delete evs = []
              /\ (exists l, log wb = (log w ++ l)%list))
  end.
  { unfold created_by_export. destruct X as [X | (ex & X1 & X2)].
    - unfold item_export, bind, emit. simpl. rewrite X. simpl.
      eexists. exists [EvGet id; EvExport id]. split; [reflexivity|]. simpl.
      rewrite <- app_assoc, app_nil_r. repeat split. exists []. now rewrite app_nil_r.
    - unfold item_export, exported_download, bind, emit, add_item, logging_info, logging.
      simpl. rewrite X1. simpl. rewrite X2. simpl.
      eexists. exists [EvGet id; EvExport id; EvExportedDownload (exp_id ex) folder].
      split; [reflexivity|]. simpl. rewrite <- !app_assoc.
      repeat split. eexists. reflexivity. }
  destruct B as (wb & evs & B & D & F & Po & Tr & W & De & (l & Lg)).
  rewrite (@try_except_raise _ _ _ _ _ _ B).
  unfold bind at 1. unfold logging_error at 1, logging at 1.
  unfold bind at 1. unfold logging_error at 1, logging at 1.
  rewrite (@write_error_json_run row id folder it (exn_msg e) ty _ T).
  - eexists. exists evs. split; [reflexivity|]. simpl.
    repeat split; try assumption.
    exists (l ++ [(ERROR, (tab ++ "Error exporting " ++ title it)%string);
                  (ERROR, (tab ++ exn_msg e)%string)])%list.
    rewrite Lg, <- !app_assoc. reflexivity.
  - apply (@new_folder_same w _ folder); [exact D | exact NF].
  - exact P.
Qed.

Lemma read_file_none (fs : list (string * string)) (p : string) :
  (forall q, In q fs -> locate (fst q) <> locate p) -> read_file fs p = None.
Proof.
  induction fs as [|[k v] fs IH]; intro H; simpl; [reflexivity|].
  unfold same_file. destruct (place_eqb (locate p) (locate k)) eqn:Q.
  - apply place_eqb_eq in Q. exfalso. apply (H (k, v)); [now left | now symmetry].
  - apply IH. intros q I. apply H. now right.
Qed.

(** The folder the gate has just made holds no file, in a tree where every
    file lies in a folder. *)
Lemma fresh_folder_holds_no_file cfg row w w1 folder id name :
  enter_folder cfg row w = (Ret (Some (folder, id)), w1) ->
  files_in_folders w ->
  plain_name name = true ->
  read_file (files w1) (path_join folder name) = None.
Proof.
  intros E WF P.
  destruct (enter_folder_some_steps _ _ _ E)
    as (s & o & wf & _ & _ & _ & _ & _ & U & _ & M).
  destruct (enter_folder_some_inv _ _ _ E) as (_ & _ & _ & _ & _ & _ & F & _).
  apply os_mkdir_inv in M as (_ & Ne & _ & O).
  assert (G : forall n, is_dir w n = true -> is_dir wf n = true).
  { destruct (path_exists w (path_join (data_dmp cfg) o)).
    - inversion U; subst. auto.
    - apply os_mkdir_inv in U as (-> & _). apply (grows_made _ w). }
  assert (D : is_dir w (locate folder) = false).
  { destruct (is_dir w (locate folder)) eqn:D; [|reflexivity].
    apply G in D. unfold occupied in O. now rewrite D in O. }
  rewrite F. apply read_file_none. intros q I Q.
  rewrite (@locate_path_join folder name Ne P) in Q.
  pose proof (WF q I) as K. rewrite Q, removelast_last in K. congruence.
Qed.

(** C3.  A row that entered its folder, whose declared type is in the
    export-capable set and whose item is found: when the export, or the
    download of what was exported, raises [e], the row falls through and
    whatever follows it in the loop runs.  Exactly one file was written,
    [<type>_error.json] under the folder of the item: it is there
    afterwards and holds the document with the three fields [itemname],
    [itemid] and [download_error], the last being [str(e)] (after what the
    file held before, should there have been one: it is opened for
    appending; in a tree where every file lies in a folder there was none,
    the folder being new, and the file holds the document alone); no other
    file changed.  No [delete] was called, whatever
    the delete flag says: the item is still in the portal, which is as it
    was but for the item an export that returned has created. *)
Theorem C3_failed_export_leaves_error_file
  (cfg : Config) (row : Row) (w w1 : World) (folder id ty : string) (it : Item) (e : Exn) :
  enter_folder cfg row w = (Ret (Some (folder, id)), w1) ->
  SourceItem_Type row = CStr ty ->
  In ty lst_export_services ->
  lookup id (portal w1) = Some it ->
  export_fails it e ->
  let target := path_join folder (ty ++ "_error.json") in
  let doc := dumps_indent 4 (JObj [("itemname", JStr (title it));
                                   ("itemid", JStr id);
                                   ("download_error", JStr (exn_msg e))]) in
  exists w2 evs,
    process_row cfg row w = (Ret tt, w2)
    /\ (forall (B : Type) (rest : unit -> M B),
          bind (process_row cfg row) rest w = rest tt w2)
    /\ trace w2 = (trace w1 ++ evs)%list
    /\ flat_map written_path evs = [target]
    /\ String.prefix folder target = true
    /\ In (EvWrite target doc) evs
    /\ files w2 = append_to target doc (files w1)
    /\ path_exists w2 target = true
    /\ read_file (files w2) target
       = Some (match read_file (files w1) target with
               | Some old => old ++ doc
               | None => doc
               end)
    /\ (files_in_folders w -> read_file (files w2) target = Some doc)
    /\ filter is_delete evs = []
    /\ portal w2 = (portal w1 ++ created_by_export it)%list
    /\ lookup id (portal w2) = Some it.
Proof.
  intros E T I L X target doc.
  assert (P : plain_name (ty ++ "_error.json") = true)
    by (simpl in I; destruct I as [<-|[]]; reflexivity).
  assert (U : String.prefix folder target = true).
  { apply path_join_under. simpl in I. destruct I as [<-|[]]. reflexivity. }
  assert (C : classify ty = ExportableService) by now apply classify_export.
  pose proof (enter_folder_new_folder _ _ _ E) as NF.
  destruct (@strategy_export_service_fails row id folder ty it e w1 T P L X NF)
    as (wm & evs & R & D & F & Po & Tr & W & De & _).
  fold target in R. change (error_data it id (exn_msg e)) with
    (JObj [("itemname", JStr (title it)); ("itemid", JStr id);
           ("download_error", JStr (exn_msg e))]) in R. fold doc in R.
  assert (R' : process_row cfg row w = (Ret tt, wrote target doc wm)).
  { rewrite (process_row_entered _ _ _ E), dispatch_classify, T. simpl. rewrite C.
    exact R. }
  exists (wrote target doc wm), (evs ++ [EvWrite target doc])%list.
  split; [exact R'|].
  split; [intros B rest; unfold bind; now rewrite R'|].
  split; [simpl; rewrite Tr; now rewrite app_assoc|].
  split; [rewrite flat_map_app, W; reflexivity|].
  split; [exact U|].
  split; [apply in_or_app; right; now left|].
  split; [simpl; now rewrite F|].
  split.
  { unfold target. apply path_exists_wrote; [|exact P].
    apply (@is_folder_same w1 wm folder D). apply NF. }
  split; [simpl; rewrite F; apply read_file_append_to|].
  split.
  { intro WF. simpl. rewrite F, read_file_append_to. unfold target.
    now rewrite (@fresh_folder_holds_no_file cfg row w w1 folder id _ E WF P). }
  split; [rewrite filter_app, De; reflexivity|].
  split; [exact Po|].
  simpl. rewrite Po. now apply lookup_app_some.
Qed.

(* ================================================================== *)
(** ** The data document of an application *)

Lemma length_append (a b : string) :
  String.length (a ++ b) = String.length a + String.length b.
Proof. induction a as [|c a IH]; simpl; [reflexivity | now rewrite IH]. Qed.

Lemma escape_ascii_nonempty (c : ascii) : 1 <= String.length (escape_ascii c).
Proof.
  unfold escape_ascii.
  repeat match goal with |- context [if ?b then _ else _] => destruct b end;
    simpl; lia.
Qed.

Lemma escape_length (s : string) : String.length s <= String.length (escape s).
Proof.
  induction s as [|c s IH]; simpl; [lia|].
  rewrite length_append. pose proof (escape_ascii_nonempty c). lia.
Qed.

(** The JSON text of a text is longer than the text: [json.dump] of
    [json.dumps(v)] is never [json.dumps(v)]. *)
Lemma dumps_of_dumps_differs (v : json) : dumps (JStr (dumps v)) <> dumps v.
Proof.
  intro H. apply (f_equal String.length) in H.
  unfold dumps at 1 in H. simpl in H. unfold encode_str in H.
  rewrite !length_append in H. simpl in H.
  pose proof (escape_length (dumps v)). lia.
Qed.

(** Lines 162-168 and 228-234 when [get_data] returns, in the folder the
    gate made. *)
Lemma archive_data_run row id folder it ty data w :
  SourceItem_Type row = CStr ty ->
  get_data it = Returns data ->
  new_folder w folder ->
  plain_name (ty ++ ".json") = true ->
  archive_data row id folder it w
  = (Ret tt, wrote (path_join folder (ty ++ ".json")) (dumps (JStr (dumps data)))
                   (traced [EvGetData id] w)).
Proof.
  intros T G N P. unfold archive_data, item_get_data, cell_add. rewrite T, G.
  unfold bind, emit, answer, ret. simpl.
  apply append_file_new_folder; [|exact P].
  apply (@new_folder_same w _ folder); [reflexivity | exact N].
Qed.

(** What a data application row writes (lines 162-168): one file,
    [<type>.json], whose content is the JSON text of the text
    [json.dumps(data)], not that text itself. *)
Lemma data_app_writes_doubly_encoded
  (cfg : Config) (row : Row) (w w1 : World) (folder id ty : string) (it : Item) (data : json) :
  enter_folder cfg row w = (Ret (Some (folder, id)), w1) ->
  SourceItem_Type row = CStr ty ->
  In ty lst_data_apps ->
  lookup id (portal w1) = Some it ->
  get_data it = Returns data ->
  exists w2 evs,
    process_row cfg row w = (Ret tt, w2)
    /\ trace w2 = (trace w1 ++ evs)%list
    /\ flat_map written_path evs = [path_join folder (ty ++ ".json")]
    /\ In (EvWrite (path_join folder (ty ++ ".json")) (dumps (JStr (dumps data)))) evs
    /\ files w2 = append_to (path_join folder (ty ++ ".json"))
                            (dumps (JStr (dumps data))) (files w1)
    /\ dumps (JStr (dumps data)) <> dumps data.
Proof.
  intros E T I L G.
  assert (C : classify ty = DataApplication) by now apply classify_data_app.
  assert (P : plain_name (ty ++ ".json") = true).
  { apply known_type_names_plain. unfold all_known_types. rewrite !in_app_iff. tauto. }
  pose proof (enter_folder_new_folder _ _ _ E) as NF.
  rewrite (process_row_entered _ _ _ E).
  rewrite dispatch_classify, T. simpl. rewrite C. simpl.
  unfold strategy_data_app. unfold bind at 1. rewrite content_get_run, L.
  unfold bind at 1.
  rewrite (@archive_data_run row id folder it ty data _ T G)
    by first [exact P | apply (@new_folder_same w1 _ folder); [reflexivity | exact NF]].
  match goal with |- context [delete_if_indicated row id it ?wm] =>
    destruct (delete_if_indicated_spec row id it wm) as (w2 & D & Tr & _ & _ & _ & Fi) end.
  exists w2.
  exists ([EvGet id; EvGetData id;
           EvWrite (path_join folder (ty ++ ".json")) (dumps (JStr (dumps data)))]
          ++ (if delete_indicated row then [EvDelete id] else []))%list.
  split; [exact D|]. split.
  { rewrite Tr. simpl. rewrite <- !app_assoc. reflexivity. }
  split; [destruct (delete_indicated row); reflexivity|].
  split; [right; right; left; reflexivity|].
  split; [rewrite Fi; reflexivity|].
  apply dumps_of_dumps_differs.
Qed.

(* ================================================================== *)
(** ** A failure of the archival call itself *)

(** The download of a file-type item (line 150) is outside every [try]:
    when it raises, the exception leaves the row, and whatever was to follow
    the row does not run. *)
Lemma file_download_failure_escapes
  (cfg : Config) (row : Row) (w w1 : World) (folder id ty : string) (it : Item) (e : Exn) :
  enter_folder cfg row w = (Ret (Some (folder, id)), w1) ->
  SourceItem_Type row = CStr ty ->
  In ty lst_file_types ->
  lookup id (portal w1) = Some it ->
  download it = Raises e ->
  exists w2,
    process_row cfg row w = (Raise e, w2)
    /\ forall (B : Type) (rest : unit -> M B),
         bind (process_row cfg row) rest w = (Raise e, w2).
Proof.
  intros E T I L D.
  assert (C : classify ty = FileAsset) by now apply classify_file.
  assert (R : exists w2, process_row cfg row w = (Raise e, w2)).
  { rewrite (process_row_entered _ _ _ E).
    rewrite dispatch_classify, T. simpl. rewrite C. simpl.
    unfold strategy_file. unfold bind at 1. rewrite content_get_run, L.
    unfold item_download, bind, emit. simpl. rewrite D. simpl.
    eexists. reflexivity. }
  destruct R as (w2 & R). exists w2. split; [exact R|].
  intros B rest. unfold bind. now rewrite R.
Qed.

(** The same for [get_data] of a data application (line 163). *)
Lemma data_app_failure_escapes
  (cfg : Config) (row : Row) (w w1 : World) (folder id ty : string) (it : Item) (e : Exn) :
  enter_folder cfg row w = (Ret (Some (folder, id)), w1) ->
  SourceItem_Type row = CStr ty ->
  In ty lst_data_apps ->
  lookup id (portal w1) = Some it ->
  get_data it = Raises e ->
  exists w2,
    process_row cfg row w = (Raise e, w2)
    /\ forall (B : Type) (rest : unit -> M B),
         bind (process_row cfg row) rest w = (Raise e, w2).
Proof.
  intros E T I L D.
  assert (C : classify ty = DataApplication) by now apply classify_data_app.
  assert (R : exists w2, process_row cfg row w = (Raise e, w2)).
  { rewrite (process_row_entered _ _ _ E).
    rewrite dispatch_classify, T. simpl. rewrite C. simpl.
    unfold strategy_data_app. unfold bind at 1. rewrite content_get_run, L.
    unfold archive_data, item_get_data, bind, emit. simpl. rewrite D. simpl.
    eexists. reflexivity. }
  destruct R as (w2 & R). exists w2. split; [exact R|].
  intros B rest. unfold bind. now rewrite R.
Qed.

(** C1, at the failing input.  Two flagged rows of type [PDF]; the
    download of the first item raises.  The sweep ends with that exception:
    row 3 is in the range of the loop and is never entered, nothing is made
    or fetched for it, and the whole script ends with exit status 1. *)
Theorem C1_download_failure_stops_the_sweep :
  row_numbers inventory_two_pdf = [2; 3]
  /\ fst (sweep cfg0 inventory_two_pdf world_first_download_raises) = Raise portal_down
  /\ visited (snd (sweep cfg0 inventory_two_pdf world_first_download_raises)) = [2]
  /\ filter is_remote (trace (snd (sweep cfg0 inventory_two_pdf world_first_download_raises)))
     = [EvGet "a1"; EvDownload "a1" "/archive/alice/a1"]
  /\ path_exists (snd (sweep cfg0 inventory_two_pdf world_first_download_raises))
                 "/archive/bob/b2" = false
  /\ exit_status (fst (main cfg0 (env_of inventory_two_pdf) world_first_download_raises))
     = 1%Z.
Proof. vm_compute. repeat split; reflexivity. Qed.

(** The row that was never reached is one the script would have archived. *)
Example second_row_alone_is_archived :
  fst (process_row cfg0 row_pdf_b2 world_first_download_raises) = Ret tt
  /\ path_exists (snd (process_row cfg0 row_pdf_b2 world_first_download_raises))
                 "/archive/bob/b2/B.bin" = true.
Proof. vm_compute. split; reflexivity. Qed.

(** C2, at the failing input.  The two rows of C1: the first sweep ends
    with the exception of row 2 and never enters row 3.  A second sweep over
    the same inventory, started in the world the first one left, passes over
    row 2 (its folder is there, though nothing was archived into it) and
    then calls the portal for row 3: it fetches and downloads [b2].  The
    second run is not free of remote calls. *)
Theorem C2_second_sweep_after_interrupted_sweep_calls :
  fst (sweep cfg0 inventory_two_pdf world_first_download_raises) = Raise portal_down
  /\ path_exists world_after_failed_sweep "/archive/alice/a1" = true
  /\ path_exists world_after_failed_sweep "/archive/bob/b2" = false
  /\ fst (sweep cfg0 inventory_two_pdf world_after_failed_sweep) = Ret tt
  /\ filter is_remote
       (events_since world_after_failed_sweep
          (snd (sweep cfg0 inventory_two_pdf world_after_failed_sweep)))
     = [EvGet "b2"; EvDownload "b2" "/archive/bob/b2"]
  /\ files (snd (sweep cfg0 inventory_two_pdf world_after_failed_sweep))
     = [("/archive/bob/b2/B.bin", "payload"); ("/in/inventory.xlsx", "xlsx")].
Proof. vm_compute. repeat split; reflexivity. Qed.

(* ================================================================== *)
(** ** C8 at a concrete input *)

(** C8, at the failing input.  A web map whose data document is the
    object with the one member [a] = 1: the file [Web Map.json] holds the
    JSON text of a text (a quoted string with escaped quotes), which is not
    the JSON serialization of the document. *)
Theorem C8_web_map_file_is_doubly_encoded :
  fst (process_row cfg0 row_web_map world_web_map) = Ret tt
  /\ lookup "/archive/alice/m1/Web Map.json"
            (files (snd (process_row cfg0 row_web_map world_web_map)))
     = Some (dquote ++ "{" ++ backslash ++ dquote ++ "a" ++ backslash ++ dquote
                    ++ ": 1}" ++ dquote)
  /\ dumps (JObj [("a", JInt 1)]) = "{" ++ dquote ++ "a" ++ dquote ++ ": 1}"
  /\ lookup "/archive/alice/m1/Web Map.json"
            (files (snd (process_row cfg0 row_web_map world_web_map)))
     <> Some (dumps (JObj [("a", JInt 1)])).
Proof. vm_compute. repeat split; try reflexivity. discriminate. Qed.

(* ================================================================== *)
(** ** Before the loop *)

Lemma check_inventory_file_missing cfg w :
  path_exists w (inputExcelFile cfg) = false ->
  exists w',
    check_inventory_file cfg w = (Exit 0, w')
    /\ visited w' = visited w /\ trace w' = trace w
    /\ same_archive w w' /\ portal w' = portal w.
Proof.
  intro N. unfold check_inventory_file, bind, logging_info, logging_error, logging,
    os_path_exists, sys_exit.
  match goal with |- context [path_exists ?W (inputExcelFile cfg)] =>
    change (path_exists W (inputExcelFile cfg)) with (path_exists w (inputExcelFile cfg))
  end.
  rewrite N.
  eexists. split; [reflexivity|]. simpl. repeat split; reflexivity.
Qed.

Lemma check_inventory_file_present cfg w :
  path_exists w (inputExcelFile cfg) = true ->
  exists w',
    check_inventory_file cfg w = (Ret tt, w')
    /\ visited w' = visited w /\ trace w' = trace w
    /\ same_archive w w' /\ portal w' = portal w.
Proof.
  intro N. unfold check_inventory_file, bind, logging_info, logging_error, logging,
    os_path_exists, sys_exit.
  match goal with |- context [path_exists ?W (inputExcelFile cfg)] =>
    change (path_exists W (inputExcelFile cfg)) with (path_exists w (inputExcelFile cfg))
  end.
  rewrite N.
  eexists. split; [reflexivity|]. simpl. repeat split; reflexivity.
Qed.

(** C5 as amended.  When the inventory file does not exist, or the reply
    to the verify request carries an account id (a text) that is not the
    configured one, the script stops through [sys.exit(0)]: the exit status
    is 0, no row of the sheet was entered, and the archive root and the
    portal are as they were. *)
Theorem C5_stops_with_status_zero_before_rows (cfg : Config) (env : Env) (w : World) :
  must_stop_early cfg env w ->
  exists w',
    main cfg env w = (Exit 0, w')
    /\ exit_status (fst (main cfg env w)) = 0%Z
    /\ visited w' = visited w
    /\ same_archive w w'
    /\ portal w' = portal w
    /\ filter (fun e => match e with EvConnect | EvVerify _ => false | _ => true end)
              (trace w') = filter (fun e => match e with EvConnect | EvVerify _ => false
                                                   | _ => true end) (trace w).
Proof.
  intro H.
  assert (R : exists w', main cfg env w = (Exit 0, w')
                /\ visited w' = visited w /\ same_archive w w' /\ portal w' = portal w
                /\ exists evs, trace w' = (trace w ++ evs)%list
                     /\ filter (fun e => match e with EvConnect | EvVerify _ => false
                                                  | _ => true end) evs = []).
  { destruct H as [N | [P (tok & l & obtained & G & V & K & I & D)]].
    - destruct (check_inventory_file_missing cfg w N) as (w' & E & Vi & T & S & Po).
      exists w'. unfold main, bind. rewrite E.
      repeat split; try assumption; try apply S.
      exists []. rewrite app_nil_r. split; [exact T | reflexivity].
    - destruct (check_inventory_file_present cfg w P) as (w1 & E & Vi & T & S & Po).
      assert (Q : String.eqb obtained (sourceUserId cfg) = false)
        by now apply String.eqb_neq.
      unfold main. unfold bind at 1. rewrite E.
      unfold connect, verify_user, contains_error, subscript_id, str_add_json,
        bind, emit, logging_info, logging_error, logging, sys_exit. simpl.
      rewrite G. simpl. rewrite V. simpl. rewrite K. simpl. rewrite I. simpl.
      rewrite Q. simpl.
      eexists. split; [reflexivity|]. simpl.
      destruct S as [S1 S2].
      split; [exact Vi|]. split; [split; assumption|]. split; [exact Po|].
      eexists [EvConnect; EvVerify _]. rewrite T, <- app_assoc.
      split; reflexivity. }
  destruct R as (w' & R & Vi & S & Po & evs & T & F).
  exists w'. rewrite R. simpl.
  repeat split; try assumption; try apply S.
  rewrite T, filter_app, F. now rewrite app_nil_r.
Qed.

(** C5 as stated fails: with the inventory file missing the exit status
    is 0. *)
Lemma C5_exit_status_is_zero_counterexample :
  ~ exits_nonzero_before_rows cfg0 (env_of inventory_two_pdf) world_without_inventory.
Proof.
  unfold exits_nonzero_before_rows. intro H.
  destruct H as [H _]; [left; reflexivity|].
  apply H. reflexivity.
Qed.

(* ================================================================== *)
(** ** The theorems at concrete inputs *)

Example sweep_after_a_full_sweep_demo :
  sweep cfg0 inventory_two_pdf world_two_plain
  = (Ret tt, snd (sweep cfg0 inventory_two_pdf world_two_plain))
  /\ exists w4,
       sweep cfg0 inventory_two_pdf (snd (sweep cfg0 inventory_two_pdf world_two_plain))
       = (Ret tt, w4)
       /\ trace w4 = trace (snd (sweep cfg0 inventory_two_pdf world_two_plain)).
Proof.
  assert (H : sweep cfg0 inventory_two_pdf world_two_plain
              = (Ret tt, snd (sweep cfg0 inventory_two_pdf world_two_plain)))
    by (vm_compute; reflexivity).
  split; [exact H|].
  destruct (@sweep_after_a_full_sweep_makes_no_call cfg0 inventory_two_pdf world_two_plain
              (snd (sweep cfg0 inventory_two_pdf world_two_plain))
              (snd (sweep cfg0 inventory_two_pdf world_two_plain))
              H (conj eq_refl eq_refl)) as (_ & w4 & R & T & _).
  exists w4. split; [exact R | exact T].
Qed.

Lemma C3_witness :
  enter_folder cfg0 row_feature_service world_export_raises
  = (Ret (Some ("/archive/alice/f1", "f1")),
     snd (enter_folder cfg0 row_feature_service world_export_raises))
  /\ export_fails (item_export_raises "Roads") portal_down
  /\ exists w2, process_row cfg0 row_feature_service world_export_raises = (Ret tt, w2)
                /\ path_exists w2 "/archive/alice/f1/Feature Service_error.json" = true
                /\ lookup "f1" (portal w2) = Some (item_export_raises "Roads").
Proof.
  assert (E : enter_folder cfg0 row_feature_service world_export_raises
              = (Ret (Some ("/archive/alice/f1", "f1")),
                 snd (enter_folder cfg0 row_feature_service world_export_raises)))
    by (vm_compute; reflexivity).
  assert (X : export_fails (item_export_raises "Roads") portal_down)
    by (left; reflexivity).
  split; [exact E|]. split; [exact X|].
  destruct (@C3_failed_export_leaves_error_file cfg0 row_feature_service
              world_export_raises _ "/archive/alice/f1" "f1" "Feature Service"
              (item_export_raises "Roads") portal_down
              E eq_refl (or_introl eq_refl) eq_refl X)
    as (w2 & evs & R & _ & _ & _ & _ & _ & _ & P & _ & _ & _ & _ & K).
  exists w2. split; [exact R|]. split; [exact P | exact K].
Defined.

Lemma C4_witness :
  ~ archive_flag_matches row_not_flagged
  /\ snd (process_row cfg0 row_not_flagged world_two_plain) = world_two_plain.
Proof.
  assert (H : ~ archive_flag_matches row_not_flagged).
  { intros (s & E & C). inversion E; subst. discriminate C. }
  split; [exact H|].
  exact (@C4_unflagged_row_untouched cfg0 row_not_flagged world_two_plain H).
Defined.

Lemma C5_witness :
  must_stop_early cfg0 env_other_account world_two_plain
  /\ exists w', main cfg0 env_other_account world_two_plain = (Exit 0, w')
                /\ visited w' = [].
Proof.
  assert (H : must_stop_early cfg0 env_other_account world_two_plain).
  { right. split; [reflexivity|].
    exists "token-1", [("id", JStr "u-2")], "u-2".
    repeat split; try reflexivity. discriminate. }
  split; [exact H|].
  destruct (@C5_stops_with_status_zero_before_rows cfg0 env_other_account
              world_two_plain H) as (w' & R & _ & V & _).
  exists w'. split; [exact R | exact V].
Defined.

Lemma C6_witness :
  enter_folder cfg0 row_shapefile world_delete_raises
  = (Ret (Some ("/archive/carol/s1", "s1")),
     snd (enter_folder cfg0 row_shapefile world_delete_raises))
  /\ archival_succeeds "Shapefile" (item_delete_raises "Parcels") = true
  /\ exists w2, process_row cfg0 row_shapefile world_delete_raises = (Ret tt, w2)
                /\ lookup "s1" (portal w2) = Some (item_delete_raises "Parcels").
Proof.
  assert (E : enter_folder cfg0 row_shapefile world_delete_raises
              = (Ret (Some ("/archive/carol/s1", "s1")),
                 snd (enter_folder cfg0 row_shapefile world_delete_raises)))
    by (vm_compute; reflexivity).
  split; [exact E|]. split; [reflexivity|].
  destruct (@C6_delete_exactly_when_flagged cfg0 row_shapefile world_delete_raises _
              "/archive/carol/s1" "s1" "Shapefile" (item_delete_raises "Parcels")
              E eq_refl eq_refl eq_refl)
    as (w2 & evs & R & _ & _ & _ & _ & _ & P & _).
  exists w2. split; [exact R|].
  exact (proj1 (proj2 (P portal_down eq_refl eq_refl))).
Defined.

Lemma C9_witness :
  path_exists world_two_plain "/archive/erin/g1" = false
  /\ enter_folder cfg0 row_gone world_two_plain
     = (Ret (Some ("/archive/erin/g1", "g1")), snd (enter_folder cfg0 row_gone world_two_plain))
  /\ lookup "g1" (portal world_two_plain) = None
  /\ exists w', process_row cfg0 row_gone world_two_plain = (Ret tt, w')
                /\ path_exists w' "/archive/erin/g1" = true
                /\ files w' = files world_two_plain.
Proof.
  assert (E : enter_folder cfg0 row_gone world_two_plain
              = (Ret (Some ("/archive/erin/g1", "g1")),
                 snd (enter_folder cfg0 row_gone world_two_plain)))
    by (vm_compute; reflexivity).
  split; [reflexivity|]. split; [exact E|]. split; [reflexivity|].
  destruct (@C9_missing_item_leaves_marker_folder cfg0 row_gone world_two_plain _
              "yes" "erin" "g1" _ eq_refl eq_refl eq_refl eq_refl eq_refl E eq_refl)
    as (w' & evs & R & P & _ & _ & _ & F & _).
  exists w'. split; [exact R|]. split; [exact P | exact F].
Defined.

Lemma C10_witness :
  is_text (SourceItem_ArchiveFlag_Value row_number_flag) = false
  /\ is_absent (SourceItem_ArchiveFlag_Value row_number_flag) = false
  /\ exists e, process_row cfg0 row_number_flag world_two_plain = (Raise e, world_two_plain)
               /\ exn_kind e = AttributeError.
Proof.
  split; [reflexivity|]. split; [reflexivity|].
  exact (@C10_non_text_flag_raises cfg0 row_number_flag world_two_plain eq_refl eq_refl).
Defined.
(* ------------------------------------------------------------------ *)
(** *** The rows entered *)

Lemma same_visited_refl w : same_visited w w.
Proof. reflexivity. Qed.

Lemma same_visited_trans a b c : same_visited a b -> same_visited b c -> same_visited a c.
Proof. unfold same_visited. congruence. Qed.

Lemma same_visited_emit e : keeps same_visited (emit e).
Proof. intro w. reflexivity. Qed.

Lemma same_visited_logging lv msg : keeps same_visited (logging lv msg).
Proof. intro w. reflexivity. Qed.

Lemma same_visited_os_mkdir p : keeps same_visited (os_mkdir p).
Proof.
  intro w. destruct (os_mkdir_world p w) as [E | [e E]]; rewrite E; reflexivity.
Qed.

Lemma same_visited_append_file p text : keeps same_visited (append_file p text).
Proof.
  intro w. destruct (append_file_world p text w) as [E | [e E]]; rewrite E; reflexivity.
Qed.

Lemma same_visited_add_item id it : keeps same_visited (add_item id it).
Proof. intro w. reflexivity. Qed.

Lemma same_visited_save_file dir f : keeps same_visited (save_file dir f).
Proof. intro w. reflexivity. Qed.

Lemma same_visited_drop_item id : keeps same_visited (drop_item id).
Proof. intro w. reflexivity. Qed.

Lemma same_visited_lookup_item id :
  keeps same_visited (fun w => (Ret (lookup id (portal w)), w)).
Proof. intro w. reflexivity. Qed.

#[local] Hint Resolve same_visited_emit same_visited_logging same_visited_os_mkdir
  same_visited_append_file same_visited_save_file same_visited_drop_item
  same_visited_add_item same_visited_lookup_item : frame.

Lemma same_visited_delete_if_indicated row id it :
  keeps same_visited (delete_if_indicated row id it).
Proof.
  unfold delete_if_indicated, item_delete, logging_error.
  frame same_visited_refl same_visited_trans.
Qed.

#[local] Hint Resolve same_visited_delete_if_indicated : frame.

Lemma same_visited_process_row cfg row : keeps same_visited (process_row cfg row).
Proof. unfold_row. frame same_visited_refl same_visited_trans. Qed.

(* ------------------------------------------------------------------ *)
(** *** No delete *)

Lemma no_delete_keeps_emit e : is_delete e = false -> keeps no_delete_step (emit e).
Proof. intros N w. eapply no_delete_emit; [exact N | reflexivity]. Qed.

Lemma no_delete_keeps_visit i : keeps no_delete_step (visit i).
Proof.
  intro w. split; [reflexivity|]. split; [exists []; simpl; now rewrite app_nil_r|].
  exists []. split; [simpl; now rewrite app_nil_r | reflexivity].
Qed.

Lemma no_delete_keeps_logging lv msg : keeps no_delete_step (logging lv msg).
Proof. intro w. apply no_delete_logging. Qed.

Lemma no_delete_keeps_append_file p text : keeps no_delete_step (append_file p text).
Proof. intro w. apply no_delete_append_file. Qed.

Lemma no_delete_keeps_save_file dir f : keeps no_delete_step (save_file dir f).
Proof. intro w. apply no_delete_save_file. Qed.

Lemma no_delete_made p w : no_delete_step w (made p w).
Proof.
  split; [reflexivity|]. split; [exists []; simpl; now rewrite app_nil_r|].
  exists [EvMkdir p]. split; reflexivity.
Qed.

Lemma no_delete_keeps_os_mkdir p : keeps no_delete_step (os_mkdir p).
Proof.
  intro w. destruct (os_mkdir_world p w) as [E | [e E]]; rewrite E; simpl.
  - apply no_delete_made.
  - apply no_delete_step_refl.
Qed.

Lemma no_delete_keeps_lookup_item id :
  keeps no_delete_step (fun w => (Ret (lookup id (portal w)), w)).
Proof. intro w. apply no_delete_step_refl. Qed.

(** Without the flag the delete step is no step at all. *)
Lemma no_delete_keeps_delete_if_indicated row id it :
  delete_indicated row = false -> keeps no_delete_step (delete_if_indicated row id it).
Proof.
  unfold delete_indicated, delete_if_indicated. intros -> w. apply no_delete_step_refl.
Qed.

#[local] Hint Resolve no_delete_keeps_visit no_delete_keeps_logging
  no_delete_keeps_append_file no_delete_keeps_save_file no_delete_keeps_os_mkdir
  no_delete_keeps_lookup_item no_delete_keeps_delete_if_indicated : frame.
#[local] Hint Extern 1 (keeps no_delete_step (emit _)) =>
  apply no_delete_keeps_emit; reflexivity : frame.

Lemma no_delete_keeps_enter_folder cfg row : keeps no_delete_step (enter_folder cfg row).
Proof. unfold_row. frame no_delete_step_refl no_delete_step_trans. Qed.



Lemma no_removal_of_no_delete {A} (m : M A) :
  keeps no_delete_step m -> keeps no_removal_step m.
Proof. intros K w. exists []. apply step_adding_nil, K. Qed.

Lemma no_removal_keeps_add_item id it : keeps no_removal_step (add_item id it).
Proof.
  intro w. exists [(id, it)]. split; [reflexivity|].
  split; [exists []; simpl; now rewrite app_nil_r|].
  exists []. split; [simpl; now rewrite app_nil_r | reflexivity].
Qed.

Lemma no_removal_keeps_delete_if_indicated row id it :
  delete_indicated row = false -> keeps no_removal_step (delete_if_indicated row id it).
Proof. intro N. now apply no_removal_of_no_delete, no_delete_keeps_delete_if_indicated. Qed.

#[local] Hint Resolve no_removal_keeps_add_item no_removal_keeps_delete_if_indicated : frame.
#[local] Hint Extern 2 (keeps no_removal_step _) =>
  apply no_removal_of_no_delete; solve [auto with frame] : frame.



Lemma filter_nil_not_in {A} (f : A -> bool) (l : list A) :
  filter f l = [] -> forall a, In a l -> f a = false.
Proof.
  induction l as [|x l IH]; simpl; [contradiction|].
  destruct (f x) eqn:E; [discriminate|].
  intros H a [<-|I]; [exact E | now apply IH].
Qed.


(* ================================================================== *)
(** ** The archive flag test (line 139) *)

Lemma lower_ascii_y c : lower_ascii c = "y"%char -> c = "y"%char \/ c = "Y"%char.
Proof.
  destruct c as [[] [] [] [] [] [] [] []]; vm_compute; intro H;
    first [discriminate | now left | now right].
Qed.

Lemma lower_ascii_e c : lower_ascii c = "e"%char -> c = "e"%char \/ c = "E"%char.
Proof.
  destruct c as [[] [] [] [] [] [] [] []]; vm_compute; intro H;
    first [discriminate | now left | now right].
Qed.

Lemma lower_ascii_s c : lower_ascii c = "s"%char -> c = "s"%char \/ c = "S"%char.
Proof.
  destruct c as [[] [] [] [] [] [] [] []]; vm_compute; intro H;
    first [discriminate | now left | now right].
Qed.

Lemma lower_is_yes (s : string) : lower s = archiveFlag <-> In s yes_variants.
Proof.
  split.
  - destruct s as [|a [|b [|c [|d r]]]]; simpl; try discriminate.
    intro H. injection H as Ha Hb Hc.
    apply lower_ascii_y in Ha. apply lower_ascii_e in Hb. apply lower_ascii_s in Hc.
    destruct Ha as [-> | ->], Hb as [-> | ->], Hc as [-> | ->]; tauto.
  - intro H. in_cases H.
Qed.

(* ================================================================== *)
(** ** How the gate ends *)

Lemma os_mkdir_cases p w :
  os_mkdir p w = (Ret tt, made p w)
  \/ exists e, os_mkdir p w = (Raise e, w) /\ mkdir_error (exn_kind e) = true.
Proof.
  unfold os_mkdir.
  destruct (String.eqb p EmptyString); [right; eexists; split; reflexivity|].
  destruct (walk w [] (names p)) as [n| |]; try (right; eexists; split; reflexivity).
  destruct (occupied w n); [right; eexists; split; reflexivity | now left].
Qed.

Lemma lookup_in {A} (p : string) (l : list (string * A)) (x : A) :
  lookup p l = Some x -> In (p, x) l.
Proof.
  induction l as [|[k v] l IH]; simpl; [discriminate|].
  destruct (String.eqb p k) eqn:E.
  - apply String.eqb_eq in E. subst. intros [= ->]. now left.
  - intro H. right. now apply IH.
Qed.

Lemma lookup_is_file p w :
  lookup p (files w) <> None -> is_file w (locate p) = true.
Proof.
  intro H. destruct (lookup p (files w)) as [x|] eqn:L; [|contradiction].
  apply is_file_in_spec. exists (p, x). split; [now apply lookup_in | reflexivity].
Qed.

(** Inside a folder that is there, a plain name is free unless it exists. *)
Lemma path_exists_in_folder (folder name : string) (w : World) :
  is_folder w folder = true -> plain_name name = true ->
  path_exists w (path_join folder name) = false ->
  walk w [] (names (path_join folder name)) = Found (locate (path_join folder name))
  /\ occupied w (locate (path_join folder name)) = false.
Proof.
  intros F P X. destruct (is_folder_locate _ _ F) as (E & W & D).
  destruct (@path_join_plain folder name E P) as (Nm & T & Ne).
  assert (K : walk w [] (names (path_join folder name))
              = Found (locate (path_join folder name))).
  { rewrite Nm. unfold walk, is_dir in *. rewrite walk_in_app, W. simpl.
    rewrite D, (@step_plain _ name P), (@locate_path_join folder name E P). reflexivity. }
  split; [exact K|].
  unfold path_exists in X. apply String.eqb_neq in Ne. rewrite Ne in X.
  apply orb_false_iff in X as [_ X]. unfold parts in X.
  rewrite T, app_nil_r, K in X. exact X.
Qed.

Lemma os_mkdir_in_folder (folder name : string) (w : World) :
  is_folder w folder = true -> plain_name name = true ->
  path_exists w (path_join folder name) = false ->
  os_mkdir (path_join folder name) w = (Ret tt, made (path_join folder name) w).
Proof.
  intros F P X. destruct (path_exists_in_folder _ _ _ F P X) as [K O].
  destruct (is_folder_locate _ _ F) as (E & _).
  apply os_mkdir_run; [now apply path_join_nonempty | exact K | exact O].
Qed.

(** A plain name that exists inside a folder and is no file is a folder. *)
Lemma exists_in_folder_is_folder (folder name : string) (w : World) :
  is_folder w folder = true -> plain_name name = true ->
  path_exists w (path_join folder name) = true ->
  is_file w (locate (path_join folder name)) = false ->
  is_folder w (path_join folder name) = true.
Proof.
  intros F P X NF. destruct (is_folder_locate _ _ F) as (E & W & D).
  destruct (@path_join_plain folder name E P) as (Nm & T & Ne).
  assert (K : walk w [] (names (path_join folder name))
              = Found (locate (path_join folder name))).
  { rewrite Nm. unfold walk, is_dir in *. rewrite walk_in_app, W. simpl.
    rewrite D, (@step_plain _ name P), (@locate_path_join folder name E P). reflexivity. }
  unfold is_folder. unfold path_exists in X.
  apply String.eqb_neq in Ne. rewrite Ne in *. rewrite K.
  apply orb_true_iff in X as [X|X].
  - exfalso. assert (L : lookup (path_join folder name) (files w) <> None)
      by (destruct (lookup (path_join folder name) (files w)); [discriminate | discriminate X]).
    apply lookup_is_file in L. congruence.
  - unfold parts in X. rewrite T, app_nil_r, K in X.
    unfold occupied in X. rewrite NF, orb_false_r in X. exact X.
Qed.

Lemma ensure_folder_cases p w :
  (path_exists w p = true /\ ensure_folder p w = (Ret tt, w))
  \/ (path_exists w p = false /\ ensure_folder p w = (Ret tt, made p w)
      /\ os_mkdir p w = (Ret tt, made p w))
  \/ exists e, path_exists w p = false /\ ensure_folder p w = (Raise e, w)
               /\ mkdir_error (exn_kind e) = true.
Proof.
  unfold ensure_folder. destruct (path_exists w p) eqn:X.
  - left. split; reflexivity.
  - right. destruct (os_mkdir_cases p w) as [E | (e & E & K)].
    + left. repeat split; assumption.
    + right. exists e. repeat split; assumption.
Qed.

(** The gate, for a row whose flag says yes and whose owner is text. *)
Lemma enter_folder_owner (cfg : Config) (row : Row) (w : World) (s o : string) :
  SourceItem_ArchiveFlag_Value row = CStr s ->
  String.eqb (lower s) archiveFlag = true ->
  SourceItem_Owner row = CStr o ->
  let user_folder := path_join (data_dmp cfg) o in
  enter_folder cfg row w
  = match ensure_folder user_folder w with
    | (Ret _, wf) =>
        match SourceItem_Id row with
        | CStr i =>
            if path_exists wf (path_join user_folder i) then (Ret None, wf)
            else match os_mkdir (path_join user_folder i) wf with
                 | (Ret _, w1) => (Ret (Some (path_join user_folder i, i)), w1)
                 | (Raise e, w1) => (Raise e, w1)
                 | (Exit c, w1) => (Exit c, w1)
                 end
        | _ => (Raise (mkExn TypeError "expected str, bytes or os.PathLike object"), wf)
        end
    | (Raise e, wf) => (Raise e, wf)
    | (Exit c, wf) => (Exit c, wf)
    end.
Proof.
  intros Hf L Ho. simpl. unfold enter_folder, ensure_folder. rewrite Hf, Ho.
  unfold bind at 1. simpl. rewrite L.
  unfold bind at 1. simpl. unfold bind at 1. simpl. unfold bind at 1.
  destruct ((if path_exists w (path_join (data_dmp cfg) o) then ret tt
             else os_mkdir (path_join (data_dmp cfg) o)) w) as [[[]|e|c] wf];
    [|reflexivity|reflexivity].
  destruct (SourceItem_Id row) as [|i| |]; try reflexivity.
  unfold join_cell, os_path_join, bind, ret, os_path_exists. simpl.
  destruct (path_exists wf (path_join (path_join (data_dmp cfg) o) i)); [reflexivity|].
  destruct (os_mkdir (path_join (path_join (data_dmp cfg) o) i) wf) as [[[]|e|c] w1];
    reflexivity.
Qed.

Lemma enter_folder_not_flagged (cfg : Config) (row : Row) (w : World) :
  match SourceItem_ArchiveFlag_Value row with
  | CNone => True
  | CStr s => String.eqb (lower s) archiveFlag = false
  | _ => False
  end ->
  enter_folder cfg row w = (Ret None, w).
Proof.
  unfold enter_folder. destruct (SourceItem_ArchiveFlag_Value row) as [|s| |];
    try contradiction; [reflexivity|].
  intro L. unfold bind. simpl. now rewrite L.
Qed.

Lemma enter_folder_flag_not_text (cfg : Config) (row : Row) (w : World) :
  orb (is_text (SourceItem_ArchiveFlag_Value row))
      (is_absent (SourceItem_ArchiveFlag_Value row)) = false ->
  enter_folder cfg row w
  = (Raise (mkExn AttributeError "object has no attribute 'lower'"), w).
Proof.
  unfold enter_folder. destruct (SourceItem_ArchiveFlag_Value row) as [|s| |];
    try discriminate; reflexivity.
Qed.

Lemma enter_folder_owner_not_text (cfg : Config) (row : Row) (w : World) (s : string) :
  SourceItem_ArchiveFlag_Value row = CStr s ->
  String.eqb (lower s) archiveFlag = true ->
  is_text (SourceItem_Owner row) = false ->
  enter_folder cfg row w
  = (Raise (mkExn TypeError "expected str, bytes or os.PathLike object"), w).
Proof.
  intros Hf L Ho. unfold enter_folder. rewrite Hf. unfold bind at 1. simpl. rewrite L.
  destruct (SourceItem_Owner row); try discriminate; reflexivity.
Qed.

(** What the gate leaves as it was. *)
Lemma enter_folder_frame (cfg : Config) (row : Row) (w : World) :
  files (snd (enter_folder cfg row w)) = files w
  /\ portal (snd (enter_folder cfg row w)) = portal w
  /\ log (snd (enter_folder cfg row w)) = log w.
Proof.
  destruct (SourceItem_ArchiveFlag_Value row) as [|s|z|b] eqn:Hf.
  - rewrite enter_folder_not_flagged by (now rewrite Hf). repeat split.
  - destruct (String.eqb (lower s) archiveFlag) eqn:L.
    2:{ rewrite enter_folder_not_flagged by (now rewrite Hf). repeat split. }
    destruct (SourceItem_Owner row) as [|o| |] eqn:Ho.
    2:{ rewrite (@enter_folder_owner cfg row w s o Hf L Ho).
        destruct (ensure_folder_cases (path_join (data_dmp cfg) o) w)
          as [[_ E] | [(_ & E & _) | (e & _ & E & _)]]; rewrite E.
        3: repeat split.
        all: destruct (SourceItem_Id row) as [|i| |]; try (repeat split; fail).
        all: match goal with |- context [if ?b then _ else _] => destruct b end;
          try (repeat split; fail).
        all: match goal with |- context [os_mkdir ?p ?x] =>
               destruct (os_mkdir_world p x) as [E2 | [e2 E2]]; rewrite E2 end;
          repeat split. }
    all: rewrite (@enter_folder_owner_not_text cfg row w s Hf L) by (now rewrite Ho);
      repeat split.
  - rewrite enter_folder_flag_not_text by (now rewrite Hf). repeat split.
  - rewrite enter_folder_flag_not_text by (now rewrite Hf). repeat split.
Qed.

(** After a row whose gate returned, the folder of the item is there,
    however the row went on. *)
Lemma process_row_folder_exists (cfg : Config) (row : Row) (w w1 : World) (s o i : string)
                                (r : option (string * string)) :
  SourceItem_ArchiveFlag_Value row = CStr s ->
  ci_equal s archiveFlag ->
  SourceItem_Owner row = CStr o ->
  SourceItem_Id row = CStr i ->
  enter_folder cfg row w = (Ret r, w1) ->
  path_exists (snd (process_row cfg row w)) (path_join (path_join (data_dmp cfg) o) i) = true.
Proof.
  intros Hf Hci Ho Hi E.
  pose proof (enter_folder_settles _ _ _ E) as S.
  unfold row_skipped in S. rewrite Hf, Ho, Hi in S.
  unfold ci_equal in Hci. rewrite lower_archiveFlag in Hci.
  apply String.eqb_eq in Hci. rewrite Hci in S. apply andb_true_iff in S as [_ S].
  unfold process_row, bind. rewrite E. destruct r as [[f j]|]; [|exact S].
  apply monotone_dispatch. exact S.
Qed.

(** The gate returns when the archive root is a folder, owner and id are
    names of one part, and no file stands where the folder of the owner is
    to be. *)
Lemma enter_folder_returns_plain (cfg : Config) (row : Row) (w : World) :
  plain_cells row = true ->
  is_folder w (data_dmp cfg) = true ->
  (forall o, SourceItem_Owner row = CStr o ->
             is_file w (locate (path_join (data_dmp cfg) o)) = false) ->
  exists r w1, enter_folder cfg row w = (Ret r, w1).
Proof.
  unfold plain_cells. intros P F NF.
  destruct (SourceItem_ArchiveFlag_Value row) as [|s|z|b] eqn:Hf; try discriminate.
  - exists None, w. apply enter_folder_not_flagged. now rewrite Hf.
  - destruct (String.eqb (lower s) archiveFlag) eqn:L.
    2:{ exists None, w. apply enter_folder_not_flagged. now rewrite Hf. }
    destruct (SourceItem_Owner row) as [|o| |] eqn:Ho; try discriminate.
    destruct (SourceItem_Id row) as [|i| |] eqn:Hi; try discriminate.
    apply andb_true_iff in P as [Po Pi]. specialize (NF o eq_refl).
    rewrite (@enter_folder_owner cfg row w s o Hf L Ho), Hi.
    assert (U : exists wf, ensure_folder (path_join (data_dmp cfg) o) w = (Ret tt, wf)
                           /\ is_folder wf (path_join (data_dmp cfg) o) = true).
    { destruct (ensure_folder_cases (path_join (data_dmp cfg) o) w)
        as [[X E] | [(X & E & K) | (e & X & E & _)]].
      - exists w. split; [exact E|]. now apply exists_in_folder_is_folder.
      - eexists. split; [exact E|]. apply (@new_folder_made _ _ _ K).
      - exfalso. unfold ensure_folder in E. rewrite X in E.
        rewrite (@os_mkdir_in_folder _ _ _ F Po X) in E. discriminate. }
    destruct U as (wf & -> & Fu).
    destruct (path_exists wf (path_join (path_join (data_dmp cfg) o) i)) eqn:X.
    + eexists. eexists. reflexivity.
    + rewrite (@os_mkdir_in_folder _ _ _ Fu Pi X). eexists. eexists. reflexivity.
Qed.

Lemma enter_folder_gate_ok (cfg : Config) (row : Row) (w w1 : World)
                           (r : option (string * string)) :
  enter_folder cfg row w = (Ret r, w1) -> gate_ok row = true.
Proof.
  intro E. unfold gate_ok.
  destruct (SourceItem_ArchiveFlag_Value row) as [|s|z|b] eqn:Hf; [reflexivity| | |].
  - destruct (String.eqb (lower s) archiveFlag) eqn:L; [|reflexivity].
    destruct (SourceItem_Owner row) as [|o| |] eqn:Ho.
    2:{ rewrite (@enter_folder_owner cfg row w s o Hf L Ho) in E.
        destruct (ensure_folder (path_join (data_dmp cfg) o) w) as [[[]|e|c] wf];
          try discriminate.
        destruct (SourceItem_Id row); try discriminate. reflexivity. }
    all: rewrite (@enter_folder_owner_not_text cfg row w s Hf L) in E
      by (now rewrite Ho); discriminate.
  - rewrite enter_folder_flag_not_text in E by (now rewrite Hf). discriminate.
  - rewrite enter_folder_flag_not_text in E by (now rewrite Hf). discriminate.
Qed.

(** X1.  The archive flag is compared after [lower()]: a text flag lets
    the row in exactly when it is one of the eight spellings of the token
    that differ in case.  With any other text the row leaves the world as it
    was.  With one of the eight (owner and id being text) the row goes on to
    the folders: when the gate returns, the folder [data_dmp/owner/id]
    exists after the row, however the row ends; the gate does return when
    the archive root is a folder, owner and id are names of one part and no
    file stands in the place of the owner's folder; and when [os.mkdir]
    raises, the row ends with that exception. *)
Theorem archive_flag_accepts_the_case_variants_of_yes
  (cfg : Config) (row : Row) (s : string) :
  SourceItem_ArchiveFlag_Value row = CStr s ->
  (String.eqb (lower s) archiveFlag = true <-> In s yes_variants)
  /\ (~ In s yes_variants -> forall w, process_row cfg row w = (Ret tt, w))
  /\ (In s yes_variants ->
      forall w o i,
        SourceItem_Owner row = CStr o -> SourceItem_Id row = CStr i ->
        (forall r w1,
            enter_folder cfg row w = (Ret r, w1) ->
            path_exists (snd (process_row cfg row w))
                        (path_join (path_join (data_dmp cfg) o) i) = true)
        /\ (is_folder w (data_dmp cfg) = true ->
            plain_name o = true -> plain_name i = true ->
            is_file w (locate (path_join (data_dmp cfg) o)) = false ->
            exists r w1, enter_folder cfg row w = (Ret r, w1))
        /\ (forall e w1,
               enter_folder cfg row w = (Raise e, w1) ->
               process_row cfg row w = (Raise e, w1))).
Proof.
  intro Hf. split; [rewrite String.eqb_eq; apply lower_is_yes|]. split.
  - intros N w. unfold process_row, enter_folder. rewrite Hf.
    unfold bind at 2. simpl.
    destruct (String.eqb (lower s) archiveFlag) eqn:L; [|reflexivity].
    exfalso. apply N, lower_is_yes. now apply String.eqb_eq.
  - intros Y w o i Ho Hi.
    assert (L : lower s = archiveFlag) by (now apply lower_is_yes).
    split; [|split].
    + intros r w1 E.
      assert (C : ci_equal s archiveFlag)
        by (unfold ci_equal; now rewrite lower_archiveFlag).
      exact (@process_row_folder_exists cfg row w w1 s o i r Hf C Ho Hi E).
    + intros F Po Pi NF.
      assert (P : plain_cells row = true).
      { unfold plain_cells. rewrite Hf, Ho, Hi, L, String.eqb_refl, Po, Pi. reflexivity. }
      apply (@enter_folder_returns_plain cfg row w P F).
      intros o' E. rewrite Ho in E. injection E as <-. exact NF.
    + intros e w1 E. unfold process_row, bind. now rewrite E.
Qed.

(** With a flag that is text or absent the test of line 139 itself goes
    through: when the gate raises, it is [os.path.join] or [os.mkdir] that
    raised. *)
Lemma text_or_absent_flag_passes_test (cfg : Config) (row : Row) (w w' : World) (e : Exn) :
  orb (is_text (SourceItem_ArchiveFlag_Value row))
      (is_absent (SourceItem_ArchiveFlag_Value row)) = true ->
  enter_folder cfg row w = (Raise e, w') ->
  exn_kind e = TypeError \/ mkdir_error (exn_kind e) = true.
Proof.
  intros F H.
  destruct (SourceItem_ArchiveFlag_Value row) as [|s|z|b] eqn:Hf; try discriminate.
  - rewrite enter_folder_not_flagged in H by (now rewrite Hf). discriminate.
  - destruct (String.eqb (lower s) archiveFlag) eqn:L.
    2:{ rewrite enter_folder_not_flagged in H by (now rewrite Hf). discriminate. }
    destruct (SourceItem_Owner row) as [|o| |] eqn:Ho.
    2:{ rewrite (@enter_folder_owner cfg row w s o Hf L Ho) in H.
        destruct (ensure_folder_cases (path_join (data_dmp cfg) o) w)
          as [[_ E] | [(_ & E & _) | (e' & _ & E & K)]]; rewrite E in H.
        3:{ injection H as <- <-. now right. }
        all: destruct (SourceItem_Id row) as [|i| |];
          try (injection H as <- <-; now left).
        all: match type of H with context [if ?b then _ else _] => destruct b end;
          try discriminate.
        all: match type of H with context [os_mkdir ?p ?x] =>
               destruct (os_mkdir_cases p x) as [E2 | (e2 & E2 & K2)]; rewrite E2 in H end;
          try discriminate; injection H as <- <-; now right. }
    all: rewrite (@enter_folder_owner_not_text cfg row w s Hf L) in H
      by (now rewrite Ho); injection H as <- <-; now left.
Qed.

(** X2.  How the gate of lines 137-145 ends.  Files, portal and log are
    always as they were.  When a cell the gate needs as text is not text, it
    raises: [AttributeError] for a flag that is a number or a boolean and
    [TypeError] from [os.path.join] for an owner that is not text, both
    with the world unchanged; for an id that is not text, [TypeError] with
    the folder of the owner there, unless [os.mkdir] of that folder raised
    first.  When the cells are text the gate returns or ends with an error
    of [os.mkdir] ([FileExistsError], [FileNotFoundError],
    [NotADirectoryError]); it returns when the archive root is a folder,
    owner and id are names of one part and no file stands in the place of
    the owner's folder. *)
Theorem gate_ends_by_the_cells_and_the_folders (cfg : Config) (row : Row) (w : World) :
  exists out w1,
    enter_folder cfg row w = (out, w1)
    /\ files w1 = files w /\ portal w1 = portal w /\ log w1 = log w
    /\ (gate_ok row = false ->
        exists e,
          out = Raise e
          /\ (is_text (SourceItem_ArchiveFlag_Value row) = false ->
              exn_kind e = AttributeError /\ w1 = w)
          /\ (is_text (SourceItem_ArchiveFlag_Value row) = true ->
              is_text (SourceItem_Owner row) = false ->
              exn_kind e = TypeError /\ w1 = w)
          /\ (forall o,
                 is_text (SourceItem_ArchiveFlag_Value row) = true ->
                 SourceItem_Owner row = CStr o ->
                 (exn_kind e = TypeError
                  /\ path_exists w1 (path_join (data_dmp cfg) o) = true)
                 \/ (mkdir_error (exn_kind e) = true /\ w1 = w)))
    /\ (gate_ok row = true ->
        match out with
        | Ret _ => True
        | Raise e => mkdir_error (exn_kind e) = true
        | Exit _ => False
        end)
    /\ (plain_cells row = true ->
        is_folder w (data_dmp cfg) = true ->
        (forall o, SourceItem_Owner row = CStr o ->
                   is_file w (locate (path_join (data_dmp cfg) o)) = false) ->
        exists r, out = Ret r).
Proof.
  destruct (enter_folder cfg row w) as [out w1] eqn:E. exists out, w1.
  split; [reflexivity|].
  pose proof (enter_folder_frame cfg row w) as Fr. rewrite E in Fr. simpl in Fr.
  destruct Fr as (Ff & Fp & Fl).
  split; [exact Ff|]. split; [exact Fp|]. split; [exact Fl|].
  split; [|split].
  - unfold gate_ok. intro G.
    destruct (SourceItem_ArchiveFlag_Value row) as [|s|z|b] eqn:Hf; try discriminate.
    + destruct (String.eqb (lower s) archiveFlag) eqn:L; [|discriminate].
      destruct (SourceItem_Owner row) as [|o| |] eqn:Ho.
      2:{ destruct (SourceItem_Id row) as [|i| |] eqn:Hi; try discriminate.
          all: rewrite (@enter_folder_owner cfg row w s o Hf L Ho), Hi in E.
          all: destruct (ensure_folder_cases (path_join (data_dmp cfg) o) w)
            as [[X E1] | [(X & E1 & K) | (e & X & E1 & K)]]; rewrite E1 in E;
            injection E as <- <-; eexists; (split; [reflexivity|]);
            (split; [discriminate|]); (split; [discriminate|]);
            intros o' _ [= <-]; simpl.
          all: first [ left; split; [reflexivity|];
                       first [exact X | now apply (@path_exists_after_mkdir _ _ _ K)]
                     | right; split; [exact K | reflexivity] ]. }
      all: rewrite (@enter_folder_owner_not_text cfg row w s Hf L) in E
        by (now rewrite Ho); injection E as <- <-; eexists; (split; [reflexivity|]);
        (split; [discriminate|]); (split; [intros; split; reflexivity|]);
        intros o' _ Q; discriminate Q.
    + rewrite enter_folder_flag_not_text in E by (now rewrite Hf).
      injection E as <- <-. eexists. split; [reflexivity|].
      split; [intros; split; reflexivity|]. split; [discriminate|]. discriminate.
    + rewrite enter_folder_flag_not_text in E by (now rewrite Hf).
      injection E as <- <-. eexists. split; [reflexivity|].
      split; [intros; split; reflexivity|]. split; [discriminate|]. discriminate.
  - intro G. destruct out as [r|e|c]; [exact I| |].
    + assert (T : orb (is_text (SourceItem_ArchiveFlag_Value row))
                      (is_absent (SourceItem_ArchiveFlag_Value row)) = true).
      { unfold gate_ok in G. destruct (SourceItem_ArchiveFlag_Value row);
          try discriminate; reflexivity. }
      destruct (@text_or_absent_flag_passes_test _ _ _ _ _ T E) as [K|K]; [|exact K].
      exfalso. unfold gate_ok in G.
      destruct (SourceItem_ArchiveFlag_Value row) as [|s|z|b] eqn:Hf; try discriminate.
      * rewrite enter_folder_not_flagged in E by (now rewrite Hf). discriminate.
      * destruct (String.eqb (lower s) archiveFlag) eqn:L.
        2:{ rewrite enter_folder_not_flagged in E by (now rewrite Hf). discriminate. }
        destruct (SourceItem_Owner row) as [|o| |] eqn:Ho; try discriminate.
        destruct (SourceItem_Id row) as [|i| |] eqn:Hi; try discriminate.
        rewrite (@enter_folder_owner cfg row w s o Hf L Ho), Hi in E.
        destruct (ensure_folder_cases (path_join (data_dmp cfg) o) w)
          as [[_ E1] | [(_ & E1 & _) | (e' & _ & E1 & K')]]; rewrite E1 in E.
        3:{ injection E as <- <-. rewrite K in K'. discriminate. }
        all: match type of E with context [if ?b then _ else _] => destruct b end;
          try discriminate.
        all: match type of E with context [os_mkdir ?p ?x] =>
               destruct (os_mkdir_cases p x) as [E2 | (e2 & E2 & K2)]; rewrite E2 in E end;
          try discriminate; injection E as <- <-; rewrite K in K2; discriminate.
    + exact (@enter_folder_no_exit _ _ _ _ _ E).
  - intros P F NF. destruct (enter_folder_returns_plain cfg row w P F NF) as (r & w' & E').
    rewrite E' in E. injection E as <- <-. now exists r.
Qed.

(* ================================================================== *)
(** ** The loop over the rows (line 127) *)

Lemma for_each_app {A} (l1 l2 : list A) (body : A -> M unit) (w : World) :
  for_each (l1 ++ l2)%list body w
  = bind (for_each l1 body) (fun _ => for_each l2 body) w.
Proof.
  revert w. induction l1 as [|x l1 IH]; intro w; simpl; [reflexivity|].
  unfold bind. destruct (body x w) as [[[]|e|c] w1]; [|reflexivity|reflexivity].
  rewrite IH. reflexivity.
Qed.

Lemma for_each_cons {A} (x : A) (l : list A) (body : A -> M unit) (w : World) :
  for_each (x :: l) body w
  = match body x w with
    | (Ret _, w') => for_each l body w'
    | (Raise e, w') => (Raise e, w')
    | (Exit c, w') => (Exit c, w')
    end.
Proof. reflexivity. Qed.

Lemma loop_body_run cfg Inventory (i : nat) (w : World) :
  (visit i ;; process_row cfg (read_row Inventory i)) w
  = process_row cfg (read_row Inventory i)
      (mkWorld (dirs w) (files w) (portal w) (log w) (trace w) (visited w ++ [i])).
Proof. reflexivity. Qed.

Lemma loop_body_visited cfg Inventory (i : nat) (w : World) :
  visited (snd ((visit i ;; process_row cfg (read_row Inventory i)) w))
  = (visited w ++ [i])%list.
Proof. rewrite loop_body_run. apply same_visited_process_row. Qed.

Lemma for_each_rows_visited cfg Inventory (l : list nat) (w : World) :
  exists k,
    k <= List.length l
    /\ visited (snd (for_each l (fun i => visit i ;; process_row cfg (read_row Inventory i)) w))
       = (visited w ++ firstn k l)%list
    /\ (fst (for_each l (fun i => visit i ;; process_row cfg (read_row Inventory i)) w) = Ret tt
        -> k = List.length l).
Proof.
  revert w. induction l as [|i l IH]; intro w.
  - exists 0. simpl. rewrite app_nil_r. repeat split; reflexivity.
  - rewrite for_each_cons. pose proof (loop_body_visited cfg Inventory i w) as V.
    destruct ((visit i ;; process_row cfg (read_row Inventory i)) w) as [[[]|e|c] w1];
      simpl in V.
    + destruct (IH w1) as (k & Hk & Hv & Hr). exists (S k). simpl.
      split; [lia|]. split.
      * rewrite Hv, V. rewrite <- app_assoc. reflexivity.
      * intro R. f_equal. apply Hr. exact R.
    + exists 1. simpl. split; [lia|]. split; [exact V | discriminate].
    + exists 1. simpl. split; [lia|]. split; [exact V | discriminate].
Qed.

Lemma firstn_seq_le (k a n : nat) : k <= n -> firstn k (seq a n) = seq a k.
Proof.
  revert a n. induction k as [|k IH]; intros a n H; [reflexivity|].
  destruct n as [|n]; [lia|]. simpl. f_equal. apply IH. lia.
Qed.

(** X3.  The loop enters the rows 2, 3, ... of the sheet in this order,
    each once, and never the header row: whatever the sweep does, the rows
    it has entered are the first [k] of the rows 2..[max_row], and all of
    them when it runs to its end.  A sheet with the header alone (or with
    nothing) has no row to enter. *)
Theorem sweep_enters_rows_in_sheet_order (cfg : Config) (Inventory : Sheet) (w : World) :
  exists k,
    k <= max_row Inventory - 1
    /\ visited (snd (sweep cfg Inventory w)) = (visited w ++ seq 2 k)%list
    /\ (fst (sweep cfg Inventory w) = Ret tt -> k = max_row Inventory - 1).
Proof.
  unfold sweep, row_numbers.
  destruct (for_each_rows_visited cfg Inventory (seq 2 (max_row Inventory - 1)) w)
    as (k & Hk & Hv & Hr).
  rewrite length_seq in Hk, Hr.
  exists k. split; [exact Hk|]. split; [|exact Hr].
  rewrite Hv. f_equal. now apply firstn_seq_le.
Qed.

Lemma NoDup_app_disjoint {A} (l1 l2 : list A) (a : A) :
  NoDup (l1 ++ l2) -> In a l1 -> In a l2 -> False.
Proof.
  induction l1 as [|x l1 IH]; simpl; [contradiction|].
  intros N [<-|I1] I2; inversion N as [|? ? Nx N']; subst.
  - apply Nx. apply in_or_app. now right.
  - now apply IH.
Qed.

(** X4.  No handler surrounds the body of the loop: when the rows before
    row [i] have run to their end and row [i] raises, the sweep ends with
    that exception in the world row [i] left; the rows after [i] are never
    entered. *)
Theorem sweep_stops_at_the_first_row_that_raises
  (cfg : Config) (Inventory : Sheet) (l1 l2 : list nat) (i : nat)
  (w wa wb : World) (e : Exn) :
  row_numbers Inventory = (l1 ++ i :: l2)%list ->
  for_each l1 (fun j => visit j ;; process_row cfg (read_row Inventory j)) w = (Ret tt, wa) ->
  (visit i ;; process_row cfg (read_row Inventory i)) wa = (Raise e, wb) ->
  sweep cfg Inventory w = (Raise e, wb)
  /\ visited wb = (visited w ++ l1 ++ [i])%list
  /\ forall j, In j l2 -> ~ In j (visited w) -> ~ In j (visited wb).
Proof.
  intros Hrows H1 Hi.
  assert (V : visited wb = (visited w ++ l1 ++ [i])%list).
  { destruct (for_each_rows_visited cfg Inventory l1 w) as (k & _ & Hv & Hr).
    rewrite H1 in Hv, Hr. simpl in Hv, Hr. rewrite (Hr eq_refl), firstn_all in Hv.
    pose proof (loop_body_visited cfg Inventory i wa) as Vi. rewrite Hi in Vi.
    simpl in Vi. rewrite Vi, Hv. now rewrite <- app_assoc. }
  split; [|split; [exact V|]].
  - unfold sweep. rewrite Hrows, for_each_app. unfold bind at 1. rewrite H1.
    simpl for_each. unfold bind at 1. now rewrite Hi.
  - intros j I2 N I. rewrite V in I. apply in_app_or in I as [I|I]; [now apply N|].
    pose proof (seq_NoDup (max_row Inventory - 1) 2) as D.
    fold (row_numbers Inventory) in D. rewrite Hrows in D.
    replace (l1 ++ i :: l2)%list with ((l1 ++ [i]) ++ l2)%list in D
      by (rewrite <- app_assoc; reflexivity).
    exact (NoDup_app_disjoint _ _ _ D I I2).
Qed.

(* ================================================================== *)
(** ** A row that got past the gate is not tried again *)

Lemma monotone_loop_body cfg Inventory (i : nat) :
  monotone (visit i ;; process_row cfg (read_row Inventory i)).
Proof.
  apply monotone_bind; [apply monotone_visit | intros _; apply monotone_process_row].
Qed.

Lemma monotone_sweep cfg Inventory : monotone (sweep cfg Inventory).
Proof. apply monotone_for_each. intro i. apply monotone_loop_body. Qed.

(** After a row whose gate returned, the row is one the loop passes over,
    also when its strategy raised. *)
Lemma process_row_settles_past_gate cfg row w w1 r :
  enter_folder cfg row w = (Ret r, w1) ->
  row_skipped cfg row (snd (process_row cfg row w)) = true.
Proof.
  intro E. pose proof (enter_folder_settles _ _ _ E) as S.
  unfold process_row, bind. rewrite E. destruct r as [[f i]|]; [|exact S].
  eapply row_skipped_mono; [|exact S]. apply monotone_dispatch.
Qed.

(** X5.  The folder of the item is made before the item is fetched
    (line 145) and is the only thing later runs look at (line 144): a row
    whose gate returned is passed over in every later world that still has
    what the row left, with no call and no effect, also when its strategy
    ended with an exception.  A failed download is not tried again. *)
Theorem row_past_the_gate_is_never_retried
  (cfg : Config) (row : Row) (w w1 w2 : World) (r : option (string * string)) :
  enter_folder cfg row w = (Ret r, w1) ->
  fs_le (snd (process_row cfg row w)) w2 ->
  process_row cfg row w2 = (Ret tt, w2).
Proof.
  intros G L. apply row_skipped_runs.
  eapply row_skipped_mono; [exact L|]. eapply process_row_settles_past_gate. exact G.
Qed.

(** X6.  Resuming after an interrupted sweep.  When a sweep got through
    the rows before row [i] and the gate of row [i] returned (whatever
    happened to row [i] after that and to the rows after it), a later sweep
    over the same sheet, in a world that still has what the first one left,
    passes over all rows up to and including [i] without a call, and goes on
    with the rows after [i]. *)
Theorem later_sweep_resumes_after_the_rows_entered
  (cfg : Config) (Inventory : Sheet) (l1 l2 : list nat) (i : nat) (w wa wg w3 : World)
  (r : option (string * string)) :
  row_numbers Inventory = (l1 ++ i :: l2)%list ->
  for_each l1 (fun j => visit j ;; process_row cfg (read_row Inventory j)) w = (Ret tt, wa) ->
  (visit i ;; enter_folder cfg (read_row Inventory i)) wa = (Ret r, wg) ->
  fs_le (snd (sweep cfg Inventory w)) w3 ->
  sweep cfg Inventory w3
  = for_each l2 (fun j => visit j ;; process_row cfg (read_row Inventory j))
      (mkWorld (dirs w3) (files w3) (portal w3) (log w3) (trace w3)
               (visited w3 ++ l1 ++ [i])).
Proof.
  intros Hrows H1 G L.
  set (body := fun j => visit j ;; process_row cfg (read_row Inventory j)) in *.
  set (wb := snd (body i wa)).
  assert (Lb : fs_le wb (snd (sweep cfg Inventory w))).
  { unfold sweep. fold body. rewrite Hrows, for_each_app. unfold bind at 1. rewrite H1.
    simpl for_each. unfold bind at 1. unfold wb.
    destruct (body i wa) as [[[]|e|c] w'] eqn:Eb; simpl; try apply fs_le_refl.
    apply monotone_for_each. intro j. apply monotone_loop_body. }
  assert (Si : row_skipped cfg (read_row Inventory i) wb = true).
  { unfold wb, body. rewrite loop_body_run.
    eapply process_row_settles_past_gate. exact G. }
  destruct (sweep_settles_rows _ _ _ _ H1) as [S1 _].
  assert (La : fs_le wa wb) by apply monotone_loop_body.
  assert (S : Forall (fun j => row_skipped cfg (read_row Inventory j) w3 = true)
                     (l1 ++ [i])%list).
  { apply Forall_app. split.
    - eapply Forall_impl; [|exact S1]. intros j Hj.
      eapply row_skipped_mono; [|exact Hj].
      eapply fs_le_trans; [exact La|]. eapply fs_le_trans; [exact Lb | exact L].
    - constructor; [|constructor].
      eapply row_skipped_mono; [|exact Si]. eapply fs_le_trans; [exact Lb | exact L]. }
  unfold sweep. fold body. rewrite Hrows.
  replace (l1 ++ i :: l2)%list with ((l1 ++ [i]) ++ l2)%list
    by (rewrite <- app_assoc; reflexivity).
  rewrite for_each_app. unfold bind at 1.
  unfold body at 1. rewrite (sweep_over_settled_rows _ _ _ S).
  reflexivity.
Qed.

(* ================================================================== *)
(** ** Archival that fails *)

Lemma first_failure_none (l : list RelItem) :
  first_failure l = None <-> forallb (fun r => returns (rel_download r)) l = true.
Proof.
  induction l as [|r l IH]; simpl; [tauto|].
  destruct (rel_download r); simpl; [exact IH | split; discriminate].
Qed.

(** The two ways of saying that the archival step goes through agree. *)
Lemma archival_succeeds_iff_no_failure (ty : string) (it : Item) :
  has_archival (classify ty) = true ->
  (archival_succeeds ty it = true <-> archival_failure ty it = None).
Proof.
  unfold archival_succeeds, archival_failure.
  destruct (classify ty); try discriminate; intros _.
  - destruct (download it); simpl; split; congruence.
  - destruct (export it) as [ex|]; [|split; discriminate].
    destruct (exp_download ex); simpl; split; congruence.
  - destruct (get_data it); simpl; split; congruence.
  - destruct (get_data it); simpl; [|split; discriminate].
    destruct (String.eqb ty "Form").
    + destruct (related_data it) as [l|]; [|split; discriminate].
      rewrite andb_true_iff, <- first_failure_none.
      destruct (first_failure l); [split; [intros [? _]|]; discriminate|].
      destruct (related_services it); simpl; split; try tauto; try congruence.
      intros [_ ?]; discriminate.
    + destruct (resources_export it); simpl; split; congruence.
Qed.

Lemma fails_quietly_bind_here {A B} (m : M A) (k : A -> M B) e w :
  fails_quietly m e w -> fails_quietly (bind m k) e w.
Proof.
  intros (w' & E & N). exists w'. split; [|exact N]. unfold bind. now rewrite E.
Qed.

Lemma fails_quietly_bind_later {A B} (m : M A) (k : A -> M B) e w :
  quietly m w ->
  (forall a w', m w = (Ret a, w') -> fails_quietly (k a) e w') ->
  fails_quietly (bind m k) e w.
Proof.
  intros (a & w1 & E & N) K. destruct (K a w1 E) as (w2 & E2 & N2).
  exists w2. split.
  - unfold bind. now rewrite E.
  - eapply no_delete_step_trans; eassumption.
Qed.

Lemma fails_quietly_answer {A} (r : Result A) e w :
  failure r = Some e -> fails_quietly (answer r) e w.
Proof.
  destruct r as [a|e']; [discriminate|]. intros [= ->].
  exists w. split; [reflexivity | apply no_delete_step_refl].
Qed.

(** A call that raises: [emit], then the answer. *)
Lemma fails_quietly_call {A B} (ev : Event) (r : Result A) (k : A -> M B) e w :
  is_delete ev = false -> failure r = Some e ->
  fails_quietly (emit ev ;; a <- answer r ;; k a) e w.
Proof.
  intros N F. apply fails_quietly_bind_later; [now apply quietly_emit|].
  intros _ w1 _. apply fails_quietly_bind_here. now apply fails_quietly_answer.
Qed.

Lemma quietly_call {A} (ev : Event) (r : Result A) w :
  is_delete ev = false -> returns r = true -> quietly (emit ev ;; answer r) w.
Proof.
  intros N R. apply quietly_bind; [now apply quietly_emit|]. intros _ w1 _.
  now apply quietly_answer.
Qed.

Lemma returns_no_failure {A} (r : Result A) : failure r = None -> returns r = true.
Proof. destruct r; [reflexivity | discriminate]. Qed.

Lemma quietly_result {A} (m : M A) w a w1 :
  quietly m w -> m w = (Ret a, w1) -> no_delete_step w w1.
Proof. intros (a' & w' & E & N) H. rewrite H in E. now inversion E; subst. Qed.

(** The loop of line 239-241 stops at the first download that raises. *)
Lemma fails_quietly_rel_downloads (l : list RelItem) (folder : string) e w :
  first_failure l = Some e ->
  fails_quietly
    (for_each l (fun rel_item => _ <- rel_item_download rel_item folder ;; ret tt)) e w.
Proof.
  revert w. induction l as [|r l IH]; intros w; simpl; [discriminate|].
  destruct (rel_download r) as [f|e'] eqn:D; intro F.
  - apply fails_quietly_bind_later.
    + apply quietly_bind; [|intros; apply quietly_ret].
      unfold rel_item_download. apply quietly_fetch; [reflexivity | now rewrite D].
    + intros _ w1 _. now apply IH.
  - injection F as ->. apply fails_quietly_bind_here, fails_quietly_bind_here.
    unfold rel_item_download. apply fails_quietly_call; [reflexivity | now rewrite D].
Qed.

Lemma content_get_found id it w :
  lookup id (portal w) = Some it ->
  forall a w', content_get id w = (Ret a, w') ->
  a = Some it /\ lookup id (portal w') = Some it.
Proof.
  intros L a w' G. rewrite content_get_run in G. inversion G; subst. now split.
Qed.

(** In the three classes whose archival calls have no handler, the first
    call that raises ends the strategy with its exception, before the delete
    step. *)
Lemma dispatch_archival_failure (row : Row) (id folder ty : string) (it : Item) e w :
  SourceItem_Type row = CStr ty ->
  lookup id (portal w) = Some it ->
  unguarded ty = true ->
  archival_failure ty it = Some e ->
  new_folder w folder ->
  fails_quietly (dispatch row id folder) e w.
Proof.
  intros T L U F NF. rewrite dispatch_classify, T. simpl.
  unfold unguarded in U. unfold archival_failure in F.
  destruct (classify ty) eqn:C; try discriminate; simpl.
  - (* FileAsset *)
    unfold strategy_file.
    apply fails_quietly_bind_later; [apply quietly_content_get|].
    intros a w1 G. destruct (content_get_found L G) as [-> _].
    apply fails_quietly_bind_here. unfold item_download.
    now apply fails_quietly_call.
  - (* DataApplication *)
    unfold strategy_data_app.
    apply fails_quietly_bind_later; [apply quietly_content_get|].
    intros a w1 G. destruct (content_get_found L G) as [-> _].
    apply fails_quietly_bind_here. unfold archive_data.
    apply fails_quietly_bind_here. unfold item_get_data.
    apply fails_quietly_bind_later; [now apply quietly_emit|].
    intros _ w2 _. now apply fails_quietly_answer.
  - (* OtherApplication *)
    unfold strategy_other_app.
    apply fails_quietly_bind_later; [apply quietly_content_get|].
    intros a w1 G. destruct (content_get_found L G) as [-> _].
    destruct (get_data it) as [data|e'] eqn:GD.
    2: { injection F as ->. apply fails_quietly_bind_here. unfold archive_data.
         apply fails_quietly_bind_here. unfold item_get_data.
         apply fails_quietly_bind_later; [now apply quietly_emit|].
         intros _ w2 _. apply fails_quietly_answer. now rewrite GD. }
    assert (NF1 : new_folder w1 folder).
    { rewrite content_get_run in G. inversion G; subst. exact NF. }
    assert (P : plain_name (ty ++ ".json") = true).
    { apply known_type_names_plain, classified_is_known. rewrite C. discriminate. }
    assert (R : returns (get_data it) = true) by (now rewrite GD).
    apply fails_quietly_bind_later.
    { exact (@quietly_archive_data row id folder it ty w1 T R NF1 P). }
    intros _ w2 _. apply fails_quietly_bind_here.
    rewrite T. unfold py_eq_str.
    destruct (String.eqb ty "Form").
    + unfold item_related_items. simpl.
      destruct (related_data it) as [l|e'] eqn:RD.
      2: { injection F as ->. apply fails_quietly_bind_here.
           apply fails_quietly_bind_later; [now apply quietly_emit|].
           intros _ w3 _. now apply fails_quietly_answer. }
      apply fails_quietly_bind_later.
      { apply quietly_call; reflexivity. }
      intros l' w3 G3.
      assert (l' = l) as ->.
      { apply bind_ret_inv in G3 as ([] & wa & _ & G3). now inversion G3. }
      destruct (first_failure l) as [e'|] eqn:FF.
      * injection F as ->. apply fails_quietly_bind_here.
        now apply fails_quietly_rel_downloads.
      * apply fails_quietly_bind_later.
        { apply quietly_for_each. intros r w' I.
          apply quietly_bind; [|intros; apply quietly_ret].
          unfold rel_item_download. apply quietly_fetch; [reflexivity|].
          apply first_failure_none in FF. rewrite forallb_forall in FF. now apply FF. }
        intros _ w4 _. apply fails_quietly_bind_here.
        apply fails_quietly_bind_later; [now apply quietly_emit|].
        intros _ w5 _. now apply fails_quietly_answer.
    + apply fails_quietly_bind_here. unfold item_resources_export.
      now apply fails_quietly_call.
Qed.

(** X9.  In the classes FileAsset, DataApplication and OtherApplication
    the archival calls (lines 150, 163, 229, 238-242, 254) stand outside
    every [try]: when one of them raises, the row ends with that exception
    and so does whatever was to follow the row.  Nothing was deleted; the
    folder of the item stays, so that later runs pass the row over. *)
Theorem unguarded_archival_failure_escapes
  (cfg : Config) (row : Row) (w w1 : World) (folder id ty : string) (it : Item) (e : Exn) :
  enter_folder cfg row w = (Ret (Some (folder, id)), w1) ->
  SourceItem_Type row = CStr ty ->
  unguarded ty = true ->
  lookup id (portal w1) = Some it ->
  archival_failure ty it = Some e ->
  exists w2,
    process_row cfg row w = (Raise e, w2)
    /\ (forall (B : Type) (rest : unit -> M B),
          bind (process_row cfg row) rest w = (Raise e, w2))
    /\ no_delete_step w1 w2
    /\ path_exists w2 folder = true.
Proof.
  intros E T U L F.
  destruct (@dispatch_archival_failure row id folder ty it e w1 T L U F
              (enter_folder_new_folder _ _ _ E)) as (w2 & R & N).
  rewrite <- (process_row_entered _ _ _ E) in R.
  exists w2. split; [exact R|]. split; [intros B rest; unfold bind; now rewrite R|].
  split; [exact N|].
  destruct (enter_folder_some_inv _ _ _ E) as (_ & _ & _ & _ & P & _).
  replace w2 with (snd (dispatch row id folder w1))
    by (rewrite <- (process_row_entered _ _ _ E), R; reflexivity).
  now apply monotone_dispatch.
Qed.

(* ================================================================== *)
(** ** Rows the script cannot archive *)

Lemma no_delete_keeps_strategy_other_service row id folder :
  keeps no_delete_step (strategy_other_service row id folder).
Proof. unfold_row. frame no_delete_step_refl no_delete_step_trans. Qed.

Lemma no_delete_keeps_strategy_unsupported row id folder :
  keeps no_delete_step (strategy_unsupported row id folder).
Proof. unfold_row. frame no_delete_step_refl no_delete_step_trans. Qed.

Lemma has_sep_app (a b : string) : has_sep (a ++ b) = orb (has_sep a) (has_sep b).
Proof.
  induction a as [|c a IH]; simpl; [reflexivity|].
  destruct (Ascii.eqb c "/"); [reflexivity | exact IH].
Qed.

(** A type without a separator gives a plain file name. *)
Lemma error_name_plain (ty : string) :
  has_sep ty = false -> plain_name (ty ++ "_error.json") = true.
Proof.
  intro H. unfold plain_name. rewrite has_sep_app, H. simpl.
  assert (N : forall s, String.length s < 11 -> String.eqb (ty ++ "_error.json") s = false).
  { intros s Ls. apply String.eqb_neq. intro Q.
    apply (f_equal String.length) in Q. rewrite length_append in Q. simpl in Q. lia. }
  rewrite !N by (simpl; lia). reflexivity.
Qed.

Lemma names_path_join (folder name : string) :
  folder <> EmptyString -> startswith_sep name = false ->
  names (path_join folder name) = (names folder ++ names name)%list.
Proof.
  intros F S. unfold path_join. rewrite S.
  apply String.eqb_neq in F. rewrite F. simpl.
  destruct (endswith_sep folder) eqn:T.
  - destruct (endswith_sep_inv _ T) as (a & ->). rewrite append_assoc'. simpl.
    unfold names. rewrite !names_from_sep. simpl. now rewrite app_nil_r.
  - unfold names. now rewrite names_from_sep.
Qed.

(** A name that leads through a folder that is not there cannot be
    written. *)
Lemma append_file_through_missing (folder a c text : string) (w : World) :
  new_folder w folder -> plain_name a = true -> plain_name c = true ->
  exists e,
    append_file (path_join folder (a ++ "/" ++ c)) text w = (Raise e, w)
    /\ (exn_kind e = FileNotFoundError \/ exn_kind e = NotADirectoryError).
Proof.
  intros [F N] Pa Pc. destruct (is_folder_locate _ _ F) as (E & W & D).
  assert (S : startswith_sep (a ++ "/" ++ c) = false).
  { apply plain_name_inv in Pa as (Ea & Sa & _).
    pose proof (startswith_sep_no_sep _ Sa) as Q.
    destruct a as [|x a]; [contradiction|]. exact Q. }
  assert (Nm : names (path_join folder (a ++ "/" ++ c))
               = (names folder ++ [a; c])%list).
  { rewrite (@names_path_join folder _ E S). f_equal.
    unfold names. simpl. rewrite names_from_sep.
    fold (names a). fold (names c). now rewrite (names_plain _ Pa), (names_plain _ Pc). }
  assert (Ne : path_join folder (a ++ "/" ++ c) <> EmptyString) by (now apply path_join_nonempty).
  unfold append_file. apply String.eqb_neq in Ne. rewrite Ne, Nm.
  unfold walk, is_dir in *. rewrite walk_in_app, W. simpl.
  rewrite D, (@step_plain _ a Pa), N.
  destruct (is_file_in (files w) (locate folder ++ [a])%list);
    eexists; (split; [reflexivity|]); [now right | now left].
Qed.

(** X11.  A row whose declared type is in none of the four sets the
    script can archive (lines 210-222 and 262-274), for an item the portal
    has.  When the type holds no separator the row returns; the only call
    is [content.get]; the only file written is [<type>_error.json] in the
    folder of the item, which exists afterwards and ends with the record of
    [itemname], [itemid] and the fixed sentence of the class; folders,
    portal and log are as they were, so no [delete] was called whatever the
    delete flag says.  A type [a/c] names a file in a folder that is not
    there: [open] raises, the row ends with that exception and nothing is
    written.  A type that starts with a separator makes [os.path.join] drop
    the folder of the item. *)
Theorem unarchivable_type_leaves_an_error_record
  (cfg : Config) (row : Row) (w w1 : World) (folder id ty : string) (it : Item) :
  enter_folder cfg row w = (Ret (Some (folder, id)), w1) ->
  SourceItem_Type row = CStr ty ->
  has_archival (classify ty) = false ->
  lookup id (portal w1) = Some it ->
  let target := path_join folder (ty ++ "_error.json") in
  let record := dumps_indent 4 (JObj [("itemname", JStr (title it));
                                      ("itemid", JStr id);
                                      ("download_error", JStr (refusal (classify ty)))]) in
  (has_sep ty = false ->
   exists w2,
     process_row cfg row w = (Ret tt, w2)
     /\ trace w2 = (trace w1 ++ [EvGet id; EvWrite target record])%list
     /\ files w2 = append_to target record (files w1)
     /\ path_exists w2 target = true
     /\ read_file (files w2) target
        = Some (match read_file (files w1) target with
                | Some old => old ++ record
                | None => record
                end)
     /\ dirs w2 = dirs w1 /\ portal w2 = portal w1 /\ log w2 = log w1
     /\ String.prefix folder target = true)
  /\ (forall a c, ty = a ++ "/" ++ c -> plain_name a = true -> has_sep c = false ->
      exists e,
        process_row cfg row w = (Raise e, traced [EvGet id] w1)
        /\ (exn_kind e = FileNotFoundError \/ exn_kind e = NotADirectoryError))
  /\ (startswith_sep ty = true -> target = ty ++ "_error.json").
Proof.
  intros E T H L target record.
  pose proof (enter_folder_new_folder _ _ _ E) as NF.
  assert (NF1 : new_folder (traced [EvGet id] w1) folder) by exact NF.
  assert (R : process_row cfg row w = append_file target record (traced [EvGet id] w1)).
  { rewrite (process_row_entered _ _ _ E), dispatch_classify, T. simpl.
    destruct (classify ty); try discriminate; simpl;
      unfold strategy_other_service, strategy_unsupported;
      unfold bind at 1; rewrite content_get_run, L;
      unfold write_error_json, cell_add; rewrite T; reflexivity. }
  split; [|split].
  - intro S. pose proof (error_name_plain _ S) as P.
    rewrite R. unfold target.
    rewrite (@append_file_new_folder folder _ record _ NF1 P).
    eexists. split; [reflexivity|]. simpl.
    split; [now rewrite <- app_assoc|]. split; [reflexivity|].
    split; [exact (@path_exists_wrote folder _ record _ (proj1 NF1) P)|].
    split; [apply read_file_append_to|].
    repeat split. apply path_join_under.
    apply plain_name_inv in P as (_ & Sp & _). now apply startswith_sep_no_sep.
  - intros a c -> Pa Sc. rewrite R. unfold target.
    replace ((a ++ "/" ++ c) ++ "_error.json") with (a ++ "/" ++ (c ++ "_error.json"))
      by (now rewrite !append_assoc').
    apply append_file_through_missing; [exact NF1 | exact Pa | now apply error_name_plain].
  - intro S. unfold target, path_join.
    destruct ty as [|x r]; [discriminate|]. simpl in *. now rewrite S.
Qed.

(** X12.  A flagged row whose type cell is empty or holds a number falls
    to the last branch of the chain (line 262); when the portal has the
    item, building the name of the error file (line 271) adds a text to
    something that is no text and raises [TypeError].  The exception leaves
    the row after the folder was made and the item fetched; no file is
    written.  When the portal does not have the item the row returns. *)
Theorem non_text_type_cell_raises_type_error
  (cfg : Config) (row : Row) (w w1 : World) (folder id : string) :
  enter_folder cfg row w = (Ret (Some (folder, id)), w1) ->
  is_text (SourceItem_Type row) = false ->
  (forall it, lookup id (portal w1) = Some it ->
     exists e, process_row cfg row w = (Raise e, traced [EvGet id] w1)
               /\ exn_kind e = TypeError)
  /\ (lookup id (portal w1) = None ->
      process_row cfg row w = (Ret tt, traced [EvGet id] w1)).
Proof.
  intros E T. rewrite (process_row_entered _ _ _ E). split.
  - intros it L. rewrite dispatch_classify.
    destruct (SourceItem_Type row) eqn:Ty; try discriminate; simpl;
      unfold strategy_unsupported; unfold bind at 1; rewrite content_get_run, L;
      unfold write_error_json, cell_add; rewrite Ty; unfold bind; simpl;
      eexists; split; reflexivity.
  - intro L. now apply dispatch_item_missing.
Qed.

(* ================================================================== *)
(** ** The export-capable class never raises *)


(* ================================================================== *)
(** ** Nothing is deleted that was not archived *)

Lemma archival_failure_export (ty : string) (it : Item) (e : Exn) :
  classify ty = ExportableService -> archival_failure ty it = Some e -> export_fails it e.
Proof.
  intros C F. unfold archival_failure in F. rewrite C in F. unfold export_fails.
  destruct (export it) as [ex|e'].
  - right. exists ex. split; [reflexivity|].
    destruct (exp_download ex); [discriminate | now injection F as ->].
  - left. now injection F as ->.
Qed.

(** Lines 179-208 when the export or the download raises: the handler
    writes the error record and the strategy returns; what the export
    created stays in the portal. *)
Lemma export_failure_adds (row : Row) (id folder ty : string) (it : Item) e w :
  SourceItem_Type row = CStr ty ->
  lookup id (portal w) = Some it ->
  classify ty = ExportableService ->
  archival_failure ty it = Some e ->
  new_folder w folder ->
  exists w2,
    dispatch row id folder w = (Ret tt, w2) /\ step_adding (created_by_export it) w w2.
Proof.
  intros T L C F NF.
  assert (P : plain_name (ty ++ "_error.json") = true).
  { apply known_type_names_plain, classified_is_known. rewrite C. discriminate. }
  pose proof (archival_failure_export _ _ C F) as X.
  destruct (@strategy_export_service_fails row id folder ty it e w T P L X NF)
    as (wm & evs & R & _ & _ & Pm & Tm & _ & Dm & (l & Lm)).
  rewrite dispatch_classify, T. simpl. rewrite C. simpl. rewrite R.
  eexists. split; [reflexivity|]. split; [exact Pm|]. split.
  - exists l. exact Lm.
  - eexists (evs ++ [EvWrite _ _])%list. split.
    + simpl. rewrite Tm. now rewrite app_assoc.
    + rewrite filter_app, Dm. reflexivity.
Qed.

(** When the archival step does not go through, the strategy deletes
    nothing, however it ends. *)
Lemma dispatch_without_success (row : Row) (id folder ty : string) (it : Item) w :
  SourceItem_Type row = CStr ty ->
  lookup id (portal w) = Some it ->
  archival_succeeds ty it = false ->
  new_folder w folder ->
  no_removal_step w (snd (dispatch row id folder w)).
Proof.
  intros T L A NF.
  destruct (has_archival (classify ty)) eqn:H.
  - pose proof (archival_succeeds_iff_no_failure ty it H) as I.
    destruct (archival_failure ty it) as [e|] eqn:F.
    2: { rewrite (proj2 I eq_refl) in A. discriminate. }
    destruct (unguarded ty) eqn:U.
    + destruct (@dispatch_archival_failure row id folder ty it e w T L U F NF)
        as (w2 & R & N).
      rewrite R. exists []. now apply step_adding_nil.
    + assert (C : classify ty = ExportableService).
      { unfold unguarded in U. destruct (classify ty); try discriminate. reflexivity. }
      destruct (@export_failure_adds row id folder ty it e w T L C F NF) as (w2 & R & N).
      rewrite R. now exists (created_by_export it).
  - apply no_removal_of_no_delete. rewrite dispatch_classify, T. simpl.
    destruct (classify ty); try discriminate; simpl.
    + apply no_delete_keeps_strategy_other_service.
    + apply no_delete_keeps_strategy_unsupported.
Qed.

Lemma no_removal_step_no_evidence (w w' : World) :
  no_removal_step w w' ->
  exists evs,
    trace w' = (trace w ++ evs)%list
    /\ ~ ((exists j, In (EvDelete j) evs)
          \/ (exists j x, lookup j (portal w) = Some x /\ lookup j (portal w') <> Some x)).
Proof.
  intros (added & P & _ & evs & T & F). exists evs. split; [exact T|].
  intros [[j I] | (j & x & L & N)].
  - pose proof (filter_nil_not_in _ _ F _ I). discriminate.
  - apply N. rewrite P. now apply lookup_app_some.
Qed.

(** X8.  Whatever a row does, a call of [delete], or an item of the portal
    that is no longer there under its id, comes about in one way only: the
    gate returned with the folder of the item, the portal has an item under
    the id of the row, every call of the archival step of the class of its
    declared type returned, and the delete flag cell is the token; and then
    [delete] was called once, on that item.  An item that was not archived
    is never deleted. *)
Theorem delete_only_after_successful_archival (cfg : Config) (row : Row) (w : World) :
  exists evs,
    trace (snd (process_row cfg row w)) = (trace w ++ evs)%list
    /\ ((exists j, In (EvDelete j) evs)
        \/ (exists j x, lookup j (portal w) = Some x
                        /\ lookup j (portal (snd (process_row cfg row w))) <> Some x) ->
        exists folder id w1 ty it,
          enter_folder cfg row w = (Ret (Some (folder, id)), w1)
          /\ SourceItem_Type row = CStr ty
          /\ lookup id (portal w) = Some it
          /\ archival_succeeds ty it = true
          /\ delete_indicated row = true
          /\ filter is_delete evs = [EvDelete id]).
Proof.
  pose proof (no_delete_keeps_enter_folder cfg row w) as N1.
  assert (Quiet : forall w', no_removal_step w w' -> snd (process_row cfg row w) = w' ->
            exists evs,
              trace (snd (process_row cfg row w)) = (trace w ++ evs)%list
              /\ ((exists j, In (EvDelete j) evs)
                  \/ (exists j x, lookup j (portal w) = Some x
                        /\ lookup j (portal (snd (process_row cfg row w))) <> Some x) ->
                  exists folder id w1 ty it,
                    enter_folder cfg row w = (Ret (Some (folder, id)), w1)
                    /\ SourceItem_Type row = CStr ty
                    /\ lookup id (portal w) = Some it
                    /\ archival_succeeds ty it = true
                    /\ delete_indicated row = true
                    /\ filter is_delete evs = [EvDelete id])).
  { intros w' N Q. rewrite Q. destruct (no_removal_step_no_evidence N) as (evs & T & X).
    exists evs. split; [exact T|]. intro H. contradiction. }
  assert (Gate : forall w', no_delete_step w w' -> snd (process_row cfg row w) = w' ->
            exists evs,
              trace (snd (process_row cfg row w)) = (trace w ++ evs)%list
              /\ ((exists j, In (EvDelete j) evs)
                  \/ (exists j x, lookup j (portal w) = Some x
                        /\ lookup j (portal (snd (process_row cfg row w))) <> Some x) ->
                  exists folder id w1 ty it,
                    enter_folder cfg row w = (Ret (Some (folder, id)), w1)
                    /\ SourceItem_Type row = CStr ty
                    /\ lookup id (portal w) = Some it
                    /\ archival_succeeds ty it = true
                    /\ delete_indicated row = true
                    /\ filter is_delete evs = [EvDelete id])).
  { intros w' N Q. apply (Quiet w'); [|exact Q]. exists []. now apply step_adding_nil. }
  destruct (enter_folder cfg row w) as [[[[folder id]|]|e|c] w1] eqn:E; simpl in N1.
  2-4: apply (Gate w1); [exact N1 | unfold process_row, bind; now rewrite E].
  pose proof (process_row_entered _ _ _ E) as R.
  pose proof (enter_folder_new_folder _ _ _ E) as NF.
  assert (Pw : portal w1 = portal w) by apply N1.
  destruct (SourceItem_Type row) as [|ty| |] eqn:T.
  1,3,4: apply (Gate (snd (dispatch row id folder w1))); [|now rewrite R];
    (eapply no_delete_step_trans; [exact N1|]);
    rewrite dispatch_classify, T; apply no_delete_keeps_strategy_unsupported.
  destruct (lookup id (portal w1)) as [it|] eqn:L.
  2: { apply (Gate (snd (dispatch row id folder w1))); [|now rewrite R].
       eapply no_delete_step_trans; [exact N1|].
       rewrite dispatch_item_missing by exact L. simpl.
       split; [reflexivity|]. split; [exists []; simpl; now rewrite app_nil_r|].
       exists [EvGet id]. split; reflexivity. }
  destruct (archival_succeeds ty it) eqn:A.
  2: { apply (Quiet (snd (dispatch row id folder w1))); [|now rewrite R].
       destruct (@dispatch_without_success row id folder ty it w1 T L A NF) as [added S].
       exists added. eapply step_adding_before; [exact N1 | exact S]. }
  destruct (@strategy_ends_with_delete row id folder ty it w1 T L A NF) as (w2 & D & S).
  destruct (archived_then_delete_step_post S L) as (evs2 & Tr & F & _).
  destruct (delete_indicated row) eqn:Y.
  2: { apply (Quiet w2); [|now rewrite R, D].
       destruct S as (wm & Nm & Dm). exists (created ty it).
       eapply step_adding_before; [exact N1|].
       eapply step_adding_after; [exact Nm|].
       destruct (delete_if_indicated_spec row id it wm) as (w2' & D' & T2 & Po2 & L2 & _).
       rewrite Dm in D'. inversion D'; subst w2'. rewrite Y in *.
       split; [exact Po2|]. split; [exists []; exact L2|].
       exists []. split; [exact T2 | reflexivity]. }
  destruct N1 as (_ & _ & evs1 & T1 & F1).
  exists (evs1 ++ evs2)%list. rewrite R, D. simpl. split.
  - rewrite Tr, T1. now rewrite app_assoc.
  - intros _. exists folder, id, w1, ty, it.
    rewrite <- Pw. repeat split; try assumption; try reflexivity.
    rewrite filter_app, F1, F. reflexivity.
Qed.

(* ================================================================== *)
(** ** The relation manifest of a form (lines 236-252) *)

Lemma to_uint_nonnil (n : nat) : Nat.to_uint n <> Decimal.Nil.
Proof.
  pose proof (DecimalNat.Unsigned.to_of (Nat.to_uint n)) as H. rewrite DecimalNat.Unsigned.of_to in H.
  rewrite H. apply DecimalFacts.unorm_nonnil.
Qed.

Lemma str_of_nat_inj (a b : nat) : str_of_nat a = str_of_nat b -> a = b.
Proof.
  unfold str_of_nat. intro H. apply (f_equal NilZero.uint_of_string) in H.
  rewrite !NilZero.usu in H by apply to_uint_nonnil.
  injection H as H. now apply DecimalNat.Unsigned.to_uint_inj.
Qed.

Lemma string_of_uint_no_space (d : Decimal.uint) :
  has_space (NilEmpty.string_of_uint d) = false.
Proof. induction d; simpl; try assumption; reflexivity. Qed.

Lemma str_of_nat_no_space (n : nat) : has_space (str_of_nat n) = false.
Proof.
  unfold str_of_nat, NilZero.string_of_uint.
  destruct (Nat.to_uint n); try apply string_of_uint_no_space. reflexivity.
Qed.

(** Two texts without a space, each followed by a space and more: the
    first space tells where each ends. *)
Lemma split_at_space (a b r1 r2 : string) :
  has_space a = false -> has_space b = false ->
  a ++ String " " r1 = b ++ String " " r2 -> a = b /\ r1 = r2.
Proof.
  revert b. induction a as [|c a IH]; intros [|d b] Ha Hb H; simpl in *.
  - injection H as ->. now split.
  - injection H as <- _. simpl in Hb. discriminate.
  - injection H as -> _. simpl in Ha. discriminate.
  - injection H as -> H.
    destruct (Ascii.eqb d " "); [discriminate|].
    destruct (IH b Ha Hb H) as [-> ->]. now split.
Qed.

Lemma relation_id_key_inj (a b : nat) : relation_id_key a = relation_id_key b -> a = b.
Proof.
  intro H. apply split_at_space in H as [H _]; try apply str_of_nat_no_space.
  now apply str_of_nat_inj.
Qed.

Lemma relation_url_key_inj (a b : nat) : relation_url_key a = relation_url_key b -> a = b.
Proof.
  intro H. apply split_at_space in H as [H _]; try apply str_of_nat_no_space.
  now apply str_of_nat_inj.
Qed.

Lemma relation_keys_differ (a b : nat) : relation_id_key a <> relation_url_key b.
Proof.
  intro H. apply split_at_space in H as [_ H]; try apply str_of_nat_no_space.
  discriminate.
Qed.

Lemma relations_from_cons (n : nat) (r : RelItem) (l : list RelItem) :
  relations_from n (r :: l)
  = (relation_id_key (S n), JStr (rel_id r))
    :: (relation_url_key (S n), url_json r)
    :: relations_from (S n) l.
Proof. reflexivity. Qed.

Lemma lookup_cons {A} (k k' : string) (a : A) (l : list (string * A)) :
  lookup k ((k', a) :: l) = if String.eqb k k' then Some a else lookup k l.
Proof. reflexivity. Qed.

Lemma relations_from_keys (n : nat) (l : list RelItem) (k : string) :
  In k (map fst (relations_from n l)) ->
  exists m, n < m /\ (k = relation_id_key m \/ k = relation_url_key m).
Proof.
  revert n. induction l as [|r l IH]; intros n; [contradiction|].
  rewrite relations_from_cons. simpl map.
  intros [<-|[<-|I]].
  - exists (S n). split; [lia | now left].
  - exists (S n). split; [lia | now right].
  - destruct (IH _ I) as (m & Hm & K). exists m. split; [lia | exact K].
Qed.

Lemma relations_from_NoDup (n : nat) (l : list RelItem) :
  NoDup (map fst (relations_from n l)).
Proof.
  revert n. induction l as [|r l IH]; intro n; [constructor|].
  rewrite relations_from_cons. simpl map.
  constructor; [|constructor; [|apply IH]].
  - intros [H|I].
    + symmetry in H. exact (relation_keys_differ _ _ H).
    + destruct (relations_from_keys _ _ _ I) as (m & Hm & [K|K]).
      * apply relation_id_key_inj in K. lia.
      * exact (relation_keys_differ _ _ K).
  - intro I. destruct (relations_from_keys _ _ _ I) as (m & Hm & [K|K]).
    + symmetry in K. exact (relation_keys_differ _ _ K).
    + apply relation_url_key_inj in K. lia.
Qed.

Lemma relations_from_length (n : nat) (l : list RelItem) :
  List.length (relations_from n l) = 2 * List.length l.
Proof.
  revert n. induction l as [|r l IH]; intro n; [reflexivity|].
  rewrite relations_from_cons. simpl List.length. rewrite IH. lia.
Qed.

Lemma relations_from_lookup (n : nat) (l : list RelItem) (k : nat) (r : RelItem) :
  nth_error l k = Some r ->
  lookup (relation_id_key (n + S k)) (relations_from n l) = Some (JStr (rel_id r))
  /\ lookup (relation_url_key (n + S k)) (relations_from n l) = Some (url_json r).
Proof.
  revert n k. induction l as [|r0 l IH]; intros n k H; [destruct k; discriminate|].
  rewrite relations_from_cons, !lookup_cons.
  destruct k as [|k]; simpl in H.
  - injection H as ->. rewrite Nat.add_1_r, !String.eqb_refl.
    replace (String.eqb (relation_url_key (S n)) (relation_id_key (S n))) with false.
    + now split.
    + symmetry. apply String.eqb_neq. intro K. symmetry in K.
      exact (relation_keys_differ _ _ K).
  - replace (n + S (S k)) with (S n + S k) by lia.
    assert (E1 : String.eqb (relation_id_key (S n + S k)) (relation_id_key (S n)) = false).
    { apply String.eqb_neq. intro K. apply relation_id_key_inj in K. lia. }
    assert (E2 : String.eqb (relation_id_key (S n + S k)) (relation_url_key (S n)) = false).
    { apply String.eqb_neq. apply relation_keys_differ. }
    assert (E3 : String.eqb (relation_url_key (S n + S k)) (relation_id_key (S n)) = false).
    { apply String.eqb_neq. intro K. symmetry in K. exact (relation_keys_differ _ _ K). }
    assert (E4 : String.eqb (relation_url_key (S n + S k)) (relation_url_key (S n)) = false).
    { apply String.eqb_neq. intro K. apply relation_url_key_inj in K. lia. }
    rewrite E1, E2, E3, E4. now apply IH.
Qed.

(** X16.  The relation manifest of a form (lines 236-247): every related
    service gives two entries, [<n> relation ITEM ID for this form is ] with
    its id and [<n> relation ITEM URL for this form is ] with its url, [n]
    counting the services from 1 in the order the portal lists them.  The
    keys are pairwise different, so that no assignment to the dictionary
    overwrites an earlier one and the list of entries is the dictionary;
    under the two keys of the [k]-th service stand its id and its url. *)
Theorem relation_manifest_has_two_entries_per_service (l : list RelItem) :
  List.length (relations_from 0 l) = 2 * List.length l
  /\ NoDup (map fst (relations_from 0 l))
  /\ forall k r,
       nth_error l k = Some r ->
       lookup (relation_id_key (S k)) (relations_from 0 l) = Some (JStr (rel_id r))
       /\ lookup (relation_url_key (S k)) (relations_from 0 l) = Some (url_json r).
Proof.
  split; [apply relations_from_length|]. split; [apply relations_from_NoDup|].
  intros k r H. exact (relations_from_lookup 0 l k H).
Qed.

(* ================================================================== *)
(** ** A form whose calls all return (lines 224-260) *)



Lemma runs_bind {A B} (m : M A) (k : A -> M B) w a e1 w1 b e2 w2 :
  runs m w a e1 w1 -> runs (k a) w1 b e2 w2 -> runs (bind m k) w b (e1 ++ e2) w2.
Proof.
  intros (R1 & T1 & L1) (R2 & T2 & L2). split; [unfold bind; now rewrite R1|].
  split; [rewrite T2, T1; now rewrite app_assoc | eapply fs_le_trans; eassumption].
Qed.


Lemma runs_content_get id it w :
  lookup id (portal w) = Some it ->
  runs (content_get id) w (Some it) [EvGet id] (traced [EvGet id] w).
Proof.
  intro L. split; [now rewrite content_get_run, L|]. split; [reflexivity|].
  intros p H. exact H.
Qed.



(** A download that returns: the call, then the file it leaves. *)
Lemma runs_fetch (ev : Event) (r : Result File) (f : File) (dir : string) w :
  r = Returns f ->
  runs (emit ev ;; f <- answer r ;; save_file dir f) w
       (path_join dir (file_name f))
       [ev; EvSave (path_join dir (file_name f)) (file_data f)]
       (snd (save_file dir f (traced [ev] w))).
Proof.
  intros ->. split; [reflexivity|]. split.
  - simpl. now rewrite <- app_assoc.
  - eapply fs_le_trans; [|apply monotone_save_file]. intros p H. exact H.
Qed.

Lemma runs_delete_if_indicated row id it w :
  exists w',
    runs (delete_if_indicated row id it) w tt
         (if delete_indicated row then [EvDelete id] else []) w'.
Proof.
  destruct (delete_if_indicated_spec row id it w) as (w' & D & T & _).
  exists w'. split; [exact D|]. split; [exact T|].
  replace w' with (snd (delete_if_indicated row id it w)) by now rewrite D.
  apply monotone_delete_if_indicated.
Qed.






(* ================================================================== *)
(** ** Before the loop (lines 83-126) *)

Lemma same_state_refl w : same_state w w.
Proof. repeat split. Qed.

Lemma same_state_trans a b c : same_state a b -> same_state b c -> same_state a c.
Proof.
  intros (D1 & F1 & P1 & V1) (D2 & F2 & P2 & V2). repeat split; congruence.
Qed.

Lemma same_state_emit e : keeps same_state (emit e).
Proof. intro w. repeat split. Qed.

Lemma same_state_logging lv msg : keeps same_state (logging lv msg).
Proof. intro w. repeat split. Qed.

#[local] Hint Resolve same_state_emit same_state_logging : frame.

Ltac unfold_preamble :=
  unfold check_inventory_file, connect, verify_user, load_sheet,
    contains_error, subscript_id, str_add_json, logging_info, logging_error.

Lemma same_state_check_inventory_file cfg : keeps same_state (check_inventory_file cfg).
Proof. unfold_preamble. frame same_state_refl same_state_trans. Qed.

Lemma same_state_connect cfg env : keeps same_state (connect cfg env).
Proof. unfold_preamble. frame same_state_refl same_state_trans. Qed.

Lemma same_state_verify_user cfg env tok : keeps same_state (verify_user cfg env tok).
Proof. unfold_preamble. frame same_state_refl same_state_trans. Qed.

Lemma same_state_load_sheet env : keeps same_state (load_sheet env).
Proof. unfold_preamble. frame same_state_refl same_state_trans. Qed.

(** Each check, when it lets the script go on. *)
Lemma check_inventory_file_run cfg w :
  path_exists w (inputExcelFile cfg) = true ->
  check_inventory_file cfg w = (Ret tt, logged (config_log cfg) w).
Proof.
  intro P. unfold check_inventory_file, bind, logging_info, logging, os_path_exists.
  match goal with |- context [path_exists ?W (inputExcelFile cfg)] =>
    change (path_exists W (inputExcelFile cfg)) with (path_exists w (inputExcelFile cfg))
  end.
  rewrite P. simpl. unfold logged, config_log.
  rewrite <- !app_assoc. reflexivity.
Qed.

Lemma check_inventory_file_returns_inv cfg w w' :
  check_inventory_file cfg w = (Ret tt, w') -> path_exists w (inputExcelFile cfg) = true.
Proof.
  intro H. destruct (path_exists w (inputExcelFile cfg)) eqn:P; [reflexivity|].
  destruct (check_inventory_file_missing cfg w P) as (w2 & E & _).
  rewrite E in H. discriminate.
Qed.

Lemma connect_run cfg env tok w :
  gis_connect env = Returns tok ->
  connect cfg env w = (Ret tok, logged (connect_log cfg tok) (traced [EvConnect] w)).
Proof.
  intro G. unfold connect, bind, emit, logging_info, logging. rewrite G. simpl.
  unfold logged, connect_log. simpl. rewrite <- !app_assoc. reflexivity.
Qed.

Lemma connect_returns_inv cfg env tok w w' :
  connect cfg env w = (Ret tok, w') -> gis_connect env = Returns tok.
Proof.
  unfold connect, bind, emit, logging_info, logging.
  destruct (gis_connect env) as [t|e]; simpl; intro H; [|discriminate].
  now inversion H.
Qed.

Lemma verify_user_run cfg env tok w :
  id_verified cfg env = true ->
  verify_user cfg env tok w
  = (Ret tt,
     logged [(INFO, "The user ID in the portal matches the configured user id. Continuing ...")]
       (traced [EvVerify (verify_url cfg tok)] (logged (verify_log cfg tok) w))).
Proof.
  unfold id_verified. intro V.
  destruct (verify_reply env) as [[| | | | |l]|e] eqn:R; try discriminate.
  apply andb_true_iff in V as [K I].
  destruct (has_key "error" l) eqn:HK; [discriminate|].
  destruct (lookup "id" l) as [obtained|] eqn:LI; [|discriminate].
  unfold verify_user, bind, emit, logging_info, logging, contains_error, subscript_id.
  simpl. rewrite R. simpl. rewrite HK. simpl. rewrite LI. simpl. rewrite I.
  reflexivity.
Qed.

Lemma verify_user_returns_inv cfg env tok w w' :
  verify_user cfg env tok w = (Ret tt, w') -> id_verified cfg env = true.
Proof.
  unfold id_verified, verify_user, bind, emit, logging_info, logging_error, logging,
    contains_error, subscript_id, str_add_json, sys_exit.
  simpl.
  destruct (verify_reply env) as [[| | |s|a|l]|e]; simpl; try discriminate.
  - destruct (is_substring "error" s); simpl; discriminate.
  - destruct (existsb (is_json_str "error") a); simpl; discriminate.
  - destruct (has_key "error" l); simpl; [discriminate|].
    destruct (lookup "id" l) as [obtained|]; simpl; [|discriminate].
    destruct (is_json_str (sourceUserId cfg) obtained); simpl; [reflexivity|].
    destruct obtained; simpl; discriminate.
Qed.

Lemma load_sheet_run env Inventory w :
  load_inventory env = Returns Inventory ->
  load_sheet env w
  = (Ret Inventory,
     logged [(INFO, "Loading Excel and sheet ..."); (INFO, "Processing rows in sheet ... ")] w).
Proof.
  intro L. unfold load_sheet, bind, logging_info, logging. rewrite L. simpl.
  unfold logged. simpl. rewrite <- !app_assoc. reflexivity.
Qed.

Lemma load_sheet_returns_inv env Inventory w w' :
  load_sheet env w = (Ret Inventory, w') -> load_inventory env = Returns Inventory.
Proof.
  unfold load_sheet, bind, logging_info, logging.
  destruct (load_inventory env) as [i|e]; simpl; intro H; [|discriminate].
  now inversion H.
Qed.

(** X17.  Nothing is touched before the checks have passed: when a run
    of the script has entered a row, or changed a folder, a file or the
    portal, then the inventory file was there, the connection was made, the
    reply to the verify request was an object without [error] whose [id] is
    the configured user id, and the sheet was loaded. *)
Theorem nothing_is_touched_before_the_checks_pass (cfg : Config) (env : Env) (w : World) :
  ~ same_state w (snd (main cfg env w)) ->
  path_exists w (inputExcelFile cfg) = true
  /\ returns (gis_connect env) = true
  /\ id_verified cfg env = true
  /\ returns (load_inventory env) = true.
Proof.
  intro N. unfold main in N.
  pose proof (same_state_check_inventory_file cfg w) as S1.
  unfold bind at 1 in N.
  destruct (check_inventory_file cfg w) as [[[]|e|c] wa] eqn:E1; simpl in S1, N;
    try (exfalso; apply N; exact S1).
  pose proof (same_state_connect cfg env wa) as S2.
  unfold bind at 1 in N.
  destruct (connect cfg env wa) as [[tok|e|c] wb] eqn:E2; simpl in S2, N;
    try (exfalso; apply N; eapply same_state_trans; eassumption).
  pose proof (same_state_verify_user cfg env tok wb) as S3.
  unfold bind at 1 in N.
  destruct (verify_user cfg env tok wb) as [[[]|e|c] wc] eqn:E3; simpl in S3, N;
    try (exfalso; apply N; eapply same_state_trans; [exact S1|];
         eapply same_state_trans; eassumption).
  pose proof (same_state_load_sheet env wc) as S4.
  unfold bind at 1 in N.
  destruct (load_sheet env wc) as [[Inventory|e|c] wd] eqn:E4; simpl in S4, N;
    try (exfalso; apply N; eapply same_state_trans; [exact S1|];
         eapply same_state_trans; [exact S2|]; eapply same_state_trans; eassumption).
  split; [now apply check_inventory_file_returns_inv with (w' := wa)|].
  split; [erewrite connect_returns_inv by exact E2; reflexivity|].
  split; [now apply verify_user_returns_inv with (tok := tok) (w := wb) (w' := wc)|].
  erewrite load_sheet_returns_inv by exact E4. reflexivity.
Qed.

(** X18.  When the checks pass, the script is the sweep over the loaded
    sheet, started in a world that differs from the initial one by the two
    calls to the portal (the connection and the verify request) and by what
    was logged; the script then ends with the outcome of the sweep. *)
Theorem verified_run_is_the_sweep
  (cfg : Config) (env : Env) (w : World) (tok : string) (Inventory : Sheet) :
  path_exists w (inputExcelFile cfg) = true ->
  gis_connect env = Returns tok ->
  id_verified cfg env = true ->
  load_inventory env = Returns Inventory ->
  main cfg env w
  = sweep cfg Inventory
      (mkWorld (dirs w) (files w) (portal w)
         (log w ++ config_log cfg ++ connect_log cfg tok ++ verify_log cfg tok
              ++ [(INFO, "The user ID in the portal matches the configured user id. Continuing ...");
                  (INFO, "Loading Excel and sheet ...");
                  (INFO, "Processing rows in sheet ... ")])
         (trace w ++ [EvConnect; EvVerify (verify_url cfg tok)])
         (visited w)).
Proof.
  intros P G V L. unfold main.
  unfold bind at 1. rewrite check_inventory_file_run by exact P.
  unfold bind at 1. erewrite connect_run by exact G.
  unfold bind at 1. rewrite verify_user_run by exact V.
  unfold bind at 1. erewrite load_sheet_run by exact L.
  f_equal. unfold logged, traced. simpl. f_equal.
  - rewrite <- !app_assoc. reflexivity.
  - rewrite <- !app_assoc. reflexivity.
Qed.

Lemma bind_assoc {A B C} (m : M A) (k : A -> M B) (k' : B -> M C) (w : World) :
  bind (bind m k) k' w = bind m (fun a => bind (k a) k') w.
Proof. unfold bind. destruct (m w) as [[a|e|c] w1]; reflexivity. Qed.

(** The script from the reply to the verify request on, when the first
    two checks have passed. *)
Lemma main_up_to_reply cfg env w tok :
  path_exists w (inputExcelFile cfg) = true ->
  gis_connect env = Returns tok ->
  main cfg env w
  = ((json_source_response <- answer (verify_reply env) ;;
      has_error <- contains_error json_source_response ;;
      if negb has_error then
        Obtained_Source_ID <- subscript_id json_source_response ;;
        if is_json_str (sourceUserId cfg) Obtained_Source_ID then
          logging_info "The user ID in the portal matches the configured user id. Continuing ..."
        else
          msg <- str_add_json "The user id in the portal " Obtained_Source_ID
                   (" is not the same as in Configured file " ++ sourceUserId cfg ++ " . Exiting.") ;;
          logging_error msg ;;
          sys_exit 0
      else
        msg <- str_add_json "Error in Source ID Verification. " json_source_response ". Exiting." ;;
        logging_error msg ;;
        sys_exit 0) ;;
     Inventory <- load_sheet env ;;
     sweep cfg Inventory) (at_verification cfg tok w).
Proof.
  intros P G. unfold main.
  unfold bind at 1. rewrite check_inventory_file_run by exact P.
  unfold bind at 1. erewrite connect_run by exact G.
  unfold verify_user. rewrite bind_assoc.
  unfold bind at 1. unfold logging_info at 1. unfold logging at 1. cbv beta iota.
  rewrite bind_assoc.
  unfold bind at 1. unfold emit at 1. cbv beta iota.
  f_equal. unfold at_verification, logged, traced, verify_log, verify_url. simpl.
  rewrite <- !app_assoc. reflexivity.
Qed.

(** X19.  A reply to the verify request that carries an [error] member
    (what the portal answers to a bad token) does not lead to the logged
    message and [sys.exit(0)] of lines 115-116: line 115 adds the reply, a
    dictionary, to a text, which raises [TypeError].  The script ends with
    that exception, exit status 1, before the sheet is loaded; no line of
    level ERROR reaches the log. *)
Theorem error_reply_ends_in_type_error
  (cfg : Config) (env : Env) (w : World) (tok : string) (l : list (string * json)) :
  path_exists w (inputExcelFile cfg) = true ->
  gis_connect env = Returns tok ->
  verify_reply env = Returns (JObj l) ->
  has_key "error" l = true ->
  exists e,
    main cfg env w = (Raise e, at_verification cfg tok w)
    /\ exn_kind e = TypeError
    /\ exit_status (fst (main cfg env w)) = 1%Z.
Proof.
  intros P G R K. rewrite (main_up_to_reply cfg env w P G).
  unfold bind, contains_error, str_add_json. rewrite R. simpl. rewrite K. simpl.
  eexists. repeat split.
Qed.

(** X20.  A reply to the verify request without [error] and without a
    usable [id]: when the object has no [id], line 108 raises [KeyError];
    when its [id] is not a text, it is unequal to the configured id (a
    text) and line 112 adds it to a text, which raises [TypeError].  Either
    way the script ends with the exception, exit status 1, before the sheet
    is loaded, and not through [sys.exit(0)]. *)
Theorem reply_without_text_id_ends_in_an_exception
  (cfg : Config) (env : Env) (w : World) (tok : string) (l : list (string * json)) :
  path_exists w (inputExcelFile cfg) = true ->
  gis_connect env = Returns tok ->
  verify_reply env = Returns (JObj l) ->
  has_key "error" l = false ->
  (forall s, lookup "id" l <> Some (JStr s)) ->
  exists e,
    main cfg env w = (Raise e, at_verification cfg tok w)
    /\ exn_kind e = match lookup "id" l with
                    | None => KeyError
                    | Some _ => TypeError
                    end
    /\ exit_status (fst (main cfg env w)) = 1%Z.
Proof.
  intros P G R K N. rewrite (main_up_to_reply cfg env w P G).
  unfold bind, contains_error, subscript_id, str_add_json. rewrite R. simpl.
  rewrite K. simpl.
  destruct (lookup "id" l) as [v|] eqn:I; simpl.
  - destruct v; simpl; try solve [eexists; repeat split].
    exfalso. now apply (N s).
  - eexists. repeat split.
Qed.

(* ------------------------------------------------------------------ *)
(** *** What stays in the log *)

Lemma log_kept_refl w : log_kept w w.
Proof. exists []. now rewrite List.app_nil_r. Qed.

Lemma log_kept_trans a b c : log_kept a b -> log_kept b c -> log_kept a c.
Proof.
  intros [l1 H1] [l2 H2]. exists (l1 ++ l2)%list. rewrite H2, H1. now rewrite app_assoc.
Qed.

Ltac log_same := intro w; exists []; simpl; now rewrite List.app_nil_r.

Lemma log_kept_emit e : keeps log_kept (emit e).
Proof. log_same. Qed.

Lemma log_kept_visit i : keeps log_kept (visit i).
Proof. log_same. Qed.

Lemma log_kept_logging lv msg : keeps log_kept (logging lv msg).
Proof. intro w. exists [(lv, msg)]. reflexivity. Qed.

Lemma log_kept_os_mkdir p : keeps log_kept (os_mkdir p).
Proof.
  intro w. destruct (os_mkdir_world p w) as [E | [e E]]; rewrite E;
    exists []; simpl; now rewrite List.app_nil_r.
Qed.

Lemma log_kept_append_file p text : keeps log_kept (append_file p text).
Proof.
  intro w. destruct (append_file_world p text w) as [E | [e E]]; rewrite E;
    exists []; simpl; now rewrite List.app_nil_r.
Qed.

Lemma log_kept_add_item id it : keeps log_kept (add_item id it).
Proof. log_same. Qed.

Lemma log_kept_save_file dir f : keeps log_kept (save_file dir f).
Proof. log_same. Qed.

Lemma log_kept_drop_item id : keeps log_kept (drop_item id).
Proof. log_same. Qed.

Lemma log_kept_lookup_item id :
  keeps log_kept (fun w => (Ret (lookup id (portal w)), w)).
Proof. intro w. apply log_kept_refl. Qed.

#[local] Hint Resolve log_kept_emit log_kept_visit log_kept_logging log_kept_os_mkdir
  log_kept_append_file log_kept_save_file log_kept_drop_item log_kept_add_item
  log_kept_lookup_item : frame.

Lemma log_kept_process_row cfg row : keeps log_kept (process_row cfg row).
Proof.
  unfold_row. unfold delete_if_indicated, item_delete, logging_error.
  frame log_kept_refl log_kept_trans.
Qed.

Lemma log_kept_sweep cfg Inventory : keeps log_kept (sweep cfg Inventory).
Proof.
  unfold sweep. apply (@keeps_for_each _ log_kept_refl log_kept_trans). intro i.
  apply (@keeps_bind _ log_kept_trans); [apply log_kept_visit|].
  intros _. apply log_kept_process_row.
Qed.

#[local] Hint Resolve log_kept_sweep : frame.

(** X21.  Once the connection is made, the token of the session is in
    the log in clear, in the line of line 100 and inside the address of the
    verify request logged on line 104, and both lines are still in the log
    when the script ends, however it ends. *)
Theorem session_token_is_logged_in_clear
  (cfg : Config) (env : Env) (w : World) (tok : string) :
  path_exists w (inputExcelFile cfg) = true ->
  gis_connect env = Returns tok ->
  In (INFO, "The Source Generated Token is " ++ tok) (log (snd (main cfg env w)))
  /\ In (INFO, "Source User Verify URL --> " ++ sourcePortal cfg
                 ++ "sharing/rest/community/users/" ++ sourceUserName cfg
                 ++ "?f=json&token=" ++ tok)
        (log (snd (main cfg env w))).
Proof.
  intros P G. rewrite (main_up_to_reply cfg env w P G).
  match goal with |- context [snd (?m ?W)] =>
    assert (K : keeps log_kept m)
      by (unfold_preamble; frame log_kept_refl log_kept_trans);
    destruct (K W) as [l H]; rewrite H end.
  split; apply in_or_app; left; unfold at_verification; simpl;
    apply in_or_app; right; simpl; tauto.
Qed.

(* ------------------------------------------------------------------ *)
(** *** What stays on disk *)

Lemma monotone_sys_exit {A} (c : Z) : monotone (@sys_exit A c).
Proof. intro w. apply fs_le_refl. Qed.

#[local] Hint Resolve monotone_sys_exit monotone_sweep : mono.

(** X22.  The script creates and overwrites but never removes: every
    folder and every file that exists when it starts exists when it ends,
    however it ends. *)
Theorem the_script_removes_no_path (cfg : Config) (env : Env) (w : World) (p : string) :
  path_exists w p = true -> path_exists (snd (main cfg env w)) p = true.
Proof.
  revert p. change (fs_le w (snd (main cfg env w))).
  assert (K : monotone (main cfg env)); [|apply K].
  unfold main. unfold_preamble. mono.
Qed.

(* ================================================================== *)
(** ** Rows whose archival goes through *)

Lemma delete_if_indicated_files row id it w :
  files (snd (delete_if_indicated row id it w)) = files w.
Proof.
  unfold delete_if_indicated, try_except, item_delete, bind, emit, logging_error, logging.
  destruct (py_eq_str (SourceItem_DeleteFlag_Value row) deleteFlag); [|reflexivity].
  simpl. destruct (delete it) as [[|]|e]; reflexivity.
Qed.

(** X13.  A row of a file type whose download returns (lines 146-156):
    the only call before the delete step is the download into the folder
    of the item, and the file it leaves holds the payload as the portal
    delivered it; the delete step comes last and does not touch the
    file. *)
Theorem file_asset_row_stores_the_payload
  (cfg : Config) (row : Row) (w w1 : World) (folder id ty : string) (it : Item) (f : File) :
  enter_folder cfg row w = (Ret (Some (folder, id)), w1) ->
  SourceItem_Type row = CStr ty ->
  In ty lst_file_types ->
  lookup id (portal w1) = Some it ->
  download it = Returns f ->
  exists w2,
    process_row cfg row w = (Ret tt, w2)
    /\ trace w2
       = (trace w1
          ++ [EvGet id; EvDownload id folder;
              EvSave (path_join folder (file_name f)) (file_data f)]
          ++ (if delete_indicated row then [EvDelete id] else []))%list
    /\ lookup (path_join folder (file_name f)) (files w2) = Some (file_data f).
Proof.
  intros E T I L D.
  assert (C : classify ty = FileAsset) by now apply classify_file.
  rewrite (process_row_entered _ _ _ E).
  set (wA := traced [EvGet id] w1).
  pose proof (@runs_fetch (EvDownload id folder) _ f folder wA D) as HB.
  set (wB := snd (save_file folder f (traced [EvDownload id folder] wA))) in *.
  destruct (runs_delete_if_indicated row id it wB) as (w2 & HG).
  assert (R : runs (dispatch row id folder) w1 tt
            ([EvGet id]
             ++ [EvDownload id folder; EvSave (path_join folder (file_name f)) (file_data f)]
             ++ (if delete_indicated row then [EvDelete id] else [])) w2).
  { rewrite dispatch_classify, T. simpl classify_cell. rewrite C. simpl strategy. unfold strategy_file.
    eapply runs_bind; [apply runs_content_get; exact L|].
    eapply runs_bind; [exact HB | exact HG]. }
  exists w2. destruct R as (R & Tr & _). split; [exact R|]. split.
  - rewrite Tr. simpl. rewrite <- ?app_assoc. reflexivity.
  - destruct HG as (G & _ & _).
    replace w2 with (snd (delete_if_indicated row id it wB)) by now rewrite G.
    rewrite delete_if_indicated_files. unfold wB, save_file. simpl.
    now rewrite String.eqb_refl.
Qed.


(* ================================================================== *)
(** ** The further theorems at concrete inputs *)

(** How paths are resolved: separators at the end, [.] and [..], and the
    errors of [os.mkdir] and [open]. *)
Example paths_are_resolved :
  let w := snd (process_row cfg0 row_pdf_b2 world_two_plain) in
  path_exists w "/archive/bob/b2/B.bin" = true
  /\ path_exists w "/archive/bob/b2/" = true
  /\ path_exists w "/archive//bob/./b2" = true
  /\ path_exists w "/archive/bob/../bob/b2/B.bin" = true
  /\ path_exists w "/archive/bob/b2/B.bin/" = false
  /\ path_exists w "/archive/carol/../bob" = false
  /\ fst (os_mkdir "/archive/bob/b2/" w)
     = Raise (os_error FileExistsError "/archive/bob/b2/")
  /\ fst (os_mkdir "/archive/x/y" w) = Raise (os_error FileNotFoundError "/archive/x/y")
  /\ fst (os_mkdir "/archive/bob/b2/B.bin/sub" w)
     = Raise (os_error NotADirectoryError "/archive/bob/b2/B.bin/sub")
  /\ fst (append_file "/archive/bob/b2" "x" w)
     = Raise (os_error IsADirectoryError "/archive/bob/b2")
  /\ fst (append_file "/archive/nobody/f.json" "x" w)
     = Raise (os_error FileNotFoundError "/archive/nobody/f.json").
Proof. vm_compute. repeat split; reflexivity. Qed.

(** The gate of a row whose cells are all text can raise: an owner with a
    separator names a folder inside a folder that is not there, and so does
    any owner when the archive root is missing. *)
Example gate_raises_with_text_cells :
  gate_ok row_slash_owner = true
  /\ enter_folder cfg0 row_slash_owner world_two_plain
     = (Raise (os_error FileNotFoundError "/archive/al/ice"), world_two_plain)
  /\ gate_ok row_pdf_a1 = true
  /\ enter_folder cfg0 row_pdf_a1 world_without_root
     = (Raise (os_error FileNotFoundError "/archive/alice"), world_without_root).
Proof. vm_compute. repeat split; reflexivity. Qed.

(** A declared type with a separator: the error record cannot be
    written. *)
Example type_with_separator_raises :
  process_row cfg0 row_slash_type world_slash_type
  = (Raise (os_error FileNotFoundError "/archive/alice/z1/A/B_error.json"),
     traced [EvGet "z1"] (snd (enter_folder cfg0 row_slash_type world_slash_type)))
  /\ files (snd (process_row cfg0 row_slash_type world_slash_type))
     = files world_slash_type.
Proof. vm_compute. split; reflexivity. Qed.

Lemma archive_flag_accepts_the_case_variants_of_yes_witness :
  SourceItem_ArchiveFlag_Value row_pdf_b2 = CStr "Yes"
  /\ In "Yes" yes_variants
  /\ path_exists (snd (process_row cfg0 row_pdf_b2 world_two_plain)) "/archive/bob/b2" = true.
Proof.
  destruct (@archive_flag_accepts_the_case_variants_of_yes cfg0 row_pdf_b2 "Yes" eq_refl)
    as (A & _ & C).
  assert (Y : In "Yes" yes_variants) by (apply A; reflexivity).
  split; [reflexivity|]. split; [exact Y|].
  destruct (C Y world_two_plain "bob" "b2" eq_refl eq_refl) as (P & _).
  apply (P (Some ("/archive/bob/b2", "b2")) (snd (enter_folder cfg0 row_pdf_b2 world_two_plain))).
  vm_compute. reflexivity.
Defined.

Lemma sweep_stops_at_the_first_row_that_raises_witness :
  (visit 2 ;; process_row cfg0 (read_row inventory_two_pdf 2)) world_first_download_raises
  = (Raise portal_down, world_after_failed_sweep)
  /\ sweep cfg0 inventory_two_pdf world_first_download_raises
     = (Raise portal_down, world_after_failed_sweep)
  /\ visited world_after_failed_sweep = [2].
Proof.
  assert (H : (visit 2 ;; process_row cfg0 (read_row inventory_two_pdf 2))
                world_first_download_raises
              = (Raise portal_down, world_after_failed_sweep))
    by (vm_compute; reflexivity).
  destruct (@sweep_stops_at_the_first_row_that_raises cfg0 inventory_two_pdf [] [3] 2
              world_first_download_raises world_first_download_raises
              world_after_failed_sweep portal_down eq_refl eq_refl H) as (A & B & _).
  split; [exact H|]. split; [exact A | exact B].
Defined.

Lemma row_past_the_gate_is_never_retried_witness :
  enter_folder cfg0 row_pdf_a1 world_first_download_raises
  = (Ret (Some ("/archive/alice/a1", "a1")),
     snd (enter_folder cfg0 row_pdf_a1 world_first_download_raises))
  /\ fst (process_row cfg0 row_pdf_a1 world_first_download_raises) = Raise portal_down
  /\ process_row cfg0 row_pdf_a1
       (snd (process_row cfg0 row_pdf_a1 world_first_download_raises))
     = (Ret tt, snd (process_row cfg0 row_pdf_a1 world_first_download_raises)).
Proof.
  assert (E : enter_folder cfg0 row_pdf_a1 world_first_download_raises
              = (Ret (Some ("/archive/alice/a1", "a1")),
                 snd (enter_folder cfg0 row_pdf_a1 world_first_download_raises)))
    by (vm_compute; reflexivity).
  split; [exact E|]. split; [vm_compute; reflexivity|].
  apply (@row_past_the_gate_is_never_retried cfg0 row_pdf_a1 world_first_download_raises
           _ (snd (process_row cfg0 row_pdf_a1 world_first_download_raises)) _ E).
  apply fs_le_refl.
Defined.

Lemma later_sweep_resumes_after_the_rows_entered_witness :
  (visit 2 ;; enter_folder cfg0 (read_row inventory_two_pdf 2)) world_first_download_raises
  = (Ret (Some ("/archive/alice/a1", "a1")),
     snd ((visit 2 ;; enter_folder cfg0 (read_row inventory_two_pdf 2))
            world_first_download_raises))
  /\ fst (sweep cfg0 inventory_two_pdf world_after_failed_sweep) = Ret tt
  /\ filter is_remote (events_since world_after_failed_sweep
                         (snd (sweep cfg0 inventory_two_pdf world_after_failed_sweep)))
     = [EvGet "b2"; EvDownload "b2" "/archive/bob/b2"].
Proof.
  assert (E : (visit 2 ;; enter_folder cfg0 (read_row inventory_two_pdf 2))
                world_first_download_raises
              = (Ret (Some ("/archive/alice/a1", "a1")),
                 snd ((visit 2 ;; enter_folder cfg0 (read_row inventory_two_pdf 2))
                        world_first_download_raises)))
    by (vm_compute; reflexivity).
  split; [exact E|].
  rewrite (@later_sweep_resumes_after_the_rows_entered cfg0 inventory_two_pdf [] [3] 2
             world_first_download_raises world_first_download_raises _
             world_after_failed_sweep _ eq_refl eq_refl E
             (@fs_le_refl world_after_failed_sweep)).
  split; vm_compute; reflexivity.
Defined.


Lemma unguarded_archival_failure_escapes_witness :
  enter_folder cfg0 row_pdf_a1 world_first_download_raises
  = (Ret (Some ("/archive/alice/a1", "a1")),
     snd (enter_folder cfg0 row_pdf_a1 world_first_download_raises))
  /\ archival_failure "PDF" (item_download_raises "A") = Some portal_down
  /\ exists w2,
       process_row cfg0 row_pdf_a1 world_first_download_raises = (Raise portal_down, w2).
Proof.
  assert (E : enter_folder cfg0 row_pdf_a1 world_first_download_raises
              = (Ret (Some ("/archive/alice/a1", "a1")),
                 snd (enter_folder cfg0 row_pdf_a1 world_first_download_raises)))
    by (vm_compute; reflexivity).
  split; [exact E|]. split; [reflexivity|].
  destruct (@unguarded_archival_failure_escapes cfg0 row_pdf_a1 world_first_download_raises
              _ "/archive/alice/a1" "a1" "PDF" (item_download_raises "A") portal_down
              E eq_refl eq_refl eq_refl eq_refl) as (w2 & R & _).
  exists w2. exact R.
Defined.


Lemma unarchivable_type_leaves_an_error_record_witness :
  enter_folder cfg0 row_image_service world_image_service
  = (Ret (Some ("/archive/alice/i1", "i1")),
     snd (enter_folder cfg0 row_image_service world_image_service))
  /\ has_archival (classify "Image Service") = false
  /\ has_sep "Image Service" = false
  /\ exists w2,
       process_row cfg0 row_image_service world_image_service = (Ret tt, w2)
       /\ path_exists w2 "/archive/alice/i1/Image Service_error.json" = true.
Proof.
  assert (E : enter_folder cfg0 row_image_service world_image_service
              = (Ret (Some ("/archive/alice/i1", "i1")),
                 snd (enter_folder cfg0 row_image_service world_image_service)))
    by (vm_compute; reflexivity).
  split; [exact E|]. split; [reflexivity|]. split; [reflexivity|].
  destruct (@unarchivable_type_leaves_an_error_record cfg0 row_image_service
              world_image_service _ "/archive/alice/i1" "i1" "Image Service"
              (plain_item "Imagery") E eq_refl eq_refl eq_refl) as (A & _).
  destruct (A eq_refl) as (w2 & R & _ & _ & P & _).
  exists w2. split; [exact R | exact P].
Defined.

Lemma non_text_type_cell_raises_type_error_witness :
  enter_folder cfg0 row_no_type world_no_type
  = (Ret (Some ("/archive/alice/x1", "x1")),
     snd (enter_folder cfg0 row_no_type world_no_type))
  /\ is_text (SourceItem_Type row_no_type) = false
  /\ exists e w2,
       process_row cfg0 row_no_type world_no_type = (Raise e, w2)
       /\ exn_kind e = TypeError.
Proof.
  assert (E : enter_folder cfg0 row_no_type world_no_type
              = (Ret (Some ("/archive/alice/x1", "x1")),
                 snd (enter_folder cfg0 row_no_type world_no_type)))
    by (vm_compute; reflexivity).
  split; [exact E|]. split; [reflexivity|].
  destruct (@non_text_type_cell_raises_type_error cfg0 row_no_type world_no_type
              _ "/archive/alice/x1" "x1" E eq_refl) as [A _].
  destruct (A (plain_item "Untyped") eq_refl) as (e & R & K).
  exists e. eexists. split; [exact R | exact K].
Defined.

Lemma file_asset_row_stores_the_payload_witness :
  enter_folder cfg0 row_pdf_b2 world_two_plain
  = (Ret (Some ("/archive/bob/b2", "b2")), snd (enter_folder cfg0 row_pdf_b2 world_two_plain))
  /\ In "PDF" lst_file_types
  /\ exists w2,
       process_row cfg0 row_pdf_b2 world_two_plain = (Ret tt, w2)
       /\ lookup "/archive/bob/b2/B.bin" (files w2) = Some "payload".
Proof.
  assert (E : enter_folder cfg0 row_pdf_b2 world_two_plain
              = (Ret (Some ("/archive/bob/b2", "b2")),
                 snd (enter_folder cfg0 row_pdf_b2 world_two_plain)))
    by (vm_compute; reflexivity).
  assert (I : In "PDF" lst_file_types) by (simpl; tauto).
  split; [exact E|]. split; [exact I|].
  destruct (@file_asset_row_stores_the_payload cfg0 row_pdf_b2 world_two_plain
              _ "/archive/bob/b2" "b2" "PDF" (plain_item "B") (mkFile "B.bin" "payload")
              E eq_refl I eq_refl eq_refl) as (w2 & R & _ & F).
  exists w2. split; [exact R | exact F].
Defined.



Lemma nothing_is_touched_before_the_checks_pass_witness :
  ~ same_state world_two_plain (snd (main cfg0 (env_of inventory_two_pdf) world_two_plain))
  /\ id_verified cfg0 (env_of inventory_two_pdf) = true.
Proof.
  assert (N : ~ same_state world_two_plain
                  (snd (main cfg0 (env_of inventory_two_pdf) world_two_plain))).
  { intros (_ & _ & _ & V). vm_compute in V. discriminate V. }
  split; [exact N|].
  exact (proj1 (proj2 (proj2 (@nothing_is_touched_before_the_checks_pass cfg0
                                (env_of inventory_two_pdf) world_two_plain N)))).
Defined.

Lemma verified_run_is_the_sweep_witness :
  path_exists world_two_plain (inputExcelFile cfg0) = true
  /\ id_verified cfg0 (env_of inventory_two_pdf) = true
  /\ exit_status (fst (main cfg0 (env_of inventory_two_pdf) world_two_plain)) = 0%Z.
Proof.
  split; [reflexivity|]. split; [reflexivity|].
  rewrite (@verified_run_is_the_sweep cfg0 (env_of inventory_two_pdf) world_two_plain
             "token-1" inventory_two_pdf eq_refl eq_refl eq_refl eq_refl).
  vm_compute. reflexivity.
Defined.

Lemma error_reply_ends_in_type_error_witness :
  has_key "error" [("error", JObj [("code", JInt 498)])] = true
  /\ exists e,
       main cfg0 env_error_reply world_two_plain
       = (Raise e, at_verification cfg0 "token-1" world_two_plain)
       /\ exn_kind e = TypeError.
Proof.
  split; [reflexivity|].
  destruct (@error_reply_ends_in_type_error cfg0 env_error_reply world_two_plain "token-1"
              [("error", JObj [("code", JInt 498)])] eq_refl eq_refl eq_refl eq_refl)
    as (e & R & K & _).
  exists e. split; [exact R | exact K].
Defined.

Lemma reply_without_text_id_ends_in_an_exception_witness :
  (forall s, lookup "id" [("username", JStr "admin")] <> Some (JStr s))
  /\ exists e,
       main cfg0 env_reply_without_id world_two_plain
       = (Raise e, at_verification cfg0 "token-1" world_two_plain)
       /\ exn_kind e = KeyError.
Proof.
  assert (N : forall s, lookup "id" [("username", JStr "admin")] <> Some (JStr s))
    by (intros s H; discriminate H).
  split; [exact N|].
  destruct (@reply_without_text_id_ends_in_an_exception cfg0 env_reply_without_id
              world_two_plain "token-1" [("username", JStr "admin")]
              eq_refl eq_refl eq_refl eq_refl N) as (e & R & K & _).
  exists e. split; [exact R | exact K].
Defined.

Lemma session_token_is_logged_in_clear_witness :
  path_exists world_two_plain (inputExcelFile cfg0) = true
  /\ In (INFO, "The Source Generated Token is token-1")
        (log (snd (main cfg0 env_other_account world_two_plain))).
Proof.
  split; [reflexivity|].
  exact (proj1 (@session_token_is_logged_in_clear cfg0 env_other_account world_two_plain
                  "token-1" eq_refl eq_refl)).
Defined.

Lemma the_script_removes_no_path_witness :
  path_exists world_two_plain "/archive" = true
  /\ path_exists (snd (main cfg0 (env_of inventory_two_pdf) world_two_plain)) "/archive" = true.
Proof.
  split; [reflexivity|].
  exact (@the_script_removes_no_path cfg0 (env_of inventory_two_pdf) world_two_plain
           "/archive" eq_refl).
Defined.
